(** * OpenManus-VSCode: the two message bridges

    A shallow embedding of the message bridges of the extension, and
    what holds of them.

    - [Json]: JSON values with [JSON.stringify] and [JSON.parse].
    - [Proc]: [OpenManusProcess], the child-process bridge: the
      brace-counting framer [processOutput], the dispatcher
      [handleMessage] with its listener list and callback map, and the
      correlated calls [sendPrompt], [executeTool], [getAvailableTools]
      with their timers.
    - [Bridge]: [MCPBridge], the WebSocket bridge: [connect] and the
      handlers it installs on a socket, [scheduleReconnect],
      [disconnect], [dispose], [sendMessage], [handleMessage],
      [listTools], [executeTool] with their timers, and [getTools].
    - [BridgeScenario], [ProcScenario]: concrete bridges and messages.
    - The facts: about the JSON layer, about [MCPBridge], about
      [OpenManusProcess].

    Conventions.  Text is a list of characters ([text]), one byte each.
    JSON numbers are integers.  A promise is named by a natural number
    and every call of its [resolve] or [reject] is logged, latest first,
    so that settlements can be counted.  The per-request timers, which
    the code never cancels, are events of the environment; the
    reconnect timer, which the code cancels, is part of the state.
    Ids and timestamps, which the code draws from the clock and the
    random generator, are arguments.  Listeners of other components
    only observe: they are recorded when called. *)

From Stdlib Require Import ZArith List Ascii String Lia Bool DecimalString.
From stdpp Require Import gmap strings list.

Set Warnings "-register-all".

Local Open Scope Z_scope.
Local Open Scope list_scope.

(** ** Text *)

Definition text := list ascii.

Definition T (s : string) : text := list_ascii_of_string s.

Definition dquote : ascii := ascii_of_nat 34.
Definition backslash : ascii := ascii_of_nat 92.
Definition newline : ascii := ascii_of_nat 10.
Definition lbrace : ascii := "{"%char.
Definition rbrace : ascii := "}"%char.

(** [s.indexOf(c, from)], [None] for -1. *)
Fixpoint indexOf_aux (c : ascii) (s : text) (i : nat) : option nat :=
  match s with
  | [] => None
  | x :: s' => if Ascii.eqb x c then Some i else indexOf_aux c s' (S i)
  end.

Definition indexOf (c : ascii) (s : text) (from : nat) : option nat :=
  indexOf_aux c (skipn from s) from.

(** [s.substring(a, b)] for [a <= b], and [s.substring(a)]. *)
Definition substring (s : text) (a b : nat) : text := firstn (b - a) (skipn a s).
Definition substring_from (s : text) (a : nat) : text := skipn a s.

Fixpoint strip_prefix (p s : text) : option text :=
  match p, s with
  | [], _ => Some s
  | a :: p', b :: s' => if Ascii.eqb a b then strip_prefix p' s' else None
  | _ :: _, [] => None
  end.

(** [s.includes(p)] *)
Fixpoint includes (p s : text) : bool :=
  match strip_prefix p s with
  | Some _ => true
  | None => match s with
            | [] => false
            | _ :: s' => includes p s'
            end
  end.

(** ** JSON values, [JSON.stringify] and [JSON.parse] *)

Inductive json : Type :=
| JNull
| JBool (b : bool)
| JNum (n : Z)
| JStr (s : string)
| JArr (xs : list json)
| JObj (kvs : list (string * json)).

Module Json.

Definition hex_digit (n : nat) : ascii :=
  if (n <? 10)%nat then ascii_of_nat (48 + n) else ascii_of_nat (87 + n).

(** The escapes [JSON.stringify] writes inside a string literal. *)
Definition escape_char (c : ascii) : text :=
  let n := nat_of_ascii c in
  if Ascii.eqb c dquote then [backslash; dquote]
  else if Ascii.eqb c backslash then [backslash; backslash]
  else if (n =? 8)%nat then [backslash; "b"%char]
  else if (n =? 12)%nat then [backslash; "f"%char]
  else if (n =? 10)%nat then [backslash; "n"%char]
  else if (n =? 13)%nat then [backslash; "r"%char]
  else if (n =? 9)%nat then [backslash; "t"%char]
  else if (n <? 32)%nat then
    [backslash; "u"%char; "0"%char; "0"%char;
     hex_digit (n / 16); hex_digit (n mod 16)]
  else [c].

Definition quote (s : string) : text :=
  dquote :: concat (map escape_char (T s)) ++ [dquote].

Fixpoint join_comma (parts : list text) : text :=
  match parts with
  | [] => []
  | [p] => p
  | p :: rest => p ++ ","%char :: join_comma rest
  end.

Definition text_of_Z (n : Z) : text := T (NilZero.string_of_int (Z.to_int n)).

Fixpoint stringify (j : json) : text :=
  match j with
  | JNull => T "null"
  | JBool true => T "true"
  | JBool false => T "false"
  | JNum n => text_of_Z n
  | JStr s => quote s
  | JArr xs => "["%char :: join_comma (map stringify xs) ++ ["]"%char]
  | JObj kvs =>
      lbrace ::
      join_comma (map (fun kv => match kv with
                                 | (k, v) => quote k ++ ":"%char :: stringify v
                                 end) kvs)
      ++ [rbrace]
  end.

(** *** Parsing *)

Inductive parsed (A : Type) : Type :=
| Parsed (a : A) (rest : text)
| SyntaxError
| OutOfFuel.
Arguments Parsed {A} a rest.
Arguments SyntaxError {A}.
Arguments OutOfFuel {A}.

Definition is_ws (c : ascii) : bool :=
  let n := nat_of_ascii c in
  (n =? 32)%nat || (n =? 9)%nat || (n =? 10)%nat || (n =? 13)%nat.

Fixpoint skip_ws (s : text) : text :=
  match s with
  | c :: s' => if is_ws c then skip_ws s' else s
  | [] => []
  end.

Definition digit_val (c : ascii) : option Z :=
  let n := nat_of_ascii c in
  if (48 <=? n)%nat && (n <=? 57)%nat then Some (Z.of_nat (n - 48)) else None.

Definition hex_val (c : ascii) : option nat :=
  let n := nat_of_ascii c in
  if (48 <=? n)%nat && (n <=? 57)%nat then Some (n - 48)%nat
  else if (97 <=? n)%nat && (n <=? 102)%nat then Some (n - 87)%nat
  else if (65 <=? n)%nat && (n <=? 70)%nat then Some (n - 55)%nat
  else None.

(** The body of a string literal, after its opening quote. *)
Fixpoint parse_chars (s : text) (acc : text) : parsed string :=
  match s with
  | [] => SyntaxError
  | c :: s' =>
      if Ascii.eqb c dquote then Parsed (string_of_list_ascii (rev acc)) s'
      else if Ascii.eqb c backslash then
        match s' with
        | e :: s'' =>
            if Ascii.eqb e dquote then parse_chars s'' (dquote :: acc)
            else if Ascii.eqb e backslash then parse_chars s'' (backslash :: acc)
            else if Ascii.eqb e "/"%char then parse_chars s'' ("/"%char :: acc)
            else if Ascii.eqb e "b"%char then parse_chars s'' (ascii_of_nat 8 :: acc)
            else if Ascii.eqb e "f"%char then parse_chars s'' (ascii_of_nat 12 :: acc)
            else if Ascii.eqb e "n"%char then parse_chars s'' (ascii_of_nat 10 :: acc)
            else if Ascii.eqb e "r"%char then parse_chars s'' (ascii_of_nat 13 :: acc)
            else if Ascii.eqb e "t"%char then parse_chars s'' (ascii_of_nat 9 :: acc)
            else if Ascii.eqb e "u"%char then
              match s'' with
              | h1 :: h2 :: h3 :: h4 :: s3 =>
                  match hex_val h1, hex_val h2, hex_val h3, hex_val h4 with
                  | Some 0%nat, Some 0%nat, Some a, Some b =>
                      parse_chars s3 (ascii_of_nat (16 * a + b) :: acc)
                  | _, _, _, _ => SyntaxError
                  end
              | _ => SyntaxError
              end
            else SyntaxError
        | [] => SyntaxError
        end
      else if (nat_of_ascii c <? 32)%nat then SyntaxError
      else parse_chars s' (c :: acc)
  end.

Fixpoint parse_digits (s : text) (acc : Z) : Z * text :=
  match s with
  | c :: s' =>
      match digit_val c with
      | Some d => parse_digits s' (10 * acc + d)
      | None => (acc, s)
      end
  | [] => (acc, [])
  end.

(** An integer literal: an optional minus sign, then [0] or a digit
    sequence without a leading zero. *)
Definition parse_number (s : text) : parsed Z :=
  let '(neg, s1) :=
    match s with
    | c :: s' => if Ascii.eqb c "-"%char then (true, s') else (false, s)
    | [] => (false, s)
    end in
  match s1 with
  | c :: s' =>
      match digit_val c with
      | Some 0 => Parsed 0 s'
      | Some d =>
          let '(n, r) := parse_digits s' d in
          Parsed (if neg then - n else n) r
      | None => SyntaxError
      end
  | [] => SyntaxError
  end.

Fixpoint parse_value (fuel : nat) (s : text) : parsed json :=
  match fuel with
  | O => OutOfFuel
  | S fuel' =>
      match skip_ws s with
      | [] => SyntaxError
      | c :: r =>
          if Ascii.eqb c dquote then
            match parse_chars r [] with
            | Parsed str r' => Parsed (JStr str) r'
            | SyntaxError => SyntaxError
            | OutOfFuel => OutOfFuel
            end
          else if Ascii.eqb c lbrace then
            match skip_ws r with
            | c' :: r' =>
                if Ascii.eqb c' rbrace then Parsed (JObj []) r'
                else parse_members fuel' (skip_ws r) []
            | [] => SyntaxError
            end
          else if Ascii.eqb c "["%char then
            match skip_ws r with
            | c' :: r' =>
                if Ascii.eqb c' "]"%char then Parsed (JArr []) r'
                else parse_elements fuel' (skip_ws r) []
            | [] => SyntaxError
            end
          else
            match strip_prefix (T "null") (c :: r),
                  strip_prefix (T "true") (c :: r),
                  strip_prefix (T "false") (c :: r) with
            | Some r', _, _ => Parsed JNull r'
            | _, Some r', _ => Parsed (JBool true) r'
            | _, _, Some r' => Parsed (JBool false) r'
            | None, None, None =>
                match parse_number (c :: r) with
                | Parsed n r' => Parsed (JNum n) r'
                | SyntaxError => SyntaxError
                | OutOfFuel => OutOfFuel
                end
            end
      end
  end
with parse_elements (fuel : nat) (s : text) (acc : list json) : parsed json :=
  match fuel with
  | O => OutOfFuel
  | S fuel' =>
      match parse_value fuel' s with
      | Parsed v r =>
          match skip_ws r with
          | c :: r' =>
              if Ascii.eqb c ","%char then parse_elements fuel' r' (v :: acc)
              else if Ascii.eqb c "]"%char then Parsed (JArr (rev (v :: acc))) r'
              else SyntaxError
          | [] => SyntaxError
          end
      | SyntaxError => SyntaxError
      | OutOfFuel => OutOfFuel
      end
  end
with parse_members (fuel : nat) (s : text) (acc : list (string * json)) : parsed json :=
  match fuel with
  | O => OutOfFuel
  | S fuel' =>
      match skip_ws s with
      | c :: r =>
          if Ascii.eqb c dquote then
            match parse_chars r [] with
            | Parsed k r1 =>
                match skip_ws r1 with
                | c1 :: r2 =>
                    if Ascii.eqb c1 ":"%char then
                      match parse_value fuel' r2 with
                      | Parsed v r3 =>
                          match skip_ws r3 with
                          | c3 :: r4 =>
                              if Ascii.eqb c3 ","%char
                              then parse_members fuel' r4 ((k, v) :: acc)
                              else if Ascii.eqb c3 rbrace
                              then Parsed (JObj (rev ((k, v) :: acc))) r4
                              else SyntaxError
                          | [] => SyntaxError
                          end
                      | SyntaxError => SyntaxError
                      | OutOfFuel => OutOfFuel
                      end
                    else SyntaxError
                | [] => SyntaxError
                end
            | SyntaxError => SyntaxError
            | OutOfFuel => OutOfFuel
            end
          else SyntaxError
      | [] => SyntaxError
      end
  end.

(** A result that, when it is a value, has left less than [n]
    characters, and that is not [OutOfFuel] when [enough] holds. *)
Definition consumes (n : nat) (enough : Prop) (x : parsed json) : Prop :=
  (forall v r, x = Parsed v r -> (length r < n)%nat) /\
  (enough -> x <> OutOfFuel).

(** The whole text must be one value, up to surrounding white space.
    Every recursive call consumes a character first, so twice the
    length of the text is fuel enough. *)
Definition parse_raw (s : text) : parsed json :=
  match parse_value (2 * length s + 2) s with
  | Parsed v r => match skip_ws r with [] => Parsed v [] | _ :: _ => SyntaxError end
  | SyntaxError => SyntaxError
  | OutOfFuel => OutOfFuel
  end.

(** [JSON.parse]: [None] stands for the [SyntaxError] it throws. *)
Definition parse (s : text) : option json :=
  match parse_raw s with
  | Parsed v _ => Some v
  | _ => None
  end.

(** Property access [v.k] on a parsed value: [None] is [undefined].
    When a key is repeated in the text the last one wins, as in
    [JSON.parse]. *)
Fixpoint lookup_last (k : string) (kvs : list (string * json)) : option json :=
  match kvs with
  | [] => None
  | (k', v) :: rest =>
      match lookup_last k rest with
      | Some v' => Some v'
      | None => if String.eqb k k' then Some v else None
      end
  end.

Definition field (k : string) (j : json) : option json :=
  match j with
  | JObj kvs => lookup_last k kvs
  | _ => None
  end.

(** JavaScript truthiness of a property value. *)
Definition truthy (v : option json) : bool :=
  match v with
  | None | Some JNull | Some (JBool false) => false
  | Some (JNum n) => negb (n =? 0)
  | Some (JStr s) => negb (String.eqb s "")
  | Some _ => true
  end.

End Json.

(** A promise is settled by a call of its [resolve] or of its [reject]. *)
Inductive outcome (V : Type) : Type :=
| Resolved (v : V)
| Rejected (reason : string).
Arguments Resolved {V} v.
Arguments Rejected {V} reason.

(** * The child-process bridge: [OpenManusProcess] *)

Module Proc.

Import Json.

(** [MCPMessageType] *)
Definition Initialize : string := "initialize".
Definition ExecuteTool : string := "execute_tool".
Definition ExecuteToolResponse : string := "execute_tool_response".
Definition Prompt : string := "prompt".
Definition PromptResponse : string := "prompt_response".
Definition Error : string := "error".

(** [message.type === t] *)
Definition type_is (m : json) (t : string) : bool :=
  match field "type" m with
  | Some (JStr s) => String.eqb s t
  | _ => false
  end.

(** The id under which [message.id && this.messageCallbacks.has(message.id)]
    can succeed: the keys of the map are strings, and the empty string
    is falsy. *)
Definition message_id (m : json) : option string :=
  match field "id" m with
  | Some (JStr s) => if String.eqb s "" then None else Some s
  | _ => None
  end.

(** [v || null] *)
Definition or_null (v : option json) : json :=
  if truthy v then default JNull v else JNull.

(** The entries of [messageCallbacks]: the closure registered by
    [sendPrompt], by [executeTool] and by [getAvailableTools], each
    with the promise it settles. *)
Inductive callback : Type :=
| PromptCallback (p : nat)
| ToolCallback (p : nat)
| ToolsCallback (p : nat).

Definition callback_promise (cb : callback) : nat :=
  match cb with
  | PromptCallback p | ToolCallback p | ToolsCallback p => p
  end.

(** The entries of [onMessageListeners]: the listener [start] registers
    to wait for the ready signal (with the promise of that call), and
    a listener of another component (the webview panel subscribes one). *)
Inductive listener : Type :=
| ReadyWaiter (p : nat)
| Subscriber (n : nat).

Global Instance listener_eq_dec : EqDecision listener.
Proof. solve_decision. Defined.

Record state : Type := State {
  running : bool;                         (* this.process !== null *)
  useMCP : bool;                          (* this.options.useMCP *)
  isReady : bool;
  messageBuffer : text;
  messageCallbacks : gmap string callback;
  onMessageListeners : list listener;
  readyTimers : list nat;                 (* pending 30 s timers of start, by promise *)
  stdin : list text;                      (* writes to the child, latest first *)
  parseErrors : nat;                      (* parse errors written to the output channel *)
  settled : list (nat * outcome json);    (* resolve/reject calls, latest first *)
  delivered : list (nat * json);          (* subscriber calls, latest first *)
  handled : list json                     (* handleMessage calls, latest first *)
}.

Definition set_running (v : bool) (s : state) : state :=
  State v (useMCP s) (isReady s) (messageBuffer s) (messageCallbacks s)
    (onMessageListeners s) (readyTimers s) (stdin s) (parseErrors s)
    (settled s) (delivered s) (handled s).
Definition set_useMCP (v : bool) (s : state) : state :=
  State (running s) v (isReady s) (messageBuffer s) (messageCallbacks s)
    (onMessageListeners s) (readyTimers s) (stdin s) (parseErrors s)
    (settled s) (delivered s) (handled s).
Definition set_isReady (v : bool) (s : state) : state :=
  State (running s) (useMCP s) v (messageBuffer s) (messageCallbacks s)
    (onMessageListeners s) (readyTimers s) (stdin s) (parseErrors s)
    (settled s) (delivered s) (handled s).
Definition set_messageBuffer (v : text) (s : state) : state :=
  State (running s) (useMCP s) (isReady s) v (messageCallbacks s)
    (onMessageListeners s) (readyTimers s) (stdin s) (parseErrors s)
    (settled s) (delivered s) (handled s).
Definition set_messageCallbacks (v : gmap string callback) (s : state) : state :=
  State (running s) (useMCP s) (isReady s) (messageBuffer s) v
    (onMessageListeners s) (readyTimers s) (stdin s) (parseErrors s)
    (settled s) (delivered s) (handled s).
Definition set_onMessageListeners (v : list listener) (s : state) : state :=
  State (running s) (useMCP s) (isReady s) (messageBuffer s)
    (messageCallbacks s) v (readyTimers s) (stdin s) (parseErrors s)
    (settled s) (delivered s) (handled s).
Definition set_readyTimers (v : list nat) (s : state) : state :=
  State (running s) (useMCP s) (isReady s) (messageBuffer s)
    (messageCallbacks s) (onMessageListeners s) v (stdin s) (parseErrors s)
    (settled s) (delivered s) (handled s).
Definition set_stdin (v : list text) (s : state) : state :=
  State (running s) (useMCP s) (isReady s) (messageBuffer s)
    (messageCallbacks s) (onMessageListeners s) (readyTimers s) v
    (parseErrors s) (settled s) (delivered s) (handled s).
Definition set_parseErrors (v : nat) (s : state) : state :=
  State (running s) (useMCP s) (isReady s) (messageBuffer s)
    (messageCallbacks s) (onMessageListeners s) (readyTimers s) (stdin s) v
    (settled s) (delivered s) (handled s).
Definition set_settled (v : list (nat * outcome json)) (s : state) : state :=
  State (running s) (useMCP s) (isReady s) (messageBuffer s)
    (messageCallbacks s) (onMessageListeners s) (readyTimers s) (stdin s)
    (parseErrors s) v (delivered s) (handled s).
Definition set_delivered (v : list (nat * json)) (s : state) : state :=
  State (running s) (useMCP s) (isReady s) (messageBuffer s)
    (messageCallbacks s) (onMessageListeners s) (readyTimers s) (stdin s)
    (parseErrors s) (settled s) v (handled s).
Definition set_handled (v : list json) (s : state) : state :=
  State (running s) (useMCP s) (isReady s) (messageBuffer s)
    (messageCallbacks s) (onMessageListeners s) (readyTimers s) (stdin s)
    (parseErrors s) (settled s) (delivered s) v.

(** [new OpenManusProcess(options)] *)
Definition init (mcp : bool) : state :=
  State false mcp false [] ∅ [] [] [] 0%nat [] [] [].

Definition resolve (p : nat) (v : json) (s : state) : state :=
  set_settled ((p, Resolved v) :: settled s) s.
Definition reject (p : nat) (reason : string) (s : state) : state :=
  set_settled ((p, Rejected reason) :: settled s) s.

(** How often [resolve]/[reject] of promise [p] was called. *)
Definition settlements (p : nat) (s : state) : list (outcome json) :=
  map snd (List.filter (fun e => Nat.eqb (fst e) p) (settled s)).

(** *** Listeners *)

(** [onMessage(callback)]: push. *)
Definition onMessage (l : listener) (s : state) : state :=
  set_onMessageListeners (onMessageListeners s ++ [l]) s.

(** [splice(index, 1)] at the first index of [l], when there is one. *)
Fixpoint remove_first (l : listener) (ls : list listener) : list listener :=
  match ls with
  | [] => []
  | x :: rest => if decide (x = l) then rest else x :: remove_first l rest
  end.

(** The disposable [onMessage] returns. *)
Definition dispose_listener (l : listener) (s : state) : state :=
  set_onMessageListeners (remove_first l (onMessageListeners s)) s.

(** One call [listener(message)]. *)
Definition call_listener (l : listener) (m : json) (s : state) : state :=
  match l with
  | Subscriber n => set_delivered ((n, m) :: delivered s) s
  | ReadyWaiter p =>
      if type_is m Initialize then
        let s1 := set_isReady true s in
        let s2 := set_readyTimers (List.filter (fun q => negb (Nat.eqb q p)) (readyTimers s1)) s1 in
        let s3 := dispose_listener (ReadyWaiter p) s2 in
        resolve p (JBool true) s3
      else s
  end.

(** [for (const listener of this.onMessageListeners) listener(message)]:
    the array iterator reads the live array at index [i] and stops at
    its current length.  No listener adds a listener, so the length of
    the array on entry bounds the number of rounds. *)
Fixpoint notify (fuel : nat) (i : nat) (m : json) (s : state) : state :=
  match fuel with
  | O => s
  | S fuel' =>
      match onMessageListeners s !! i with
      | None => s
      | Some l => notify fuel' (S i) m (call_listener l m s)
      end
  end.

(** *** Correlation *)

Definition call_callback (cb : callback) (m : json) (s : state) : state :=
  match cb with
  | PromptCallback p =>
      if type_is m PromptResponse && truthy (field "content" m)
      then resolve p (default JNull (field "content" m)) s
      else if type_is m Error then resolve p JNull s
      else s
  | ToolCallback p =>
      if type_is m ExecuteToolResponse
      then resolve p (or_null (field "tool_output" m)) s
      else if type_is m Error then resolve p JNull s
      else resolve p JNull s
  | ToolsCallback p =>
      if type_is m Initialize && truthy (field "tools" m)
      then resolve p (default JNull (field "tools" m)) s
      else resolve p JNull s
  end.

Definition correlate (m : json) (s : state) : state :=
  match message_id m with
  | Some i =>
      match messageCallbacks s !! i with
      | Some cb =>
          let s1 := call_callback cb m s in
          set_messageCallbacks (delete i (messageCallbacks s1)) s1
      | None => s
      end
  | None => s
  end.

Definition handleMessage (m : json) (s : state) : state :=
  let s0 := set_handled (m :: handled s) s in
  let s1 := notify (length (onMessageListeners s0)) 0 m s0 in
  let s2 := correlate m s1 in
  if type_is m Initialize then set_isReady true s2 else s2.

(** *** The framer *)

(** The loop that looks for the matching closing brace, from index [i]
    on; [s] is the buffer from that index. *)
Fixpoint scan (s : text) (i : nat) (depth : Z) : option nat :=
  match s with
  | [] => None
  | c :: s' =>
      if Ascii.eqb c lbrace then scan s' (S i) (depth + 1)
      else if Ascii.eqb c rbrace then
        if depth - 1 =? 0 then Some i else scan s' (S i) (depth - 1)
      else scan s' (S i) depth
  end.

(** [processOutput] after [this.messageBuffer += output]; the call
    [processOutput('')] is the recursive call. *)
Fixpoint processOutput_rec (fuel : nat) (s : state) : state :=
  match fuel with
  | O => s
  | S fuel' =>
      let buf := messageBuffer s in
      match indexOf lbrace buf 0 with
      | None => s
      | Some startIndex =>
          match scan (skipn startIndex buf) startIndex 0 with
          | None => s
          | Some endIndex =>
              match parse (substring buf startIndex (endIndex + 1)) with
              | Some message =>
                  let s1 := handleMessage message s in
                  let s2 := set_messageBuffer
                              (substring_from (messageBuffer s1) (endIndex + 1)) s1 in
                  if (0 <? length (messageBuffer s2))%nat
                  then processOutput_rec fuel' s2
                  else s2
              | None =>
                  let s1 := set_parseErrors (S (parseErrors s)) s in
                  match indexOf lbrace buf (startIndex + 1) with
                  | Some nextStart =>
                      set_messageBuffer (substring_from buf nextStart) s1
                  | None => set_messageBuffer [] s1
                  end
              end
          end
      end
  end.

(** Each recursive call works on a strictly shorter buffer. *)
Definition processOutput (output : text) (s : state) : state :=
  let s0 := set_messageBuffer (messageBuffer s ++ output) s in
  processOutput_rec (S (length (messageBuffer s0))) s0.

(** The [data] handler of the child's standard output. *)
Definition on_stdout (output : text) (s : state) : state :=
  if useMCP s then processOutput output s
  else if includes (T "Ready to process requests") output
  then set_isReady true s
  else s.

(** *** Outbound calls *)

(** [sendMessage]: one line of JSON on the child's standard input. *)
Definition sendMessage (m : json) (s : state) : bool * state :=
  if running s
  then (true, set_stdin ((stringify m ++ [newline]) :: stdin s) s)
  else (false, s).

(** [sendPrompt(prompt)]; [messageId] is what [generateId] returned and
    [p] the promise of the call.  In MCP mode the callback is registered
    and a 60 s timer started, whose firing is [request_timeout]. *)
Definition sendPrompt (messageId : string) (p : nat) (prompt : string)
    (s : state) : state :=
  if negb (running s) then resolve p JNull s
  else if useMCP s then
    let message :=
      JObj [("type", JStr Prompt); ("id", JStr messageId);
            ("content", JStr prompt)]%string in
    match sendMessage message s with
    | (false, s1) => resolve p JNull s1
    | (true, s1) =>
        set_messageCallbacks
          (<[messageId := PromptCallback p]> (messageCallbacks s1)) s1
    end
  else resolve p (JStr prompt) (set_stdin ((T prompt ++ [newline]) :: stdin s) s).

(** The part of [start] after the spawn: register the ready listener
    and arm the 30 s timer of promise [p]. *)
Definition start_wait (p : nat) (s : state) : state :=
  onMessage (ReadyWaiter p) (set_readyTimers (p :: readyTimers s) s).

(** [start]; [q] is the promise of the call.  With a child there is
    nothing to do.  Without one, the paths are checked and the child is
    spawned; [spawned] says whether that went through (when it did not,
    the [catch] returns [false]).  Then the handlers are installed and
    the call waits for the ready signal. *)
Definition start (q : nat) (spawned : bool) (s : state) : state :=
  if running s then resolve q (JBool true) s
  else if spawned then start_wait q (set_running true s)
  else resolve q (JBool false) s.

(** What [await] gives for the promise of a [start]: the value of its
    first settlement, once there is one. *)
Definition awaited (q : nat) (s : state) : option bool :=
  match rev (settlements q s) with
  | [] => None
  | Resolved (JBool true) :: _ => Some true
  | _ :: _ => Some false
  end.

(** [executeTool] from [const messageId] on; [started] is false when the
    [start] it awaited resolved with [false], and the call returns
    [null] then. *)
Definition executeTool_after_start (started : bool) (messageId : string)
    (p : nat) (toolName : string) (toolInput : json) (s : state) : state :=
  if started then
    let message :=
      JObj [("type", JStr ExecuteTool); ("id", JStr messageId);
            ("tool_name", JStr toolName); ("tool_input", toolInput)]%string in
    let s1 := set_messageCallbacks
                (<[messageId := ToolCallback p]> (messageCallbacks s)) s in
    snd (sendMessage message s1)
  else resolve p JNull s.

(** [executeTool]; [p] is the promise of the call.  With a child that
    is ready it goes on at once.  Otherwise it calls [start] ([q] is the
    promise of that call, [spawned] as for [start]) and awaits it: the
    rest of the call is a continuation, which runs when that promise is
    settled ([ExecuteToolAfterStart] below). *)
Definition executeTool (messageId : string) (p q : nat) (spawned : bool)
    (toolName : string) (toolInput : json) (s : state) : state :=
  if negb (useMCP s)
  then reject p "Tool execution is only supported in MCP mode" s
  else if running s && isReady s
  then executeTool_after_start true messageId p toolName toolInput s
  else start q spawned s.

Definition getAvailableTools_after_start (started : bool) (messageId : string)
    (p : nat) (s : state) : state :=
  if started then
    let message :=
      JObj [("type", JStr Initialize); ("id", JStr messageId)]%string in
    let s1 := set_messageCallbacks
                (<[messageId := ToolsCallback p]> (messageCallbacks s)) s in
    snd (sendMessage message s1)
  else resolve p JNull s.

Definition getAvailableTools (messageId : string) (p q : nat) (spawned : bool)
    (s : state) : state :=
  if negb (useMCP s)
  then reject p "Tool listing is only supported in MCP mode" s
  else if running s && isReady s
  then getAvailableTools_after_start true messageId p s
  else start q spawned s.

(** The [setTimeout] callback of the three calls above. *)
Definition request_timeout (messageId : string) (p : nat) (s : state) : state :=
  match messageCallbacks s !! messageId with
  | Some _ =>
      resolve p JNull
        (set_messageCallbacks (delete messageId (messageCallbacks s)) s)
  | None => s
  end.

(** That timer firing. *)
Definition ready_timeout (p : nat) (s : state) : state :=
  if existsb (Nat.eqb p) (readyTimers s)
  then resolve p (JBool false)
         (set_readyTimers (List.filter (fun q => negb (Nat.eqb q p)) (readyTimers s)) s)
  else s.

(** The [close] and [error] handlers of the child, and [stop]. *)
Definition on_exit (s : state) : state := set_isReady false (set_running false s).
Definition stop (s : state) : state :=
  if running s then set_isReady false (set_running false s) else s.
Definition dispose (s : state) : state := stop s.

(** The bridge apart from the two fields that [stop] writes. *)
Definition without_child (s : state) : state :=
  set_isReady false (set_running false s).

(** Everything that can happen to the bridge.  The continuation of a
    call that awaits [start] is an event of its own: it can run once
    the promise [q] of that [start] is settled. *)
Inductive event : Type :=
| Stdout (output : text)
| RequestTimeout (messageId : string) (p : nat)
| ReadyTimeout (p : nat)
| ProcessExit
| CallSendPrompt (messageId : string) (p : nat) (prompt : string)
| CallExecuteTool (messageId : string) (p q : nat) (spawned : bool)
    (toolName : string) (toolInput : json)
| ExecuteToolAfterStart (q : nat) (messageId : string) (p : nat)
    (toolName : string) (toolInput : json)
| CallGetAvailableTools (messageId : string) (p q : nat) (spawned : bool)
| GetAvailableToolsAfterStart (q : nat) (messageId : string) (p : nat)
| CallStart (q : nat) (spawned : bool)
| CallOnMessage (n : nat)
| CallDisposeListener (n : nat)
| CallStartWait (p : nat)
| CallStop.

Definition step (e : event) (s : state) : option state :=
  match e with
  | Stdout output => Some (on_stdout output s)
  | RequestTimeout i p => Some (request_timeout i p s)
  | ReadyTimeout p => Some (ready_timeout p s)
  | ProcessExit => Some (on_exit s)
  | CallSendPrompt i p prompt => Some (sendPrompt i p prompt s)
  | CallExecuteTool i p q spawned n inp =>
      Some (executeTool i p q spawned n inp s)
  | ExecuteToolAfterStart q i p n inp =>
      match awaited q s with
      | Some started => Some (executeTool_after_start started i p n inp s)
      | None => None
      end
  | CallGetAvailableTools i p q spawned =>
      Some (getAvailableTools i p q spawned s)
  | GetAvailableToolsAfterStart q i p =>
      match awaited q s with
      | Some started => Some (getAvailableTools_after_start started i p s)
      | None => None
      end
  | CallStart q spawned => Some (start q spawned s)
  | CallOnMessage n => Some (onMessage (Subscriber n) s)
  | CallDisposeListener n => Some (dispose_listener (Subscriber n) s)
  | CallStartWait p => Some (start_wait p s)
  | CallStop => Some (stop s)
  end.

Fixpoint run (es : list event) (s : state) : option state :=
  match es with
  | [] => Some s
  | e :: es' =>
      match step e s with
      | Some s' => run es' s'
      | None => None
      end
  end.

(** The subscribers among the listeners, in order. *)
Definition subscribers_of (ls : list listener) : list nat :=
  flat_map (fun l => match l with
                     | Subscriber n => [n]
                     | ReadyWaiter _ => []
                     end) ls.

(** A reply that the callback of [sendPrompt] has no branch for. *)
Definition unexpected_for_prompt (m : json) : bool :=
  negb (type_is m PromptResponse && truthy (field "content" m))
  && negb (type_is m Error).




(** Feeding a list of chunks to the framer, one [data] event each. *)
Definition feed (chunks : list text) (s : state) : state :=
  fold_left (fun st c => processOutput c st) chunks s.

(** A reply for which the callback has a branch that settles. *)
Definition answers (cb : callback) (m : json) : bool :=
  match cb with
  | PromptCallback _ => negb (unexpected_for_prompt m)
  | ToolCallback _ | ToolsCallback _ => true
  end.

End Proc.

(** * The framer by itself *)

(** [processOutput] once more, with nothing fixed about [JSON.parse]
    and [handleMessage]: what messages are, which texts [JSON.parse]
    accepts and what it returns for them, and what [handleMessage] does
    to the rest of the object are parameters.  What is proved of this
    framer holds of the code whatever these are. *)
Module Framer.

Section Generic.

Context {Message Object : Type}.

(** [JSON.parse(jsonStr)]: [None] when it throws. *)
Variable JSON_parse : text -> option Message.

(** [this.handleMessage(message)], on the fields of the object other
    than the buffer, which it does not touch. *)
Variable handleMessage : Message -> Object -> Object.

Record state : Type := State {
  messageBuffer : text;
  parseErrors : nat;      (* errors written to the output channel by the catch *)
  object : Object         (* the other fields *)
}.

Fixpoint processOutput_rec (fuel : nat) (s : state) : state :=
  match fuel with
  | O => s
  | S fuel' =>
      let buf := messageBuffer s in
      match indexOf lbrace buf 0 with
      | None => s
      | Some startIndex =>
          match Proc.scan (skipn startIndex buf) startIndex 0 with
          | None => s
          | Some endIndex =>
              match JSON_parse (substring buf startIndex (endIndex + 1)) with
              | Some message =>
                  let s2 := State (substring_from buf (endIndex + 1))
                              (parseErrors s) (handleMessage message (object s)) in
                  if (0 <? length (messageBuffer s2))%nat
                  then processOutput_rec fuel' s2
                  else s2
              | None =>
                  match indexOf lbrace buf (startIndex + 1) with
                  | Some nextStart =>
                      State (substring_from buf nextStart) (S (parseErrors s))
                        (object s)
                  | None => State [] (S (parseErrors s)) (object s)
                  end
              end
          end
      end
  end.

Definition processOutput (output : text) (s : state) : state :=
  let s0 := State (messageBuffer s ++ output) (parseErrors s) (object s) in
  processOutput_rec (S (length (messageBuffer s0))) s0.

(** One call of [processOutput] for each of the strings, in order. *)
Definition feed (chunks : list text) (s : state) : state :=
  fold_left (fun st c => processOutput c st) chunks s.

End Generic.

Arguments state : clear implicits.

(** The framer of [OpenManusProcess] is this one, with [Json.parse] and
    [Proc.handleMessage]: the buffer and the error count are taken out
    of the object and put back. *)
Definition of_process (s : Proc.state) : state Proc.state :=
  State (Proc.messageBuffer s) (Proc.parseErrors s) s.

Definition to_process (x : state Proc.state) : Proc.state :=
  Proc.set_messageBuffer (messageBuffer x)
    (Proc.set_parseErrors (parseErrors x) (object x)).

End Framer.

(** * The WebSocket bridge: [MCPBridge] *)

Module Bridge.

(** [MCPMessageType] *)
Definition CONNECT : string := "connect".
Definition LIST_TOOLS : string := "list_tools".
Definition EXECUTE_TOOL : string := "execute_tool".
Definition TOOL_RESULT : string := "tool_result".
Definition ERROR : string := "error".
Definition PING : string := "ping".
Definition PONG : string := "pong".

Record MCPToolParameter : Type := {
  p_type : string;
  p_description : string;
  p_required : bool
}.

Record MCPTool : Type := {
  name : string;
  description : string;
  parameters : list MCPToolParameter
}.

(** [MCPMessage] and its extensions in one record; [m_tools] is a
    reference to the array of the message. *)
Record MCPMessage : Type := {
  m_type : string;
  m_id : option string;
  m_timestamp : option Z;
  m_tools : option nat;
  m_tool : option string;
  m_parameters : option json;
  m_result : option json;
  m_error : option string
}.

(** What a promise of the bridge is settled with. *)
Inductive value : Type :=
| VUndefined
| VJson (j : json)
| VArray (l : nat).

(** The entries of [messageHandlers]: the closure of [listTools] and
    the closure of [executeTool], each with the promise it settles. *)
Inductive handler : Type :=
| ListToolsHandler (p : nat)
| ExecuteToolHandler (p : nat).

Definition handler_promise (h : handler) : nat :=
  match h with
  | ListToolsHandler p | ExecuteToolHandler p => p
  end.

(** The reconnect timer: its delay, and whether it can still fire. *)
Inductive timer : Type := Timer (delay : Z) (live : bool).

Inductive readyState : Type := CONNECTING | OPEN | CLOSING | CLOSED.

Global Instance readyState_eq_dec : EqDecision readyState.
Proof. solve_decision. Defined.

(** The private fields of the class, then the world around it.  Of
    [url], the bridge depends on one thing only: whether the WebSocket
    constructor accepts it or throws a [SyntaxError] (a malformed url,
    a scheme that is not a WebSocket one).  The world around it: the
    array store ([tools] is a reference into it and [this.tools =
    message.tools] shares the array of the message), the sockets created
    so far with their [readyState], the subscribers of the event
    emitter, and the logs of [ws.send], of listener calls and of
    [resolve]/[reject] calls (latest first). *)
Record state : Type := State {
  urlAccepted : bool;                     (* new WebSocket(this.url) does not throw *)
  ws : option nat;                        (* this.ws: a socket, by number *)
  connected : bool;
  messageQueue : list MCPMessage;
  messageHandlers : gmap string handler;
  tools : nat;                            (* this.tools: a reference into heap *)
  reconnectAttempts : nat;
  reconnectTimer : option timer;
  pingInterval : bool;                    (* this.pingInterval !== null *)
  heap : list (list MCPTool);             (* the arrays of tools, by reference *)
  sockets : list readyState;              (* every WebSocket created so far *)
  subscribers : list nat;                 (* the listeners of this.eventEmitter *)
  sent : list (nat * MCPMessage);         (* ws.send calls, latest first *)
  delivered : list (nat * MCPMessage);    (* listener calls, latest first *)
  settled : list (nat * outcome value)    (* resolve/reject calls, latest first *)
}.

Definition set_urlAccepted (v : bool) (s : state) : state :=
  State v (ws s) (connected s) (messageQueue s) (messageHandlers s) (tools s)
    (reconnectAttempts s) (reconnectTimer s) (pingInterval s) (heap s)
    (sockets s) (subscribers s) (sent s) (delivered s) (settled s).
Definition set_ws (v : option nat) (s : state) : state :=
  State (urlAccepted s) v (connected s) (messageQueue s) (messageHandlers s) (tools s)
    (reconnectAttempts s) (reconnectTimer s) (pingInterval s) (heap s)
    (sockets s) (subscribers s) (sent s) (delivered s) (settled s).
Definition set_connected (v : bool) (s : state) : state :=
  State (urlAccepted s) (ws s) v (messageQueue s) (messageHandlers s) (tools s)
    (reconnectAttempts s) (reconnectTimer s) (pingInterval s) (heap s)
    (sockets s) (subscribers s) (sent s) (delivered s) (settled s).
Definition set_messageQueue (v : list MCPMessage) (s : state) : state :=
  State (urlAccepted s) (ws s) (connected s) v (messageHandlers s) (tools s)
    (reconnectAttempts s) (reconnectTimer s) (pingInterval s) (heap s)
    (sockets s) (subscribers s) (sent s) (delivered s) (settled s).
Definition set_messageHandlers (v : gmap string handler) (s : state) : state :=
  State (urlAccepted s) (ws s) (connected s) (messageQueue s) v (tools s)
    (reconnectAttempts s) (reconnectTimer s) (pingInterval s) (heap s)
    (sockets s) (subscribers s) (sent s) (delivered s) (settled s).
Definition set_tools (v : nat) (s : state) : state :=
  State (urlAccepted s) (ws s) (connected s) (messageQueue s) (messageHandlers s) v
    (reconnectAttempts s) (reconnectTimer s) (pingInterval s) (heap s)
    (sockets s) (subscribers s) (sent s) (delivered s) (settled s).
Definition set_reconnectAttempts (v : nat) (s : state) : state :=
  State (urlAccepted s) (ws s) (connected s) (messageQueue s) (messageHandlers s) (tools s)
    v (reconnectTimer s) (pingInterval s) (heap s) (sockets s)
    (subscribers s) (sent s) (delivered s) (settled s).
Definition set_reconnectTimer (v : option timer) (s : state) : state :=
  State (urlAccepted s) (ws s) (connected s) (messageQueue s) (messageHandlers s) (tools s)
    (reconnectAttempts s) v (pingInterval s) (heap s) (sockets s)
    (subscribers s) (sent s) (delivered s) (settled s).
Definition set_pingInterval (v : bool) (s : state) : state :=
  State (urlAccepted s) (ws s) (connected s) (messageQueue s) (messageHandlers s) (tools s)
    (reconnectAttempts s) (reconnectTimer s) v (heap s) (sockets s)
    (subscribers s) (sent s) (delivered s) (settled s).
Definition set_heap (v : list (list MCPTool)) (s : state) : state :=
  State (urlAccepted s) (ws s) (connected s) (messageQueue s) (messageHandlers s) (tools s)
    (reconnectAttempts s) (reconnectTimer s) (pingInterval s) v (sockets s)
    (subscribers s) (sent s) (delivered s) (settled s).
Definition set_sockets (v : list readyState) (s : state) : state :=
  State (urlAccepted s) (ws s) (connected s) (messageQueue s) (messageHandlers s) (tools s)
    (reconnectAttempts s) (reconnectTimer s) (pingInterval s) (heap s) v
    (subscribers s) (sent s) (delivered s) (settled s).
Definition set_subscribers (v : list nat) (s : state) : state :=
  State (urlAccepted s) (ws s) (connected s) (messageQueue s) (messageHandlers s) (tools s)
    (reconnectAttempts s) (reconnectTimer s) (pingInterval s) (heap s)
    (sockets s) v (sent s) (delivered s) (settled s).
Definition set_sent (v : list (nat * MCPMessage)) (s : state) : state :=
  State (urlAccepted s) (ws s) (connected s) (messageQueue s) (messageHandlers s) (tools s)
    (reconnectAttempts s) (reconnectTimer s) (pingInterval s) (heap s)
    (sockets s) (subscribers s) v (delivered s) (settled s).
Definition set_delivered (v : list (nat * MCPMessage)) (s : state) : state :=
  State (urlAccepted s) (ws s) (connected s) (messageQueue s) (messageHandlers s) (tools s)
    (reconnectAttempts s) (reconnectTimer s) (pingInterval s) (heap s)
    (sockets s) (subscribers s) (sent s) v (settled s).
Definition set_settled (v : list (nat * outcome value)) (s : state) : state :=
  State (urlAccepted s) (ws s) (connected s) (messageQueue s) (messageHandlers s) (tools s)
    (reconnectAttempts s) (reconnectTimer s) (pingInterval s) (heap s)
    (sockets s) (subscribers s) (sent s) (delivered s) v.

(** [new MCPBridge()]: the default url is one the constructor accepts. *)
Definition init : state :=
  State true None false [] ∅ 0%nat 0%nat None false [[]] [] [] [] [] [].

(** [new MCPBridge(url)] *)
Definition init_with (accepted : bool) : state := set_urlAccepted accepted init.

Definition resolve (p : nat) (v : value) (s : state) : state :=
  set_settled ((p, Resolved v) :: settled s) s.
Definition reject (p : nat) (reason : string) (s : state) : state :=
  set_settled ((p, Rejected reason) :: settled s) s.

Definition settlements (p : nat) (s : state) : list (outcome value) :=
  map snd (List.filter (fun e => Nat.eqb (fst e) p) (settled s)).

(** A new array. *)
Definition alloc (a : list MCPTool) (s : state) : nat * state :=
  (length (heap s), set_heap (heap s ++ [a]) s).

(** The elements of the array behind a reference.  Tools are values
    here: a copy of an array shares nothing with the original that a
    change of the array itself could reach. *)
Definition elements (l : nat) (s : state) : list MCPTool :=
  default [] (heap s !! l).

(** Any in-place change of the array behind [l]: push, pop, splice,
    assignment to an index, ... *)
Definition mutate_array (l : nat) (f : list MCPTool -> list MCPTool)
    (s : state) : state :=
  set_heap (alter f l (heap s)) s.

(** A series of such changes. *)
Definition mutate_all (l : nat) (fs : list (list MCPTool -> list MCPTool))
    (s : state) : state :=
  fold_left (fun st f => mutate_array l f st) fs s.

(** [generateMessageId]; [now] is [Date.now()] and [rnd] the random
    suffix. *)
Definition generateMessageId (now : Z) (rnd : string) : string :=
  ("mcp-" ++ NilZero.string_of_int (Z.to_int now) ++ "-" ++ rnd)%string.

(** [x || fallback] on an optional string. *)
Definition or_string (x : option string) (fallback : string) : string :=
  match x with
  | Some e => if String.eqb e "" then fallback else e
  | None => fallback
  end.

(** The id under which [message.id && this.messageHandlers.has(message.id)]
    can succeed. *)
Definition truthy_id (i : option string) : option string :=
  match i with
  | Some e => if String.eqb e "" then None else Some e
  | None => None
  end.

(** *** Connection *)

Definition stopPingInterval (s : state) : state := set_pingInterval false s.
Definition startPingInterval (s : state) : state :=
  set_pingInterval true (stopPingInterval s).

(** [connect]: a new socket unless connected.  When the constructor
    throws, the [catch] logs the error and resolves the promise of
    [connect] with [false]: no socket is created and [this.ws] is not
    assigned. *)
Definition connect (s : state) : state :=
  if connected s then s
  else if urlAccepted s
  then set_ws (Some (length (sockets s))) (set_sockets (sockets s ++ [CONNECTING]) s)
  else s.

(** [ws.send] throws on a socket that is not open; [sendMessage]
    catches and logs that. *)
Definition ws_send (k : nat) (m : MCPMessage) (s : state) : state :=
  match sockets s !! k with
  | Some OPEN => set_sent ((k, m) :: sent s) s
  | _ => s
  end.

Definition sendMessage (m : MCPMessage) (s : state) : state :=
  match connected s, ws s with
  | true, Some k => ws_send k m s
  | _, _ =>
      let s1 := set_messageQueue (messageQueue s ++ [m]) s in
      if negb (connected s1) then connect s1 else s1
  end.

Definition processMessageQueue (s : state) : state :=
  if negb (connected s) || (length (messageQueue s) =? 0)%nat then s
  else fold_left (fun st m => sendMessage m st) (messageQueue s)
         (set_messageQueue [] s).

(** [scheduleReconnect].  The previous timer, if any, is cleared and
    replaced.  The counter is a JavaScript number: it counts as a
    natural number does (below 2^53), and where [2 ** n] leaves the
    range of numbers it is [Infinity], whose minimum with 30000 is
    30000, as it is here. *)
Definition scheduleReconnect (s : state) : state :=
  let delay := Z.min (2 ^ Z.of_nat (reconnectAttempts s) * 1000) 30000 in
  let s1 := set_reconnectAttempts (S (reconnectAttempts s)) s in
  set_reconnectTimer (Some (Timer delay true)) s1.

(** [ws.terminate()]: the socket closes, and its [close] event follows. *)
Definition terminate (k : nat) (s : state) : state :=
  match sockets s !! k with
  | Some CLOSED | None => s
  | Some _ => set_sockets (<[k := CLOSING]> (sockets s)) s
  end.

Definition disconnect (s : state) : state :=
  let s1 := stopPingInterval s in
  let s2 := set_reconnectTimer None s1 in
  let s3 := match ws s2 with
            | Some k => set_ws None (terminate k s2)
            | None => s2
            end in
  set_connected false s3.

Definition dispose (s : state) : state :=
  set_subscribers [] (disconnect s).

(** *** Inbound messages *)

(** [this.eventEmitter.fire(message)]: every subscriber is called, in
    order of subscription. *)
Definition fire (m : MCPMessage) (s : state) : state :=
  set_delivered (rev (map (fun n => (n, m)) (subscribers s)) ++ delivered s) s.

Definition call_handler (h : handler) (response : MCPMessage) (s : state) : state :=
  match h with
  | ListToolsHandler p =>
      let '(l, s1) := match m_tools response with
                      | Some l => (l, s)
                      | None => alloc [] s
                      end in
      resolve p (VArray l) (set_tools l s1)
  | ExecuteToolHandler p =>
      if String.eqb (m_type response) ERROR
      then reject p (or_string (m_error response) "Unknown error") s
      else if String.eqb (m_type response) TOOL_RESULT
      then resolve p (match m_result response with
                      | Some j => VJson j
                      | None => VUndefined
                      end) s
      else reject p ("Unexpected response type: " ++ m_type response)%string s
  end.

Definition handleMessage (m : MCPMessage) (s : state) : state :=
  let s1 := match String.eqb (m_type m) LIST_TOOLS, m_tools m with
            | true, Some l => set_tools l s
            | _, _ => s
            end in
  let s2 := fire m s1 in
  match truthy_id (m_id m) with
  | Some i =>
      match messageHandlers s2 !! i with
      | Some h =>
          let s3 := call_handler h m s2 in
          set_messageHandlers (delete i (messageHandlers s3)) s3
      | None => s2
      end
  | None => s2
  end.

(** *** The handlers [connect] installs on a socket *)

Definition mk_message (t : string) (i : option string) (ts : option Z) : MCPMessage :=
  {| m_type := t; m_id := i; m_timestamp := ts; m_tools := None;
     m_tool := None; m_parameters := None; m_result := None; m_error := None |}.

Definition on_open (now : Z) (rnd : string) (s : state) : state :=
  let s1 := set_reconnectAttempts 0%nat (set_connected true s) in
  let s2 := processMessageQueue (startPingInterval s1) in
  sendMessage (mk_message CONNECT (Some (generateMessageId now rnd)) (Some now)) s2.

Definition on_close (s : state) : state :=
  scheduleReconnect (stopPingInterval (set_connected false s)).

(** The callback of the reconnect timer. *)
Definition on_reconnect_timer (s : state) : state := connect s.

(** The callback of the ping interval. *)
Definition on_ping (now : Z) (s : state) : state :=
  if connected s then sendMessage (mk_message PING None (Some now)) s else s.

(** *** Correlated calls *)

(** [listTools] and [executeTool] after their [await this.connect()]:
    register the handler, send, and start the timer whose firing is
    [listTools_timeout] or [executeTool_timeout]. *)
Definition listTools (now : Z) (rnd : string) (p : nat) (s : state) : state :=
  let message := mk_message LIST_TOOLS (Some (generateMessageId now rnd)) (Some now) in
  let s1 := set_messageHandlers
              (<[generateMessageId now rnd := ListToolsHandler p]> (messageHandlers s)) s in
  sendMessage message s1.

Definition executeTool (now : Z) (rnd : string) (p : nat) (toolName : string)
    (params : json) (s : state) : state :=
  let message :=
    {| m_type := EXECUTE_TOOL; m_id := Some (generateMessageId now rnd);
       m_timestamp := Some now; m_tools := None; m_tool := Some toolName;
       m_parameters := Some params; m_result := None; m_error := None |} in
  let s1 := set_messageHandlers
              (<[generateMessageId now rnd := ExecuteToolHandler p]> (messageHandlers s)) s in
  sendMessage message s1.

Definition listTools_timeout (i : string) (p : nat) (s : state) : state :=
  match truthy_id (Some i) with
  | Some _ =>
      match messageHandlers s !! i with
      | Some _ =>
          let s1 := set_messageHandlers (delete i (messageHandlers s)) s in
          let '(l, s2) := alloc [] s1 in
          resolve p (VArray l) s2
      | None => s
      end
  | None => s
  end.

Definition executeTool_timeout (i : string) (p : nat) (s : state) : state :=
  match truthy_id (Some i) with
  | Some _ =>
      match messageHandlers s !! i with
      | Some _ =>
          reject p "Tool execution timed out"
            (set_messageHandlers (delete i (messageHandlers s)) s)
      | None => s
      end
  | None => s
  end.

(** [getTools]: [[...this.tools]], a new array with the same elements. *)
Definition getTools (s : state) : nat * state :=
  alloc (elements (tools s) s) s.

Definition isConnected (s : state) : bool := connected s.

(** *** Events *)

(** What the sockets and the timers do to the bridge, and the calls of
    its users.  [SockMessage] is a frame that [JSON.parse] accepted (one
    it rejects is logged and dropped). *)
Inductive event : Type :=
| SockOpen (k : nat) (now : Z) (rnd : string)
| SockMessage (k : nat) (m : MCPMessage)
| SockError (k : nat)
| SockClose (k : nat)
| ReconnectTimer
| PingTimer (now : Z)
| ListToolsTimeout (i : string) (p : nat)
| ExecuteToolTimeout (i : string) (p : nat)
| CallConnect
| CallDisconnect
| CallDispose
| CallSendMessage (m : MCPMessage)
| CallListTools (now : Z) (rnd : string) (p : nat)
| CallExecuteTool (now : Z) (rnd : string) (p : nat) (toolName : string) (params : json)
| CallSubscribe (n : nat).

Definition step (e : event) (s : state) : option state :=
  match e with
  | SockOpen k now rnd =>
      match sockets s !! k with
      | Some CONNECTING =>
          Some (on_open now rnd (set_sockets (<[k := OPEN]> (sockets s)) s))
      | _ => None
      end
  | SockMessage k m =>
      match sockets s !! k with
      | Some OPEN => Some (handleMessage m s)
      | _ => None
      end
  | SockError k =>
      match sockets s !! k with
      | Some CLOSED | None => None
      | Some _ => Some s
      end
  | SockClose k =>
      match sockets s !! k with
      | Some CLOSED | None => None
      | Some _ => Some (on_close (set_sockets (<[k := CLOSED]> (sockets s)) s))
      end
  | ReconnectTimer =>
      match reconnectTimer s with
      | Some (Timer d true) =>
          Some (on_reconnect_timer (set_reconnectTimer (Some (Timer d false)) s))
      | _ => None
      end
  | PingTimer now => if pingInterval s then Some (on_ping now s) else None
  | ListToolsTimeout i p => Some (listTools_timeout i p s)
  | ExecuteToolTimeout i p => Some (executeTool_timeout i p s)
  | CallConnect => Some (connect s)
  | CallDisconnect => Some (disconnect s)
  | CallDispose => Some (dispose s)
  | CallSendMessage m => Some (sendMessage m s)
  | CallListTools now rnd p => Some (listTools now rnd p s)
  | CallExecuteTool now rnd p n params => Some (executeTool now rnd p n params s)
  | CallSubscribe n => Some (set_subscribers (subscribers s ++ [n]) s)
  end.

Fixpoint run (es : list event) (s : state) : option state :=
  match es with
  | [] => Some s
  | e :: es' =>
      match step e s with
      | Some s' => run es' s'
      | None => None
      end
  end.

(** An event that leaves the request with id [i] alone: no inbound
    message carries [i], no timer of [i] fires, and no call registers
    [i] again. *)
Definition untouched (i : string) (e : event) : Prop :=
  match e with
  | SockMessage _ m => truthy_id (m_id m) <> Some i
  | ListToolsTimeout j _ | ExecuteToolTimeout j _ => j <> i
  | CallListTools now rnd _ | CallExecuteTool now rnd _ _ _ =>
      generateMessageId now rnd <> i
  | _ => True
  end.

(** The two correlated requests of the bridge. *)
Inductive request : Type :=
| ListToolsRequest
| ExecuteToolRequest (toolName : string) (params : json).

Definition issue (r : request) (now : Z) (rnd : string) (p : nat) (s : state)
    : state :=
  match r with
  | ListToolsRequest => listTools now rnd p s
  | ExecuteToolRequest toolName params => executeTool now rnd p toolName params s
  end.

Definition handler_of (r : request) (p : nat) : handler :=
  match r with
  | ListToolsRequest => ListToolsHandler p
  | ExecuteToolRequest _ _ => ExecuteToolHandler p
  end.

(** The timer that the call which registered [h] under [i] started. *)
Definition timeout_of (h : handler) (i : string) (s : state) : state :=
  match h with
  | ListToolsHandler p => listTools_timeout i p s
  | ExecuteToolHandler p => executeTool_timeout i p s
  end.

(** What that timer settles the promise with, when it fires in [s]:
    [listTools] resolves with a new empty array, [executeTool] rejects. *)
Definition timeout_outcome (h : handler) (s : state) : outcome value :=
  match h with
  | ListToolsHandler _ => Resolved (VArray (length (heap s)))
  | ExecuteToolHandler _ => Rejected "Tool execution timed out"
  end.

(** The delays of [n] reconnects scheduled in a row. *)
Fixpoint reconnect_delays (n : nat) (s : state) : list Z :=
  match n with
  | O => []
  | S n' =>
      let s1 := scheduleReconnect s in
      match reconnectTimer s1 with
      | Some (Timer d _) => d :: reconnect_delays n' s1
      | None => reconnect_delays n' s1
      end
  end.

End Bridge.

(** * Scenarios *)

Module BridgeScenario.

Import Bridge.

(** A bridge whose socket 0 is open. *)
Definition connected_bridge : state :=
  default init (run [CallConnect; SockOpen 0 5 "r0"] init).

(** The same with one tool execution pending. *)
Definition pending_id : string := generateMessageId 1000 "abc".
Definition pending_bridge : state :=
  executeTool 1000 "abc" 0 "list_files" (JObj []) connected_bridge.

(** Traffic that does not concern that request: a tool listing and its
    reply. *)
Definition a_tool : MCPTool :=
  {| name := "list_files"; description := "lists files"; parameters := [] |}.
Definition listing_reply : MCPMessage :=
  {| m_type := LIST_TOOLS; m_id := Some (generateMessageId 2000 "xyz");
     m_timestamp := None; m_tools := Some 0%nat; m_tool := None;
     m_parameters := None; m_result := None; m_error := None |}.
Definition other_traffic : list event :=
  [CallListTools 2000 "xyz" 1; SockMessage 0 listing_reply; PingTimer 3000].

(** A bridge with one tool listing pending. *)
Definition listing_id : string := generateMessageId 2000 "xyz".
Definition listing_bridge : state := listTools 2000 "xyz" 1 connected_bridge.

(** A reply to the pending tool execution. *)
Definition late_reply : MCPMessage :=
  {| m_type := TOOL_RESULT; m_id := Some pending_id; m_timestamp := None;
     m_tools := None; m_tool := Some "list_files"%string;
     m_parameters := None; m_result := Some (JArr [JStr "a.ts"; JStr "b.ts"]);
     m_error := None |}.

(** An unsolicited tool catalog. *)
Definition unsolicited_catalog : MCPMessage :=
  {| m_type := LIST_TOOLS; m_id := None; m_timestamp := None;
     m_tools := Some 1%nat; m_tool := None; m_parameters := None;
     m_result := None; m_error := None |}.
Definition bridge_with_arrays : state :=
  set_heap [[]; [a_tool]] connected_bridge.

(** Two messages sent on a new bridge: both are queued and each has
    opened a socket. *)
Definition two_queued : state :=
  sendMessage listing_reply (sendMessage late_reply init).

End BridgeScenario.

Module ProcScenario.

Import Json Proc.

(** A spawned child in MCP mode. *)
Definition running_mcp : state := set_running true (init true).

(** A prompt sent under id [a1], with promise 0. *)
Definition prompt_pending : state := sendPrompt "a1" 0 "hello" running_mcp.

(** Replies to it: a [prompt_response] without content, one with empty
    content, and a reply of another kind. *)
Definition reply_without_content : json :=
  JObj [("type", JStr PromptResponse); ("id", JStr "a1")]%string.
Definition reply_with_empty_content : json :=
  JObj [("type", JStr PromptResponse); ("id", JStr "a1");
        ("content", JStr "")]%string.
Definition reply_of_other_kind : json :=
  JObj [("type", JStr ExecuteToolResponse); ("id", JStr "a1");
        ("tool_output", JStr "done")]%string.

(** The same request made through [executeTool]. *)
Definition tool_pending : state :=
  executeTool "a1" 0 1 true "list_files" (JObj []) (set_isReady true running_mcp).

(** [start] is waiting for the ready signal (promise 0) and the webview
    panel has subscribed (listener 1). *)
Definition waiting_with_panel : state :=
  onMessage (Subscriber 1) (start_wait 0 running_mcp).
Definition ready_signal : json := JObj [("type", JStr Initialize)]%string.

(** A first [start] timed out (its listener stays registered), the
    child exited, and a second [start] (promise 1) is waiting. *)
Definition two_waiters : state :=
  start_wait 1 (on_exit (ready_timeout 0 (start_wait 0 running_mcp))).

(** Messages whose content holds a brace. *)
Definition response_with_closing_brace : json :=
  JObj [("type", JStr PromptResponse); ("id", JStr "a1");
        ("content", JStr "}")]%string.
Definition response_with_opening_brace : json :=
  JObj [("type", JStr PromptResponse); ("id", JStr "a1");
        ("content", JStr "{")]%string.
Definition plain_response : json :=
  JObj [("type", JStr PromptResponse); ("id", JStr "a1");
        ("content", JStr "fine")]%string.

(** A stream of two messages, one per line, and the same stream cut
    into two chunks right after the brace of the first content. *)
Definition two_messages : text :=
  stringify response_with_closing_brace ++ [newline] ++
  stringify ready_signal ++ [newline].
Definition two_messages_cut : list text :=
  [firstn 48 two_messages; skipn 48 two_messages].

(** A log line with braces in it, then a message; and the same text
    in two chunks, one per line. *)
Definition log_then_message : text :=
  T "INFO {starting}" ++ [newline] ++ stringify ready_signal ++ [newline].
Definition log_then_message_cut : list text :=
  [T "INFO {starting}" ++ [newline]; stringify ready_signal ++ [newline]].

(** A stream of a log line and two messages, in three chunks that cut
    both messages. *)
Definition clean_stream : list text :=
  [T "starting" ++ [newline] ++ firstn 10 (stringify plain_response);
   skipn 10 (stringify plain_response) ++ [newline] ++ firstn 5 (stringify ready_signal);
   skipn 5 (stringify ready_signal) ++ [newline]].


(** A log line with an opening brace has arrived while the prompt is
    pending; the replies that follow it. *)
Definition stuck_on_log : state := processOutput (T "loading {") prompt_pending.

Definition replies : list text :=
  [stringify plain_response ++ [newline]; stringify ready_signal ++ [newline]].

(** A tool reply whose output is an object. *)
Definition nested_response : json :=
  JObj [("type", JStr ExecuteToolResponse); ("id", JStr "a1");
        ("tool_output", JObj [("files", JArr [JStr "a.ts"; JStr "b.ts"])])]%string.

End ProcScenario.

(** * Facts about the JSON layer *)

Section JsonFacts.

Import Json.

(** Closes a goal about a parser that has answered [SyntaxError]. *)
Ltac no_result :=
  split; [intros Hx; discriminate Hx | intros ? ? Hx; discriminate Hx].

Lemma skip_ws_length (s : text) : (length (skip_ws s) <= length s)%nat.
Proof.
  induction s as [|c s IH]; cbn; [lia|].
  destruct (is_ws c); cbn; lia.
Qed.

Lemma skip_ws_cons (s : text) (c : ascii) (r : text) :
  skip_ws s = c :: r -> (length r < length s)%nat.
Proof.
  intros H. pose proof (skip_ws_length s) as Hl. rewrite H in Hl. cbn in Hl. lia.
Qed.

Lemma strip_prefix_length (p s r : text) :
  strip_prefix p s = Some r -> (length r + length p = length s)%nat.
Proof.
  revert s. induction p as [|a p IH]; intros s; cbn.
  - intros [= ->]. lia.
  - destruct s as [|b s]; [discriminate|].
    destruct (Ascii.eqb a b); [|discriminate].
    intros H. apply IH in H. cbn. lia.
Qed.

(** A string literal: never out of fuel, and its closing quote is
    consumed. *)
Lemma parse_chars_spec (s : text) :
  forall acc,
    parse_chars s acc <> OutOfFuel /\
    (forall x r, parse_chars s acc = Parsed x r -> (length r < length s)%nat).
Proof.
  induction s as [s IH] using (induction_ltof1 _ (@length ascii)).
  unfold ltof in IH. intros acc. destruct s as [|c s]; cbn [parse_chars];
    [no_result|].
  destruct (Ascii.eqb c dquote).
  { split; [intros Hx; discriminate Hx|]. intros x r [= _ <-]. cbn [length] in *; lia. }
  destruct (Ascii.eqb c backslash).
  2:{ destruct (nat_of_ascii c <? 32)%nat; [no_result|].
      destruct (IH s ltac:(cbn [length]; lia) (c :: acc)) as [H1 H2].
      split; [exact H1|]. intros x r H. apply H2 in H. cbn [length] in *; lia. }
  destruct s as [|e s]; [no_result|].
  assert (Hrec : forall a,
             parse_chars s a <> OutOfFuel /\
             (forall x r, parse_chars s a = Parsed x r ->
                          (length r < S (S (length s)))%nat)).
  { intros a. destruct (IH s ltac:(cbn [length]; lia) a) as [H1 H2].
    split; [exact H1|]. intros x r H. apply H2 in H. cbn [length] in *; lia. }
  repeat match goal with
         | |- context [if Ascii.eqb e ?k then _ else _] =>
             destruct (Ascii.eqb e k); [apply Hrec|]
         end.
  destruct (Ascii.eqb e "u"%char); [|no_result].
  destruct s as [|h1 [|h2 [|h3 [|h4 s3]]]]; try (no_result).
  destruct (hex_val h1) as [[|?]|]; try (no_result).
  destruct (hex_val h2) as [[|?]|]; try (no_result).
  destruct (hex_val h3) as [a|]; try (no_result).
  destruct (hex_val h4) as [b|]; try (no_result).
  destruct (IH s3 ltac:(cbn [length]; lia) (ascii_of_nat (16 * a + b) :: acc)) as [H1 H2].
  split; [exact H1|]. intros x r H. apply H2 in H. cbn [length] in *; lia.
Qed.

Lemma parse_digits_length (s : text) (acc : Z) :
  (length (snd (parse_digits s acc)) <= length s)%nat.
Proof.
  revert acc. induction s as [|c s IH]; intros acc; cbn; [lia|].
  destruct (digit_val c); cbn; [|lia]. specialize (IH (10 * acc + z)). lia.
Qed.

Lemma parse_number_spec (s : text) :
  parse_number s <> OutOfFuel /\
  (forall n r, parse_number s = Parsed n r -> (length r < length s)%nat).
Proof.
  unfold parse_number.
  assert (H : forall (neg : bool) (s1 : text), (length s1 <= length s)%nat ->
    match s1 with
    | c :: s' =>
        match digit_val c with
        | Some 0 => Parsed 0 s'
        | Some d => let '(n, r) := parse_digits s' d in
                    Parsed (if neg then - n else n) r
        | None => SyntaxError
        end
    | [] => SyntaxError
    end <> OutOfFuel /\
    (forall n r,
       match s1 with
       | c :: s' =>
           match digit_val c with
           | Some 0 => Parsed 0 s'
           | Some d => let '(n, r) := parse_digits s' d in
                       Parsed (if neg then - n else n) r
           | None => SyntaxError
           end
       | [] => SyntaxError
       end = Parsed n r -> (length r < length s)%nat)).
  { intros neg s1 Hl. destruct s1 as [|c s']; [no_result|].
    cbn in Hl. destruct (digit_val c) as [[|d|d]|].
    - split; [intros Hx; discriminate Hx|]. intros n r [= _ <-]. lia.
    - pose proof (parse_digits_length s' (Z.pos d)) as Hd.
      destruct (parse_digits s' (Z.pos d)) as [n0 r0]. cbn in Hd.
      split; [intros Hx; discriminate Hx|]. intros n r [= _ <-]. lia.
    - pose proof (parse_digits_length s' (Z.neg d)) as Hd.
      destruct (parse_digits s' (Z.neg d)) as [n0 r0]. cbn in Hd.
      split; [intros Hx; discriminate Hx|]. intros n r [= _ <-]. lia.
    - no_result. }
  destruct s as [|c s']; [apply (H false []); cbn; lia|].
  destruct (Ascii.eqb c "-"%char).
  - apply (H true s'). cbn. lia.
  - apply (H false (c :: s')). cbn. lia.
Qed.

Lemma consumes_error (n : nat) (e : Prop) : consumes n e SyntaxError.
Proof. split; [intros v r H; discriminate H|intros _ H; discriminate H]. Qed.

Lemma consumes_parsed (n : nat) (e : Prop) (v : json) (r : text) :
  (length r < n)%nat -> consumes n e (Parsed v r).
Proof.
  intros Hr. split; [intros v' r' [= _ <-]; exact Hr|intros _ H; discriminate H].
Qed.

Lemma consumes_weaken (n n' : nat) (e e' : Prop) (x : parsed json) :
  consumes n' e' x -> (n' <= n)%nat -> (e -> e') -> consumes n e x.
Proof.
  intros [H1 H2] Hn He. split.
  - intros v r H. apply H1 in H. lia.
  - intros H. apply H2, He, H.
Qed.

(** Every result of the three parsers has consumed a character, and
    fuel above twice the length of the text is never used up. *)
Lemma parse_fuel_spec (fuel : nat) :
  (forall s, consumes (length s) (2 * length s + 1 <= fuel)%nat
               (parse_value fuel s)) /\
  (forall s acc, consumes (length s) (2 * length s + 2 <= fuel)%nat
                   (parse_elements fuel s acc)) /\
  (forall s acc, consumes (length s) (2 * length s + 2 <= fuel)%nat
                   (parse_members fuel s acc)).
Proof.
  induction fuel as [|fuel (IHv & IHe & IHm)].
  { repeat split; intros; try discriminate; cbn in *; lia. }
  split; [|split].
  - intros s. cbn [parse_value].
    destruct (skip_ws s) as [|c r] eqn:Hs; [apply consumes_error|].
    apply skip_ws_cons in Hs.
    destruct (Ascii.eqb c dquote).
    { destruct (parse_chars_spec r []) as [Hne Hlen].
      destruct (parse_chars r []) as [str r'| |]; [| |contradiction].
      - apply consumes_parsed. specialize (Hlen str r' eq_refl). lia.
      - apply consumes_error. }
    destruct (Ascii.eqb c lbrace).
    { destruct (skip_ws r) as [|c' r'] eqn:Hr; [apply consumes_error|].
      pose proof (skip_ws_length r) as Hl. rewrite Hr in Hl. cbn in Hl.
      destruct (Ascii.eqb c' rbrace); [apply consumes_parsed; lia|].
      eapply consumes_weaken; [apply IHm|cbn; lia|cbn; lia]. }
    destruct (Ascii.eqb c "["%char).
    { destruct (skip_ws r) as [|c' r'] eqn:Hr; [apply consumes_error|].
      pose proof (skip_ws_length r) as Hl. rewrite Hr in Hl. cbn in Hl.
      destruct (Ascii.eqb c' "]"%char); [apply consumes_parsed; lia|].
      eapply consumes_weaken; [apply IHe|cbn; lia|cbn; lia]. }
    destruct (strip_prefix (T "null") (c :: r)) as [r'|] eqn:H1.
    { apply strip_prefix_length in H1. cbn in H1.
      apply consumes_parsed. lia. }
    destruct (strip_prefix (T "true") (c :: r)) as [r'|] eqn:H2.
    { apply strip_prefix_length in H2. cbn in H2.
      apply consumes_parsed. lia. }
    destruct (strip_prefix (T "false") (c :: r)) as [r'|] eqn:H3.
    { apply strip_prefix_length in H3. cbn in H3.
      apply consumes_parsed. lia. }
    destruct (parse_number_spec (c :: r)) as [Hne Hlen].
    destruct (parse_number (c :: r)) as [n r'| |]; [| |contradiction].
    + apply consumes_parsed. specialize (Hlen n r' eq_refl). cbn in Hlen. lia.
    + apply consumes_error.
  - intros s acc. cbn [parse_elements].
    destruct (IHv s) as [Hlen Hne].
    destruct (parse_value fuel s) as [v r| |] eqn:Hv.
    + specialize (Hlen v r eq_refl).
      destruct (skip_ws r) as [|c r'] eqn:Hr; [apply consumes_error|].
      apply skip_ws_cons in Hr.
      destruct (Ascii.eqb c ","%char).
      { eapply consumes_weaken; [apply IHe|lia|lia]. }
      destruct (Ascii.eqb c "]"%char); [apply consumes_parsed; lia|].
      apply consumes_error.
    + apply consumes_error.
    + split; [intros v r H; discriminate H|].
      intros Hf. exfalso. apply Hne; [lia|reflexivity].
  - intros s acc. cbn [parse_members].
    destruct (skip_ws s) as [|c r] eqn:Hs; [apply consumes_error|].
    apply skip_ws_cons in Hs.
    destruct (Ascii.eqb c dquote); [|apply consumes_error].
    destruct (parse_chars_spec r []) as [Hne Hlen].
    destruct (parse_chars r []) as [k r1| |]; [| |contradiction];
      [|apply consumes_error].
    specialize (Hlen k r1 eq_refl).
    destruct (skip_ws r1) as [|c1 r2] eqn:Hr1; [apply consumes_error|].
    apply skip_ws_cons in Hr1.
    destruct (Ascii.eqb c1 ":"%char); [|apply consumes_error].
    destruct (IHv r2) as [Hlen2 Hne2].
    destruct (parse_value fuel r2) as [v r3| |] eqn:Hv.
    + specialize (Hlen2 v r3 eq_refl).
      destruct (skip_ws r3) as [|c3 r4] eqn:Hr3; [apply consumes_error|].
      apply skip_ws_cons in Hr3.
      destruct (Ascii.eqb c3 ","%char).
      { eapply consumes_weaken; [apply IHm|lia|lia]. }
      destruct (Ascii.eqb c3 rbrace); [apply consumes_parsed; lia|].
      apply consumes_error.
    + apply consumes_error.
    + split; [intros v r' H; discriminate H|].
      intros Hf. exfalso. apply Hne2; [lia|reflexivity].
Qed.

(** [JSON.parse] in the model either returns a value or throws: it
    never runs out of fuel. *)
Lemma parse_raw_total (s : text) : parse_raw s <> OutOfFuel.
Proof.
  unfold parse_raw.
  destruct (parse_fuel_spec (2 * length s + 2)) as [Hv _].
  destruct (Hv s) as [_ Hne].
  destruct (parse_value (2 * length s + 2) s) as [v r| |].
  - destruct (skip_ws r); discriminate.
  - discriminate.
  - exfalso. apply Hne; [lia|reflexivity].
Qed.

Lemma parse_None_is_SyntaxError (s : text) :
  parse s = None <-> parse_raw s = SyntaxError.
Proof.
  unfold parse. pose proof (parse_raw_total s) as Hne.
  destruct (parse_raw s); split; intros H; try discriminate; try reflexivity.
  contradiction.
Qed.

End JsonFacts.

(** * Facts about the WebSocket bridge *)

Section BridgeFacts.

Import Bridge BridgeScenario.

(** ** The pending map and the settlement log under each operation *)

Lemma connect_frame (s : state) :
  messageHandlers (connect s) = messageHandlers s /\
  settled (connect s) = settled s.
Proof. unfold connect. destruct (connected s), (urlAccepted s); auto. Qed.

Lemma ws_send_frame (k : nat) (m : MCPMessage) (s : state) :
  messageHandlers (ws_send k m s) = messageHandlers s /\
  settled (ws_send k m s) = settled s.
Proof.
  unfold ws_send. destruct (sockets s !! k) as [[]|]; auto.
Qed.

Lemma sendMessage_frame (m : MCPMessage) (s : state) :
  messageHandlers (sendMessage m s) = messageHandlers s /\
  settled (sendMessage m s) = settled s.
Proof.
  unfold sendMessage.
  destruct (connected s) eqn:Hc; [destruct (ws s)|].
  - apply ws_send_frame.
  - cbn. rewrite Hc. cbn. auto.
  - cbn. rewrite Hc. cbn.
    destruct (connect_frame (set_messageQueue (messageQueue s ++ [m]) s)) as [-> ->].
    auto.
Qed.

Lemma send_all_frame (q : list MCPMessage) (s : state) :
  messageHandlers (fold_left (fun st m => sendMessage m st) q s) = messageHandlers s /\
  settled (fold_left (fun st m => sendMessage m st) q s) = settled s.
Proof.
  revert s. induction q as [|m q IH]; intros s; cbn; [auto|].
  destruct (IH (sendMessage m s)) as [-> ->]. apply sendMessage_frame.
Qed.

Lemma processMessageQueue_frame (s : state) :
  messageHandlers (processMessageQueue s) = messageHandlers s /\
  settled (processMessageQueue s) = settled s.
Proof.
  unfold processMessageQueue.
  destruct (negb (connected s) || (length (messageQueue s) =? 0)%nat); [auto|].
  destruct (send_all_frame (messageQueue s) (set_messageQueue [] s)) as [-> ->].
  auto.
Qed.

Lemma on_open_frame (now : Z) (rnd : string) (s : state) :
  messageHandlers (on_open now rnd s) = messageHandlers s /\
  settled (on_open now rnd s) = settled s.
Proof.
  unfold on_open.
  match goal with |- context [sendMessage ?m ?t] =>
    destruct (sendMessage_frame m t) as [-> ->] end.
  match goal with |- context [processMessageQueue ?t] =>
    destruct (processMessageQueue_frame t) as [-> ->] end.
  auto.
Qed.

Lemma terminate_frame (k : nat) (s : state) :
  messageHandlers (terminate k s) = messageHandlers s /\
  settled (terminate k s) = settled s /\
  ws (terminate k s) = ws s /\
  subscribers (terminate k s) = subscribers s.
Proof. unfold terminate. destruct (sockets s !! k) as [[]|]; auto. Qed.

Lemma disconnect_frame (s : state) :
  messageHandlers (disconnect s) = messageHandlers s /\
  settled (disconnect s) = settled s.
Proof.
  unfold disconnect. cbn.
  destruct (ws s) as [k|]; cbn; [|auto].
  match goal with |- context [terminate k ?t] =>
    destruct (terminate_frame k t) as (-> & -> & _) end.
  auto.
Qed.

Lemma dispose_frame (s : state) :
  messageHandlers (dispose s) = messageHandlers s /\
  settled (dispose s) = settled s.
Proof. unfold dispose. cbn. apply disconnect_frame. Qed.

Lemma truthy_id_Some (i : string) (x : option string) :
  truthy_id x = Some i -> x = Some i /\ i <> ""%string.
Proof.
  unfold truthy_id. destruct x as [e|]; [|discriminate].
  destruct (String.eqb e "") eqn:He; [discriminate|].
  intros [= ->]. split; [reflexivity|].
  intros ->. discriminate.
Qed.

Lemma truthy_id_nonempty (i : string) :
  i <> ""%string -> truthy_id (Some i) = Some i.
Proof.
  intros Hi. unfold truthy_id.
  destruct (String.eqb i "") eqn:He; [|reflexivity].
  apply String.eqb_eq in He. contradiction.
Qed.

Lemma generateMessageId_nonempty (now : Z) (rnd : string) :
  generateMessageId now rnd <> ""%string.
Proof. unfold generateMessageId. cbn. discriminate. Qed.

Lemma call_handler_frame (h : handler) (m : MCPMessage) (s : state) :
  messageHandlers (call_handler h m s) = messageHandlers s.
Proof.
  destruct h as [p|p]; cbn.
  - destruct (m_tools m); reflexivity.
  - destruct (String.eqb (m_type m) ERROR); [reflexivity|].
    destruct (String.eqb (m_type m) TOOL_RESULT); reflexivity.
Qed.

(** A message is looked up in the pending map as it was before the
    message. *)
Lemma handleMessage_handlers (m : MCPMessage) (s : state) :
  messageHandlers (handleMessage m s) =
  match truthy_id (m_id m) with
  | Some i => delete i (messageHandlers s)
  | None => messageHandlers s
  end.
Proof.
  unfold handleMessage.
  set (s1 := match String.eqb (m_type m) LIST_TOOLS, m_tools m with
             | true, Some l => set_tools l s
             | _, _ => s
             end).
  assert (Hs1 : messageHandlers s1 = messageHandlers s).
  { subst s1. destruct (String.eqb (m_type m) LIST_TOOLS), (m_tools m); reflexivity. }
  destruct (truthy_id (m_id m)) as [i|]; cbn; [|exact Hs1].
  rewrite Hs1.
  destruct (messageHandlers s !! i) as [h|] eqn:Hh; cbn.
  - rewrite call_handler_frame. cbn. rewrite Hs1. reflexivity.
  - rewrite Hs1. symmetry. apply delete_id. exact Hh.
Qed.

(** A message that matches no pending request settles nothing. *)
Lemma handleMessage_unmatched_settled (m : MCPMessage) (s : state) :
  match truthy_id (m_id m) with
  | Some i => messageHandlers s !! i = None
  | None => True
  end ->
  settled (handleMessage m s) = settled s.
Proof.
  unfold handleMessage.
  set (s1 := match String.eqb (m_type m) LIST_TOOLS, m_tools m with
             | true, Some l => set_tools l s
             | _, _ => s
             end).
  assert (Hs1 : messageHandlers s1 = messageHandlers s /\ settled s1 = settled s).
  { subst s1. destruct (String.eqb (m_type m) LIST_TOOLS), (m_tools m); auto. }
  destruct Hs1 as [Hh Hs].
  destruct (truthy_id (m_id m)) as [i|]; cbn; [|intros _; exact Hs].
  rewrite Hh. intros ->. cbn. exact Hs.
Qed.

Lemma listTools_timeout_handlers (j : string) (p : nat) (s : state) (i : string) :
  j <> i ->
  messageHandlers (listTools_timeout j p s) !! i = messageHandlers s !! i.
Proof.
  intros Hji. unfold listTools_timeout.
  destruct (truthy_id (Some j)); [|reflexivity].
  destruct (messageHandlers s !! j); [|reflexivity].
  cbn. apply lookup_delete_ne. exact Hji.
Qed.

Lemma executeTool_timeout_handlers (j : string) (p : nat) (s : state) (i : string) :
  j <> i ->
  messageHandlers (executeTool_timeout j p s) !! i = messageHandlers s !! i.
Proof.
  intros Hji. unfold executeTool_timeout.
  destruct (truthy_id (Some j)); [|reflexivity].
  destruct (messageHandlers s !! j); [|reflexivity].
  cbn. apply lookup_delete_ne. exact Hji.
Qed.

(** An event that leaves request [i] alone leaves its entry in the
    pending map as it is. *)
Lemma step_untouched (i : string) (e : event) (s s' : state) :
  untouched i e ->
  step e s = Some s' ->
  messageHandlers s' !! i = messageHandlers s !! i.
Proof.
  intros Hu Hstep. destruct e; cbn in Hu, Hstep.
  - destruct (sockets s !! k) as [[]|]; try discriminate.
    injection Hstep as <-.
    match goal with |- context [on_open ?a ?b ?t] =>
      destruct (on_open_frame a b t) as [-> _] end.
    reflexivity.
  - destruct (sockets s !! k) as [[]|]; try discriminate.
    injection Hstep as <-. rewrite handleMessage_handlers.
    destruct (truthy_id (m_id m)) as [j|]; [|reflexivity].
    apply lookup_delete_ne. congruence.
  - destruct (sockets s !! k) as [[]|]; try discriminate;
      injection Hstep as <-; reflexivity.
  - destruct (sockets s !! k) as [[]|]; try discriminate;
      injection Hstep as <-; reflexivity.
  - destruct (reconnectTimer s) as [[d []]|]; try discriminate.
    injection Hstep as <-. unfold on_reconnect_timer.
    match goal with |- context [connect ?t] =>
      destruct (connect_frame t) as [-> _] end.
    reflexivity.
  - destruct (pingInterval s); [|discriminate].
    injection Hstep as <-. unfold on_ping.
    destruct (connected s); [|reflexivity].
    match goal with |- context [sendMessage ?m ?t] =>
      destruct (sendMessage_frame m t) as [-> _] end.
    reflexivity.
  - injection Hstep as <-. apply listTools_timeout_handlers. exact Hu.
  - injection Hstep as <-. apply executeTool_timeout_handlers. exact Hu.
  - injection Hstep as <-. destruct (connect_frame s) as [-> _]. reflexivity.
  - injection Hstep as <-. destruct (disconnect_frame s) as [-> _]. reflexivity.
  - injection Hstep as <-. destruct (dispose_frame s) as [-> _]. reflexivity.
  - injection Hstep as <-. destruct (sendMessage_frame m s) as [-> _]. reflexivity.
  - injection Hstep as <-. unfold listTools.
    match goal with |- context [sendMessage ?m ?t] =>
      destruct (sendMessage_frame m t) as [-> _] end.
    cbn. apply lookup_insert_ne. exact Hu.
  - injection Hstep as <-. unfold executeTool.
    match goal with |- context [sendMessage ?m ?t] =>
      destruct (sendMessage_frame m t) as [-> _] end.
    cbn. apply lookup_insert_ne. exact Hu.
  - injection Hstep as <-. reflexivity.
Qed.

Lemma run_untouched (i : string) (es : list event) (s s' : state) :
  Forall (untouched i) es ->
  run es s = Some s' ->
  messageHandlers s' !! i = messageHandlers s !! i.
Proof.
  revert s. induction es as [|e es IH]; intros s Hall Hrun; cbn in Hrun.
  - injection Hrun as <-. reflexivity.
  - inversion Hall as [|? ? He Hes]; subst.
    destruct (step e s) as [s1|] eqn:Hstep; [|discriminate].
    rewrite (IH s1 Hes Hrun). eapply step_untouched; eauto.
Qed.

Lemma executeTool_registers (now : Z) (rnd : string) (p : nat)
    (toolName : string) (params : json) (s : state) :
  messageHandlers (executeTool now rnd p toolName params s)
    !! generateMessageId now rnd = Some (ExecuteToolHandler p).
Proof.
  unfold executeTool.
  match goal with |- context [sendMessage ?m ?t] =>
    destruct (sendMessage_frame m t) as [-> _] end.
  cbn. apply lookup_insert_eq.
Qed.

Lemma executeTool_timeout_pending (i : string) (p : nat) (h : handler) (s : state) :
  i <> ""%string ->
  messageHandlers s !! i = Some h ->
  messageHandlers (executeTool_timeout i p s) !! i = None /\
  settled (executeTool_timeout i p s) =
    (p, Rejected "Tool execution timed out") :: settled s.
Proof.
  intros Hi Hh. unfold executeTool_timeout.
  rewrite (truthy_id_nonempty i Hi), Hh. cbn. split; [|reflexivity].
  apply lookup_delete_eq.
Qed.

Lemma listTools_timeout_pending (i : string) (p : nat) (h : handler) (s : state) :
  i <> ""%string ->
  messageHandlers s !! i = Some h ->
  messageHandlers (listTools_timeout i p s) !! i = None /\
  settled (listTools_timeout i p s) =
    (p, Resolved (VArray (length (heap s)))) :: settled s /\
  elements (length (heap s)) (listTools_timeout i p s) = [].
Proof.
  intros Hi Hh. unfold listTools_timeout.
  rewrite (truthy_id_nonempty i Hi), Hh. cbn. split; [|split; [reflexivity|]].
  - apply lookup_delete_eq.
  - unfold elements. cbn. rewrite lookup_app_r by lia.
    rewrite Nat.sub_diag. reflexivity.
Qed.

(** A reply whose id is not pending runs no handler: the pending map
    and the settlement log stay as they are. *)
Lemma handleMessage_not_pending (i : string) (m : MCPMessage) (s : state) :
  truthy_id (m_id m) = Some i ->
  messageHandlers s !! i = None ->
  messageHandlers (handleMessage m s) = messageHandlers s /\
  settled (handleMessage m s) = settled s.
Proof.
  intros Hid Hnone. split.
  - rewrite handleMessage_handlers, Hid. apply delete_id. exact Hnone.
  - apply handleMessage_unmatched_settled. rewrite Hid. exact Hnone.
Qed.

(** The scenario of the specification: the tool execution [list_files]
    is pending and the server answers with a [tool_result] of the same
    id; the promise is resolved with the result and the entry is gone. *)
Example tool_result_resolves_pending_execution :
  settled (handleMessage late_reply pending_bridge) =
    [(0%nat, Resolved (VJson (JArr [JStr "a.ts"; JStr "b.ts"])))] /\
  messageHandlers (handleMessage late_reply pending_bridge) !! pending_id = None /\
  sent pending_bridge =
    [(0%nat, {| m_type := EXECUTE_TOOL; m_id := Some pending_id;
                m_timestamp := Some 1000; m_tools := None;
                m_tool := Some "list_files"%string;
                m_parameters := Some (JObj []); m_result := None;
                m_error := None |});
     (0%nat, mk_message CONNECT (Some (generateMessageId 5 "r0")) (Some 5))].
Proof. repeat split; vm_compute; reflexivity. Qed.

(** ** Timeout of a request *)

Lemma listTools_registers (now : Z) (rnd : string) (p : nat) (s : state) :
  messageHandlers (listTools now rnd p s) !! generateMessageId now rnd =
  Some (ListToolsHandler p).
Proof.
  unfold listTools.
  match goal with |- context [sendMessage ?m ?t] =>
    destruct (sendMessage_frame m t) as [-> _] end.
  cbn. apply lookup_insert_eq.
Qed.

Lemma issue_registers (r : request) (now : Z) (rnd : string) (p : nat)
    (s : state) :
  messageHandlers (issue r now rnd p s) !! generateMessageId now rnd =
  Some (handler_of r p).
Proof.
  destruct r; cbn [issue handler_of];
    [apply listTools_registers|apply executeTool_registers].
Qed.

Lemma timeout_of_pending (h h' : handler) (i : string) (s : state) :
  i <> ""%string ->
  messageHandlers s !! i = Some h' ->
  messageHandlers (timeout_of h i s) !! i = None /\
  settled (timeout_of h i s) = (handler_promise h, timeout_outcome h s) :: settled s /\
  match timeout_outcome h s with
  | Resolved (VArray l) => elements l (timeout_of h i s) = []
  | Resolved _ => False
  | Rejected reason => reason = "Tool execution timed out"%string
  end.
Proof.
  intros Hi Hh. destruct h as [p|p]; cbn [timeout_of timeout_outcome handler_promise].
  - destruct (listTools_timeout_pending i p h' s Hi Hh) as (H1 & H2 & H3). auto.
  - destruct (executeTool_timeout_pending i p h' s Hi Hh) as (H1 & H2). auto.
Qed.

(** C2, as stated, fails for a tool listing: when its timer fires with
    the request still pending, the entry is removed, but the promise is
    resolved with a new empty array; nothing is rejected. *)
Lemma listTools_timeout_resolves_with_empty_list :
  messageHandlers listing_bridge !! listing_id = Some (ListToolsHandler 1) /\
  messageHandlers (listTools_timeout listing_id 1 listing_bridge) !! listing_id
    = None /\
  settled (listTools_timeout listing_id 1 listing_bridge) =
    [(1%nat, Resolved (VArray 1))] /\
  elements 1 (listTools_timeout listing_id 1 listing_bridge) = [].
Proof. repeat split; vm_compute; reflexivity. Qed.

(** C2, amended.  A request (a tool listing or a tool execution) is
    registered under its id; while no reply with that id arrives (and
    no other call draws the same id), the entry stays in the pending
    map;
    when the timer of the request then fires, the entry is removed and
    the promise is settled by the timer: a tool execution is rejected
    with the timeout error, a tool listing is resolved with a new empty
    array.  A reply with that id that arrives afterwards runs no handler
    and settles nothing: the pending map and the settlement log are as
    before it. *)
Theorem request_timeout_settles_and_late_reply_is_ignored
    (r : request) (now : Z) (rnd : string) (p : nat)
    (s s1 : state) (es : list event) :
  Forall (untouched (generateMessageId now rnd)) es ->
  run es (issue r now rnd p s) = Some s1 ->
  let i := generateMessageId now rnd in
  let s2 := timeout_of (handler_of r p) i s1 in
  messageHandlers s1 !! i = Some (handler_of r p) /\
  messageHandlers s2 !! i = None /\
  settled s2 = (p, timeout_outcome (handler_of r p) s1) :: settled s1 /\
  match r with
  | ExecuteToolRequest _ _ =>
      timeout_outcome (handler_of r p) s1 = Rejected "Tool execution timed out"
  | ListToolsRequest =>
      exists l, timeout_outcome (handler_of r p) s1 = Resolved (VArray l) /\
                elements l s2 = []
  end /\
  forall (es' : list event) (s3 : state) (m : MCPMessage),
    Forall (untouched i) es' ->
    run es' s2 = Some s3 ->
    truthy_id (m_id m) = Some i ->
    messageHandlers (handleMessage m s3) = messageHandlers s3 /\
    settled (handleMessage m s3) = settled s3.
Proof.
  intros Hes Hrun i s2.
  assert (Hpending : messageHandlers s1 !! i = Some (handler_of r p)).
  { rewrite (run_untouched i es _ s1 Hes Hrun). apply issue_registers. }
  destruct (timeout_of_pending (handler_of r p) _ i s1
              (generateMessageId_nonempty now rnd) Hpending)
    as (Hgone & Hlog & Hout).
  assert (Hp : handler_promise (handler_of r p) = p) by (destruct r; reflexivity).
  rewrite Hp in Hlog.
  split; [exact Hpending|]. split; [exact Hgone|]. split; [exact Hlog|]. split.
  - destruct r; cbn [handler_of timeout_outcome] in *.
    + eexists. split; [reflexivity|exact Hout].
    + reflexivity.
  - intros es' s3 m Hes' Hrun' Hid.
    apply (handleMessage_not_pending i); [exact Hid|].
    rewrite (run_untouched i es' s2 s3); assumption.
Qed.

Lemma request_timeout_settles_and_late_reply_is_ignored_witness :
  Forall (untouched pending_id) other_traffic /\
  (exists s1, run other_traffic pending_bridge = Some s1 /\
     settled (executeTool_timeout pending_id 0 s1) =
       (0%nat, Rejected "Tool execution timed out") :: settled s1 /\
     settled (handleMessage late_reply (executeTool_timeout pending_id 0 s1)) =
       settled (executeTool_timeout pending_id 0 s1)).
Proof.
  assert (Hes : Forall (untouched pending_id) other_traffic).
  { repeat constructor; vm_compute; discriminate. }
  split; [exact Hes|].
  destruct (run other_traffic pending_bridge) as [s1|] eqn:Hrun;
    [|vm_compute in Hrun; discriminate].
  exists s1. split; [reflexivity|].
  destruct (request_timeout_settles_and_late_reply_is_ignored
              (ExecuteToolRequest "list_files" (JObj [])) 1000 "abc" 0
              connected_bridge s1 other_traffic Hes Hrun)
    as (_ & _ & Hlog & _ & Hlate).
  split; [exact Hlog|].
  apply (Hlate [] _ late_reply); [constructor|reflexivity|reflexivity].
Defined.

(** ** Reconnection *)

Lemma reconnect_delays_closed_form (n : nat) (s : state) :
  reconnect_delays n s =
  map (fun k => Z.min (2 ^ Z.of_nat (reconnectAttempts s + k) * 1000) 30000)
      (seq 0 n).
Proof.
  revert s. induction n as [|n IH]; intros s; [reflexivity|].
  cbn [reconnect_delays]. cbn [scheduleReconnect reconnectTimer set_reconnectTimer].
  rewrite IH. cbn [seq map]. rewrite Nat.add_0_r. f_equal.
  rewrite <- seq_shift, map_map. apply map_ext. intros k.
  cbn [reconnectAttempts scheduleReconnect set_reconnectTimer set_reconnectAttempts].
  do 3 f_equal. lia.
Qed.

(** C4.  [scheduleReconnect] arms the timer with [min(2^n * 1000, 30000)]
    ms, [n] being the attempt counter before the call, and then has
    incremented the counter; the [close] handler of a socket schedules
    exactly that; and from attempt 0 on, seven reconnects in a row wait
    1000, 2000, 4000, 8000, 16000, 30000, 30000 ms. *)
Theorem scheduleReconnect_delay (s : state) :
  reconnectTimer (scheduleReconnect s) =
    Some (Timer (Z.min (2 ^ Z.of_nat (reconnectAttempts s) * 1000) 30000) true) /\
  reconnectAttempts (scheduleReconnect s) = S (reconnectAttempts s) /\
  reconnectTimer (on_close s) =
    Some (Timer (Z.min (2 ^ Z.of_nat (reconnectAttempts s) * 1000) 30000) true) /\
  reconnectAttempts (on_close s) = S (reconnectAttempts s) /\
  reconnect_delays 7 (set_reconnectAttempts 0 s) =
    [1000; 2000; 4000; 8000; 16000; 30000; 30000].
Proof.
  split; [reflexivity|]. split; [reflexivity|].
  split; [reflexivity|]. split; [reflexivity|].
  rewrite reconnect_delays_closed_form. reflexivity.
Qed.

(** X14.  After [disconnect] on a bridge whose socket has not closed yet, the
    [close] event of that socket is still to come; its handler schedules
    a reconnect, and the timer then calls [connect], which opens a new
    socket (the url is one the constructor accepts, or there would be
    no socket to close; for the other states of the model [connect]
    leaves [this.ws] at [null]). *)
Lemma disconnect_leaves_close_handler_armed (s : state) (k : nat) (r : readyState) :
  ws s = Some k ->
  sockets s !! k = Some r ->
  r <> CLOSED ->
  exists s1 s2,
    step (SockClose k) (disconnect s) = Some s1 /\
    reconnectTimer (disconnect s) = None /\
    reconnectTimer s1 =
      Some (Timer (Z.min (2 ^ Z.of_nat (reconnectAttempts s) * 1000) 30000) true) /\
    step ReconnectTimer s1 = Some s2 /\
    ws s2 = if urlAccepted s then Some (length (sockets s)) else None.
Proof.
  intros Hws Hk Hr.
  assert (Hsock : sockets (disconnect s) = <[k := CLOSING]> (sockets s)).
  { unfold disconnect. cbn. rewrite Hws. cbn. unfold terminate. cbn.
    rewrite Hk. destruct r; try reflexivity. contradiction. }
  assert (Hlt : (k < length (sockets s))%nat) by (eapply lookup_lt_Some; eauto).
  assert (Hatt : reconnectAttempts (disconnect s) = reconnectAttempts s).
  { unfold disconnect. cbn. rewrite Hws. cbn. unfold terminate. cbn.
    rewrite Hk. destruct r; reflexivity. }
  assert (Htimer : reconnectTimer (disconnect s) = None).
  { unfold disconnect. cbn. rewrite Hws. cbn. unfold terminate. cbn.
    rewrite Hk. destruct r; reflexivity. }
  assert (Hconn : connected (disconnect s) = false) by reflexivity.
  assert (Hurl : urlAccepted (disconnect s) = urlAccepted s).
  { unfold disconnect. cbn. rewrite Hws. cbn. unfold terminate. cbn.
    rewrite Hk. destruct r; reflexivity. }
  assert (Hnull : ws (disconnect s) = None).
  { unfold disconnect. cbn. rewrite Hws. reflexivity. }
  remember (disconnect s) as d eqn:Hd. clear Hd.
  eexists _, _. split; [|split; [|split; [|split]]].
  - cbn [step]. rewrite Hsock, list_lookup_insert_eq by exact Hlt. reflexivity.
  - exact Htimer.
  - cbn. rewrite Hatt. reflexivity.
  - cbn. reflexivity.
  - unfold on_reconnect_timer, connect. cbn. rewrite Hurl.
    destruct (urlAccepted s); cbn; [|exact Hnull].
    rewrite !length_insert. reflexivity.
Qed.

(** C5, as the code has it: a bridge that is connected (socket 0 open)
    is disconnected; the reconnect timer is cleared and the socket is
    closing.  Its [close] event then runs the [close] handler, which
    schedules a reconnect after 1000 ms; that timer fires and [connect]
    opens socket 1. *)
Theorem disconnect_then_close_event_reconnects :
  exists s3 s4 s5,
    run [CallConnect; SockOpen 0 5 "r0"; CallDisconnect] init = Some s3 /\
    reconnectTimer s3 = None /\ ws s3 = None /\ sockets s3 = [CLOSING] /\
    step (SockClose 0) s3 = Some s4 /\
    reconnectTimer s4 = Some (Timer 1000 true) /\
    step ReconnectTimer s4 = Some s5 /\
    ws s5 = Some 1%nat /\ sockets s5 = [CLOSED; CONNECTING].
Proof.
  eexists _, _, _.
  split; [vm_compute; reflexivity|].
  repeat split; vm_compute; reflexivity.
Qed.

(** ** Disposal *)

(** C6, as stated, fails: with one tool execution pending, [dispose]
    rejects nothing (the settlement log stays empty) and the request is
    still in the pending map. *)
Lemma dispose_rejects_no_pending_request :
  messageHandlers pending_bridge !! pending_id = Some (ExecuteToolHandler 0) /\
  settled (dispose pending_bridge) = [] /\
  messageHandlers (dispose pending_bridge) !! pending_id =
    Some (ExecuteToolHandler 0).
Proof. repeat split; vm_compute; reflexivity. Qed.

(** C6, amended.  [dispose] settles no request and removes none from
    the pending map.  A request that is pending at [dispose] stays
    pending while nothing concerns its id, and the timer of its own call
    then removes it and settles its promise: a tool execution is
    rejected with the timeout error, a tool listing is resolved with a
    new empty array. *)
Theorem dispose_leaves_pending_requests_to_their_timeouts
    (s s1 : state) (i : string) (h : handler) (es : list event) :
  i <> ""%string ->
  messageHandlers s !! i = Some h ->
  Forall (untouched i) es ->
  run es (dispose s) = Some s1 ->
  messageHandlers (dispose s) = messageHandlers s /\
  settled (dispose s) = settled s /\
  messageHandlers s1 !! i = Some h /\
  messageHandlers (timeout_of h i s1) !! i = None /\
  settled (timeout_of h i s1) =
    (handler_promise h, timeout_outcome h s1) :: settled s1 /\
  match h with
  | ExecuteToolHandler _ =>
      timeout_outcome h s1 = Rejected "Tool execution timed out"
  | ListToolsHandler _ =>
      exists l, timeout_outcome h s1 = Resolved (VArray l) /\
                elements l (timeout_of h i s1) = []
  end.
Proof.
  intros Hi Hh Hes Hrun.
  destruct (dispose_frame s) as [Hdh Hds].
  assert (Hpending : messageHandlers s1 !! i = Some h).
  { rewrite (run_untouched i es _ s1 Hes Hrun), Hdh. exact Hh. }
  destruct (timeout_of_pending h h i s1 Hi Hpending) as (Hgone & Hlog & Hout).
  split; [exact Hdh|]. split; [exact Hds|]. split; [exact Hpending|].
  split; [exact Hgone|]. split; [exact Hlog|].
  destruct h as [p|p]; cbn [timeout_outcome] in *.
  - eexists. split; [reflexivity|exact Hout].
  - reflexivity.
Qed.

Lemma dispose_leaves_pending_requests_to_their_timeouts_witness :
  pending_id <> ""%string /\
  messageHandlers pending_bridge !! pending_id = Some (ExecuteToolHandler 0) /\
  Forall (untouched pending_id) [SockClose 0; ReconnectTimer] /\
  (exists s1,
     run [SockClose 0; ReconnectTimer] (dispose pending_bridge) = Some s1 /\
     settled (dispose pending_bridge) = settled pending_bridge /\
     settled (executeTool_timeout pending_id 0 s1) =
       (0%nat, Rejected "Tool execution timed out") :: settled s1) /\
  listing_id <> ""%string /\
  messageHandlers listing_bridge !! listing_id = Some (ListToolsHandler 1) /\
  Forall (untouched listing_id) [SockClose 0; ReconnectTimer] /\
  (exists s1 l,
     run [SockClose 0; ReconnectTimer] (dispose listing_bridge) = Some s1 /\
     settled (dispose listing_bridge) = settled listing_bridge /\
     messageHandlers s1 !! listing_id = Some (ListToolsHandler 1) /\
     settled (listTools_timeout listing_id 1 s1) =
       (1%nat, Resolved (VArray l)) :: settled s1 /\
     elements l (listTools_timeout listing_id 1 s1) = []).
Proof.
  assert (Hi : pending_id <> ""%string) by (vm_compute; discriminate).
  assert (Hh : messageHandlers pending_bridge !! pending_id =
               Some (ExecuteToolHandler 0)) by (vm_compute; reflexivity).
  assert (Hes : Forall (untouched pending_id) [SockClose 0; ReconnectTimer])
    by (repeat constructor).
  assert (Hi' : listing_id <> ""%string) by (vm_compute; discriminate).
  assert (Hh' : messageHandlers listing_bridge !! listing_id =
                Some (ListToolsHandler 1)) by (vm_compute; reflexivity).
  assert (Hes' : Forall (untouched listing_id) [SockClose 0; ReconnectTimer])
    by (repeat constructor).
  split; [exact Hi|]. split; [exact Hh|]. split; [exact Hes|]. split.
  { destruct (run [SockClose 0; ReconnectTimer] (dispose pending_bridge))
      as [s1|] eqn:Hrun; [|vm_compute in Hrun; discriminate].
    exists s1. split; [reflexivity|].
    destruct (dispose_leaves_pending_requests_to_their_timeouts
                pending_bridge s1 pending_id (ExecuteToolHandler 0)
                [SockClose 0; ReconnectTimer] Hi Hh Hes Hrun)
      as (_ & Hs & _ & _ & Hlog & Hout).
    cbn [handler_promise] in Hlog. rewrite Hout in Hlog.
    split; [exact Hs|exact Hlog]. }
  split; [exact Hi'|]. split; [exact Hh'|]. split; [exact Hes'|].
  destruct (run [SockClose 0; ReconnectTimer] (dispose listing_bridge))
    as [s1|] eqn:Hrun; [|vm_compute in Hrun; discriminate].
  destruct (dispose_leaves_pending_requests_to_their_timeouts
              listing_bridge s1 listing_id (ListToolsHandler 1)
              [SockClose 0; ReconnectTimer] Hi' Hh' Hes' Hrun)
    as (_ & Hs & Hp & _ & Hlog & l & Hout & Hempty).
  cbn [handler_promise timeout_of] in Hlog, Hempty. rewrite Hout in Hlog.
  exists s1, l. split; [reflexivity|]. split; [exact Hs|]. split; [exact Hp|].
  split; [exact Hlog|exact Hempty].
Defined.

(** ** The tool catalog *)

Lemma getTools_allocates (s : state) :
  fst (getTools s) = length (heap s) /\
  tools (snd (getTools s)) = tools s /\
  heap (snd (getTools s)) = heap s ++ [elements (tools s) s].
Proof. repeat split. Qed.

Lemma getTools_elements (s : state) :
  elements (fst (getTools s)) (snd (getTools s)) = elements (tools s) s.
Proof.
  unfold elements, getTools, alloc. cbn.
  rewrite lookup_app_r by lia. rewrite Nat.sub_diag. reflexivity.
Qed.

Lemma mutate_all_frame (l : nat) (fs : list (list MCPTool -> list MCPTool))
    (s : state) (j : nat) :
  j <> l ->
  tools (mutate_all l fs s) = tools s /\
  heap (mutate_all l fs s) !! j = heap s !! j.
Proof.
  intros Hj. revert s. induction fs as [|f fs IH]; intros s; [split; reflexivity|].
  cbn [mutate_all fold_left]. destruct (IH (mutate_array l f s)) as [Ht Hh].
  unfold mutate_all in Ht, Hh. rewrite Ht, Hh. split; [reflexivity|].
  cbn. apply list_lookup_alter_ne. auto.
Qed.

(** C9.  [getTools] returns a new array with the elements of the
    catalog.  Whatever is then done to that array in place (any series
    of changes of its elements: additions, removals, replacements), the
    bridge still refers to its own array, that array has the elements it
    had, and the next [getTools] returns those same elements. *)
Theorem getTools_returns_defensive_copy
    (s : state) (fs : list (list MCPTool -> list MCPTool)) :
  is_Some (heap s !! tools s) ->
  let l := fst (getTools s) in
  let s2 := mutate_all l fs (snd (getTools s)) in
  l <> tools s /\
  elements l (snd (getTools s)) = elements (tools s) s /\
  tools s2 = tools s /\
  elements (tools s2) s2 = elements (tools s) s /\
  elements (fst (getTools s2)) (snd (getTools s2)) = elements (tools s) s.
Proof.
  intros Hsome l s2.
  assert (Hlt : (tools s < length (heap s))%nat).
  { apply lookup_lt_is_Some. exact Hsome. }
  assert (Hne : tools s <> l) by (subst l; cbn; lia).
  destruct (mutate_all_frame l fs (snd (getTools s)) (tools s) Hne) as [Ht Hh].
  assert (Hown : elements (tools s2) s2 = elements (tools s) s).
  { subst s2. unfold elements at 1. rewrite Ht.
    change (tools (snd (getTools s))) with (tools s). rewrite Hh. cbn.
    rewrite lookup_app_l by exact Hlt. reflexivity. }
  split; [auto|]. split; [apply getTools_elements|].
  split; [exact Ht|]. split; [exact Hown|].
  change (tools (snd (getTools s))) with (tools s) in Ht.
  rewrite getTools_elements. exact Hown.
Qed.

Lemma getTools_returns_defensive_copy_witness :
  is_Some (heap bridge_with_arrays !! tools bridge_with_arrays) /\
  (let l := fst (getTools bridge_with_arrays) in
   let s2 := mutate_all l [cons a_tool; fun _ => []; cons a_tool]
               (snd (getTools bridge_with_arrays)) in
   elements l s2 = [a_tool] /\
   elements (fst (getTools s2)) (snd (getTools s2)) =
     elements (tools bridge_with_arrays) bridge_with_arrays).
Proof.
  assert (H : is_Some (heap bridge_with_arrays !! tools bridge_with_arrays)).
  { exists []. reflexivity. }
  split; [exact H|]. split; [reflexivity|].
  apply (getTools_returns_defensive_copy bridge_with_arrays
           [cons a_tool; fun _ => []; cons a_tool] H).
Defined.

Lemma call_handler_tools (h : handler) (m : MCPMessage) (l : nat) (s : state) :
  m_tools m = Some l ->
  tools s = l ->
  tools (call_handler h m s) = l /\ heap (call_handler h m s) = heap s.
Proof.
  intros Hm Ht. destruct h as [p|p]; cbn.
  - rewrite Hm. cbn. auto.
  - destruct (String.eqb (m_type m) ERROR); [auto|].
    destruct (String.eqb (m_type m) TOOL_RESULT); auto.
Qed.

(** C10.  A [list_tools] message that carries a tools array makes that
    array the catalog, whatever the pending map holds (no request need
    be pending under its id, so also when the message is unsolicited);
    the arrays themselves are not touched, and [getTools] then returns
    the elements of the array of the message. *)
Theorem handleMessage_list_tools_replaces_catalog
    (m : MCPMessage) (l : nat) (s : state) :
  m_type m = LIST_TOOLS ->
  m_tools m = Some l ->
  let s' := handleMessage m s in
  tools s' = l /\
  heap s' = heap s /\
  elements (fst (getTools s')) (snd (getTools s')) = elements l s.
Proof.
  intros Hty Hm s'.
  assert (H : tools s' = l /\ heap s' = heap s).
  { subst s'. unfold handleMessage. rewrite Hty, Hm. cbn [String.eqb].
    replace (String.eqb LIST_TOOLS LIST_TOOLS) with true by reflexivity.
    destruct (truthy_id (m_id m)) as [i|]; [|split; reflexivity].
    cbn [fire messageHandlers set_delivered set_tools].
    destruct (messageHandlers s !! i) as [h|]; [|split; reflexivity].
    cbn [tools heap set_messageHandlers].
    destruct (call_handler_tools h m l (fire m (set_tools l s)) Hm eq_refl)
      as [-> ->].
    split; reflexivity. }
  destruct H as [Ht Hh]. split; [exact Ht|]. split; [exact Hh|].
  rewrite getTools_elements. unfold elements. rewrite Ht, Hh. reflexivity.
Qed.

Lemma handleMessage_list_tools_replaces_catalog_witness :
  m_type unsolicited_catalog = LIST_TOOLS /\
  m_tools unsolicited_catalog = Some 1%nat /\
  messageHandlers bridge_with_arrays = ∅ /\
  elements (tools bridge_with_arrays) bridge_with_arrays = [] /\
  (let s' := handleMessage unsolicited_catalog bridge_with_arrays in
   tools s' = 1%nat /\
   elements (fst (getTools s')) (snd (getTools s')) = [a_tool]).
Proof.
  split; [reflexivity|]. split; [reflexivity|].
  split; [vm_compute; reflexivity|]. split; [reflexivity|].
  destruct (handleMessage_list_tools_replaces_catalog unsolicited_catalog 1
              bridge_with_arrays eq_refl eq_refl) as (Ht & _ & He).
  split; [exact Ht|]. rewrite He. reflexivity.
Defined.

(** ** Broadcast *)

Lemma call_handler_delivered (h : handler) (m : MCPMessage) (s : state) :
  delivered (call_handler h m s) = delivered s /\
  subscribers (call_handler h m s) = subscribers s.
Proof.
  destruct h as [p|p]; cbn.
  - destruct (m_tools m); auto.
  - destruct (String.eqb (m_type m) ERROR); [auto|].
    destruct (String.eqb (m_type m) TOOL_RESULT); auto.
Qed.

(** Every inbound message is delivered to every subscriber, once and in
    order of subscription, whether or not a pending request matches. *)
Lemma bridge_handleMessage_broadcasts (m : MCPMessage) (s : state) :
  delivered (handleMessage m s) =
  rev (map (fun n => (n, m)) (subscribers s)) ++ delivered s.
Proof.
  unfold handleMessage.
  set (s1 := match String.eqb (m_type m) LIST_TOOLS, m_tools m with
             | true, Some l => set_tools l s
             | _, _ => s
             end).
  assert (Hs1 : delivered s1 = delivered s /\ subscribers s1 = subscribers s).
  { subst s1. destruct (String.eqb (m_type m) LIST_TOOLS), (m_tools m); auto. }
  destruct Hs1 as [Hd Hsub].
  assert (Hfire : delivered (fire m s1) =
                  rev (map (fun n => (n, m)) (subscribers s)) ++ delivered s).
  { cbn. rewrite Hd, Hsub. reflexivity. }
  destruct (truthy_id (m_id m)) as [i|]; [|exact Hfire].
  destruct (messageHandlers (fire m s1) !! i) as [h|]; [|exact Hfire].
  cbn [delivered set_messageHandlers].
  destruct (call_handler_delivered h m (fire m s1)) as [-> _]. exact Hfire.
Qed.

(** A pending request that matches is settled by the same message. *)
Lemma bridge_handleMessage_correlates (m : MCPMessage) (i : string) (p : nat)
    (s : state) :
  truthy_id (m_id m) = Some i ->
  messageHandlers s !! i = Some (ExecuteToolHandler p) ->
  messageHandlers (handleMessage m s) !! i = None /\
  exists o, settled (handleMessage m s) = (p, o) :: settled s.
Proof.
  intros Hid Hh. split.
  - rewrite handleMessage_handlers, Hid. apply lookup_delete_eq.
  - unfold handleMessage. rewrite Hid.
    set (s1 := match String.eqb (m_type m) LIST_TOOLS, m_tools m with
               | true, Some l => set_tools l s
               | _, _ => s
               end).
    assert (Hs1 : messageHandlers s1 = messageHandlers s /\ settled s1 = settled s).
    { subst s1. destruct (String.eqb (m_type m) LIST_TOOLS), (m_tools m); auto. }
    destruct Hs1 as [Hh1 Hs1].
    cbn [fire messageHandlers set_delivered]. rewrite Hh1, Hh.
    cbn. destruct (String.eqb (m_type m) ERROR);
      [|destruct (String.eqb (m_type m) TOOL_RESULT)];
      cbn; rewrite Hs1; eexists; reflexivity.
Qed.

(** * More of the WebSocket bridge *)

Ltac fields := repeat split; cbn; try reflexivity; auto.

(** ** The connection fields under each operation *)

Lemma connect_link (s : state) :
  connected (connect s) = connected s /\
  pingInterval (connect s) = pingInterval s /\
  reconnectAttempts (connect s) = reconnectAttempts s /\
  reconnectTimer (connect s) = reconnectTimer s.
Proof. unfold connect. destruct (connected s) eqn:Hc, (urlAccepted s); fields. Qed.

Lemma sendMessage_link (m : MCPMessage) (s : state) :
  connected (sendMessage m s) = connected s /\
  pingInterval (sendMessage m s) = pingInterval s /\
  reconnectAttempts (sendMessage m s) = reconnectAttempts s /\
  reconnectTimer (sendMessage m s) = reconnectTimer s.
Proof.
  unfold sendMessage.
  destruct (connected s) eqn:Hc; [destruct (ws s) as [k|]|].
  - unfold ws_send. destruct (sockets s !! k) as [[]|]; fields.
  - cbn. rewrite Hc. cbn. fields.
  - cbn. rewrite Hc. cbn.
    destruct (connect_link (set_messageQueue (messageQueue s ++ [m]) s))
      as (-> & -> & -> & ->).
    fields.
Qed.

Lemma send_all_link (q : list MCPMessage) (s : state) :
  connected (fold_left (fun st m => sendMessage m st) q s) = connected s /\
  pingInterval (fold_left (fun st m => sendMessage m st) q s) = pingInterval s /\
  reconnectAttempts (fold_left (fun st m => sendMessage m st) q s)
    = reconnectAttempts s /\
  reconnectTimer (fold_left (fun st m => sendMessage m st) q s) = reconnectTimer s.
Proof.
  revert s. induction q as [|m q IH]; intros s; cbn; [fields|].
  destruct (IH (sendMessage m s)) as (-> & -> & -> & ->).
  apply sendMessage_link.
Qed.

Lemma processMessageQueue_link (s : state) :
  connected (processMessageQueue s) = connected s /\
  pingInterval (processMessageQueue s) = pingInterval s /\
  reconnectAttempts (processMessageQueue s) = reconnectAttempts s /\
  reconnectTimer (processMessageQueue s) = reconnectTimer s.
Proof.
  unfold processMessageQueue.
  destruct (negb (connected s) || (length (messageQueue s) =? 0)%nat);
    [fields|].
  destruct (send_all_link (messageQueue s) (set_messageQueue [] s))
    as (-> & -> & -> & ->).
  fields.
Qed.

Lemma on_open_link (now : Z) (rnd : string) (s : state) :
  connected (on_open now rnd s) = true /\
  pingInterval (on_open now rnd s) = true /\
  reconnectAttempts (on_open now rnd s) = 0%nat /\
  reconnectTimer (on_open now rnd s) = reconnectTimer s.
Proof.
  unfold on_open.
  match goal with |- context [sendMessage ?m ?t] =>
    destruct (sendMessage_link m t) as (-> & -> & -> & ->) end.
  match goal with |- context [processMessageQueue ?t] =>
    destruct (processMessageQueue_link t) as (-> & -> & -> & ->) end.
  fields.
Qed.

(** X1.  When a socket opens, the attempt counter is back at 0: the
    next close waits 1000 ms again, however many attempts came before. *)
Theorem open_restarts_the_backoff (now : Z) (rnd : string) (s : state) :
  connected (on_open now rnd s) = true /\
  reconnectAttempts (on_open now rnd s) = 0%nat /\
  reconnectTimer (on_close (on_open now rnd s)) = Some (Timer 1000 true) /\
  reconnect_delays 3 (on_open now rnd s) = [1000; 2000; 4000].
Proof.
  destruct (on_open_link now rnd s) as (Hc & _ & Ha & _).
  split; [exact Hc|]. split; [exact Ha|]. split.
  - cbn. rewrite Ha. reflexivity.
  - rewrite reconnect_delays_closed_form, Ha. reflexivity.
Qed.

Lemma handleMessage_link (m : MCPMessage) (s : state) :
  connected (handleMessage m s) = connected s /\
  pingInterval (handleMessage m s) = pingInterval s.
Proof.
  unfold handleMessage.
  set (s1 := match String.eqb (m_type m) LIST_TOOLS, m_tools m with
             | true, Some l => set_tools l s
             | _, _ => s
             end).
  assert (Hs1 : connected s1 = connected s /\ pingInterval s1 = pingInterval s).
  { subst s1. destruct (String.eqb (m_type m) LIST_TOOLS), (m_tools m); auto. }
  destruct (truthy_id (m_id m)) as [i|]; [|exact Hs1].
  destruct (messageHandlers (fire m s1) !! i) as [[p|p]|]; [| |exact Hs1]; cbn.
  - destruct (m_tools m); exact Hs1.
  - destruct (String.eqb (m_type m) ERROR); [exact Hs1|].
    destruct (String.eqb (m_type m) TOOL_RESULT); exact Hs1.
Qed.

Lemma terminate_link (k : nat) (s : state) :
  connected (terminate k s) = connected s /\
  pingInterval (terminate k s) = pingInterval s /\
  messageQueue (terminate k s) = messageQueue s.
Proof. unfold terminate. destruct (sockets s !! k) as [[]|]; auto. Qed.

Lemma disconnect_link (s : state) :
  connected (disconnect s) = false /\
  pingInterval (disconnect s) = false /\
  ws (disconnect s) = None /\
  reconnectTimer (disconnect s) = None /\
  messageQueue (disconnect s) = messageQueue s /\
  reconnectAttempts (disconnect s) = reconnectAttempts s.
Proof.
  unfold disconnect. cbn. destruct (ws s) as [k|] eqn:Hw; [|fields].
  unfold terminate. cbn. destruct (sockets s !! k) as [[]|]; fields.
Qed.

(** The ping interval runs exactly while the bridge counts itself
    connected; every event keeps it so. *)
Lemma step_keeps_ping_with_connected (e : event) (s s' : state) :
  pingInterval s = connected s ->
  step e s = Some s' ->
  pingInterval s' = connected s'.
Proof.
  intros Hinv Hstep. destruct e; cbn in Hstep.
  - destruct (sockets s !! k) as [[]|]; try discriminate.
    injection Hstep as <-.
    match goal with |- context [on_open ?a ?b ?t] =>
      destruct (on_open_link a b t) as (-> & -> & _) end.
    reflexivity.
  - destruct (sockets s !! k) as [[]|]; try discriminate.
    injection Hstep as <-.
    destruct (handleMessage_link m s) as [-> ->]. exact Hinv.
  - destruct (sockets s !! k) as [[]|]; try discriminate;
      injection Hstep as <-; exact Hinv.
  - destruct (sockets s !! k) as [[]|]; try discriminate;
      injection Hstep as <-; reflexivity.
  - destruct (reconnectTimer s) as [[d []]|]; try discriminate.
    injection Hstep as <-. unfold on_reconnect_timer.
    match goal with |- context [connect ?t] =>
      destruct (connect_link t) as (-> & -> & _) end.
    exact Hinv.
  - destruct (pingInterval s) eqn:Hp; [|discriminate].
    injection Hstep as <-. unfold on_ping.
    destruct (connected s) eqn:Hc; [|discriminate].
    match goal with |- context [sendMessage ?m ?t] =>
      destruct (sendMessage_link m t) as (-> & -> & _) end.
    rewrite Hp, Hc. reflexivity.
  - injection Hstep as <-. unfold listTools_timeout.
    destruct (truthy_id (Some i)); [|exact Hinv].
    destruct (messageHandlers s !! i); exact Hinv.
  - injection Hstep as <-. unfold executeTool_timeout.
    destruct (truthy_id (Some i)); [|exact Hinv].
    destruct (messageHandlers s !! i); exact Hinv.
  - injection Hstep as <-.
    destruct (connect_link s) as (-> & -> & _). exact Hinv.
  - injection Hstep as <-.
    destruct (disconnect_link s) as (-> & -> & _). reflexivity.
  - injection Hstep as <-. unfold dispose.
    cbn [pingInterval connected set_subscribers].
    destruct (disconnect_link s) as (-> & -> & _). reflexivity.
  - injection Hstep as <-.
    destruct (sendMessage_link m s) as (-> & -> & _). exact Hinv.
  - injection Hstep as <-. unfold listTools.
    match goal with |- context [sendMessage ?m ?t] =>
      destruct (sendMessage_link m t) as (-> & -> & _) end.
    exact Hinv.
  - injection Hstep as <-. unfold executeTool.
    match goal with |- context [sendMessage ?m ?t] =>
      destruct (sendMessage_link m t) as (-> & -> & _) end.
    exact Hinv.
  - injection Hstep as <-. exact Hinv.
Qed.

(** X2.  In every state the bridge reaches from its construction,
    whatever its url, the ping interval is running exactly when
    [connected] is set; so a ping timer never fires on a bridge that
    counts itself disconnected. *)
Theorem ping_runs_exactly_while_connected
    (accepted : bool) (es : list event) (s : state) :
  run es (init_with accepted) = Some s ->
  pingInterval s = connected s /\
  (forall now, connected s = false -> step (PingTimer now) s = None).
Proof.
  intros Hrun.
  assert (Hinv : pingInterval s = connected s).
  { assert (H0 : pingInterval (init_with accepted) = connected (init_with accepted))
      by reflexivity.
    revert Hrun H0. generalize (init_with accepted).
    induction es as [|e es IH]; intros s0 Hrun H0.
    - cbn in Hrun. injection Hrun as <-. exact H0.
    - cbn in Hrun. destruct (step e s0) as [s1|] eqn:Hstep; [|discriminate].
      apply (IH s1 Hrun). eapply step_keeps_ping_with_connected; eauto. }
  split; [exact Hinv|].
  intros now Hc. cbn. rewrite Hinv, Hc. reflexivity.
Qed.

Lemma ping_runs_exactly_while_connected_witness :
  (exists s,
     run [CallConnect; SockOpen 0 5 "r0"; PingTimer 9; SockClose 0] init = Some s /\
     pingInterval s = false /\ connected s = false /\
     step (PingTimer 10) s = None).
Proof.
  destruct (run [CallConnect; SockOpen 0 5 "r0"; PingTimer 9; SockClose 0] init)
    as [s|] eqn:Hrun; [|vm_compute in Hrun; discriminate].
  exists s. split; [reflexivity|].
  destruct (ping_runs_exactly_while_connected true _ s Hrun) as [Hinv Hno].
  assert (Hc : connected s = false).
  { vm_compute in Hrun. injection Hrun as <-. reflexivity. }
  split; [rewrite Hinv; exact Hc|]. split; [exact Hc|].
  apply Hno. exact Hc.
Defined.

(** ** Sending *)

(** Sends on a bridge that is not connected: the queue grows, nothing
    is written, and each [connect] opens a socket or, with a url the
    constructor rejects, none. *)
Lemma send_all_disconnected (ms : list MCPMessage) (s : state) :
  connected s = false ->
  let s' := fold_left (fun st m => sendMessage m st) ms s in
  messageQueue s' = messageQueue s ++ ms /\
  sent s' = sent s /\
  connected s' = false /\
  urlAccepted s' = urlAccepted s /\
  sockets s' = sockets s ++
               replicate (if urlAccepted s then length ms else 0%nat) CONNECTING /\
  ws s' = if urlAccepted s && (0 <? length ms)%nat
          then Some (length (sockets s) + length ms - 1)%nat
          else ws s.
Proof.
  intros Hc. cbn zeta. revert s Hc.
  induction ms as [|m ms IH] using rev_ind; intros s Hc.
  - cbn. destruct (urlAccepted s); rewrite !app_nil_r; repeat split; auto.
  - rewrite fold_left_app. cbn [fold_left].
    destruct (IH s Hc) as (Hq & Hsent & Hc' & Hu & Hs & Hw).
    set (t := fold_left (fun st m0 => sendMessage m0 st) ms s) in *.
    assert (Hpos : (0 <? length (ms ++ [m]))%nat = true)
      by (apply Nat.ltb_lt; rewrite length_app; cbn; lia).
    rewrite Hpos, andb_true_r.
    unfold sendMessage. rewrite Hc'. cbn. rewrite Hc'. cbn.
    unfold connect. cbn. rewrite Hc', Hu.
    destruct (urlAccepted s) eqn:Hurl; cbn; rewrite ?Hu, ?Hurl, Hq, Hs.
    + rewrite !length_app, length_replicate. cbn [length].
      rewrite replicate_add. cbn [replicate]. rewrite !app_assoc.
      repeat split; try assumption. f_equal. lia.
    + cbn [replicate]. rewrite !app_nil_r, <- app_assoc.
      repeat split; try assumption.
Qed.



Lemma send_all_open (k : nat) (q : list MCPMessage) (s : state) :
  connected s = true -> ws s = Some k -> sockets s !! k = Some OPEN ->
  let s' := fold_left (fun st m => sendMessage m st) q s in
  sent s' = rev (map (fun m => (k, m)) q) ++ sent s /\
  messageQueue s' = messageQueue s /\
  connected s' = true /\ ws s' = Some k /\ sockets s' = sockets s.
Proof.
  cbn zeta. revert s. induction q as [|m q IH]; intros s Hc Hw Hk.
  - cbn. auto.
  - cbn [fold_left].
    assert (Hm : sendMessage m s = set_sent ((k, m) :: sent s) s).
    { unfold sendMessage. rewrite Hc, Hw. unfold ws_send. rewrite Hk. reflexivity. }
    rewrite Hm.
    destruct (IH (set_sent ((k, m) :: sent s) s) Hc Hw Hk)
      as (H1 & H2 & H3 & H4 & H5).
    rewrite H1, H2, H3, H4, H5. cbn. rewrite <- app_assoc. auto.
Qed.

Lemma send_all_not_open (k : nat) (q : list MCPMessage) (s : state) :
  connected s = true -> ws s = Some k -> sockets s !! k <> Some OPEN ->
  fold_left (fun st m => sendMessage m st) q s = s.
Proof.
  revert s. induction q as [|m q IH]; intros s Hc Hw Hk; [reflexivity|].
  cbn [fold_left].
  assert (Hm : sendMessage m s = s).
  { unfold sendMessage. rewrite Hc, Hw. unfold ws_send.
    destruct (sockets s !! k) as [[]|]; try reflexivity. contradiction. }
  rewrite Hm. apply IH; assumption.
Qed.

(** X4.  On a connected bridge whose socket is open, the queue is
    flushed oldest first and left empty. *)
Theorem processMessageQueue_sends_oldest_first (k : nat) (s : state) :
  connected s = true ->
  ws s = Some k ->
  sockets s !! k = Some OPEN ->
  messageQueue (processMessageQueue s) = [] /\
  sent (processMessageQueue s) =
    rev (map (fun m => (k, m)) (messageQueue s)) ++ sent s.
Proof.
  intros Hc Hw Hk. unfold processMessageQueue. rewrite Hc. cbn [negb orb].
  destruct (messageQueue s) as [|m q] eqn:Hq; cbn [length Nat.eqb].
  - rewrite Hq. auto.
  - destruct (send_all_open k (m :: q) (set_messageQueue [] s) Hc Hw Hk)
      as (H1 & H2 & _).
    rewrite H1, H2. auto.
Qed.

Lemma processMessageQueue_sends_oldest_first_witness :
  let t := set_connected true (set_sockets [CONNECTING; OPEN] two_queued) in
  connected t = true /\
  ws t = Some 1%nat /\
  sockets t !! 1%nat = Some OPEN /\
  messageQueue (processMessageQueue t) = [] /\
  sent (processMessageQueue t) = [(1%nat, listing_reply); (1%nat, late_reply)].
Proof.
  cbv zeta. split; [reflexivity|]. split; [reflexivity|]. split; [reflexivity|].
  apply (processMessageQueue_sends_oldest_first 1
           (set_connected true (set_sockets [CONNECTING; OPEN] two_queued))
           eq_refl eq_refl eq_refl).
Defined.

(** X5.  The flush goes to the socket the bridge holds, not to the
    socket that opened: when the socket held is not open, [ws.send]
    fails for every queued message, the failure is caught, and the
    queue is left empty with nothing sent. *)
Theorem processMessageQueue_drops_queue_when_socket_not_open
    (k : nat) (s : state) :
  connected s = true ->
  ws s = Some k ->
  sockets s !! k <> Some OPEN ->
  messageQueue (processMessageQueue s) = [] /\
  sent (processMessageQueue s) = sent s.
Proof.
  intros Hc Hw Hk. unfold processMessageQueue. rewrite Hc. cbn [negb orb].
  destruct (messageQueue s) as [|m q] eqn:Hq; cbn [length Nat.eqb].
  - rewrite Hq. auto.
  - rewrite (send_all_not_open k (m :: q) (set_messageQueue [] s) Hc Hw Hk).
    auto.
Qed.

Lemma processMessageQueue_drops_queue_when_socket_not_open_witness :
  let t := set_connected true two_queued in
  connected t = true /\
  ws t = Some 1%nat /\
  sockets t !! 1%nat <> Some OPEN /\
  messageQueue t = [late_reply; listing_reply] /\
  messageQueue (processMessageQueue t) = [] /\
  sent (processMessageQueue t) = sent t.
Proof.
  cbv zeta.
  assert (Hk : sockets (set_connected true two_queued) !! 1%nat <> Some OPEN).
  { vm_compute. intros H. discriminate H. }
  split; [reflexivity|]. split; [reflexivity|]. split; [exact Hk|].
  split; [reflexivity|].
  apply (processMessageQueue_drops_queue_when_socket_not_open 1
           (set_connected true two_queued) eq_refl eq_refl Hk).
Defined.

(** X6.  Messages were sent while the bridge was not connected, each
    send opening a socket, and one of the sockets still connecting
    opens.  Its [open] handler flushes the queue to the socket the
    bridge holds, which is the newest one.  If that is the socket that
    opened, the whole queue goes out on it, oldest first, and then the
    connect message.  If an older socket opened, the newest one is still
    connecting: every [ws.send] throws and is caught, the connect
    message included, and the queue is left empty with nothing written;
    the queued messages are lost. *)
Theorem queue_is_sent_only_if_newest_socket_opens
    (ms : list MCPMessage) (k : nat) (now : Z) (rnd : string) (s : state) :
  connected s = false ->
  urlAccepted s = true ->
  ms <> [] ->
  let s' := fold_left (fun st m => sendMessage m st) ms s in
  let newest := (length (sockets s) + length ms - 1)%nat in
  sockets s' !! k = Some CONNECTING ->
  exists s2,
    step (SockOpen k now rnd) s' = Some s2 /\
    ws s2 = Some newest /\
    connected s2 = true /\
    messageQueue s2 = [] /\
    sent s2 =
      if (k =? newest)%nat
      then (k, mk_message CONNECT (Some (generateMessageId now rnd)) (Some now))
           :: rev (map (fun q => (k, q)) (messageQueue s ++ ms)) ++ sent s
      else sent s.
Proof.
  intros Hc Hu Hne. cbn zeta. intros Hk.
  destruct (send_all_disconnected ms s Hc) as (Hq & Hsent & Hc' & _ & Hs & Hw).
  cbn zeta in Hq, Hsent, Hc', Hs, Hw.
  set (s' := fold_left (fun st m => sendMessage m st) ms s) in *.
  set (newest := (length (sockets s) + length ms - 1)%nat).
  rewrite Hu in Hs, Hw.
  assert (Hws : ws s' = Some newest) by (destruct ms; [contradiction|exact Hw]).
  clear Hw.
  assert (Hlen : (0 < length ms)%nat) by (destruct ms; [contradiction|cbn; lia]).
  assert (Hnewest : sockets s' !! newest = Some CONNECTING).
  { rewrite Hs. subst newest. rewrite lookup_app_r by lia.
    apply lookup_replicate. split; [reflexivity|lia]. }
  cbn [step]. rewrite Hk. eexists. split; [reflexivity|].
  unfold on_open.
  set (t := startPingInterval _).
  assert (Ht : connected t = true /\ ws t = Some newest /\
               sockets t = <[k := OPEN]> (sockets s') /\
               messageQueue t = messageQueue s ++ ms /\ sent t = sent s).
  { subst t. cbn. auto. }
  destruct Ht as (Htc & Htw & Hts & Htq & Htsent).
  assert (Hqne : (length (messageQueue t) =? 0)%nat = false).
  { rewrite Htq, length_app. apply Nat.eqb_neq. lia. }
  set (c := mk_message CONNECT (Some (generateMessageId now rnd)) (Some now)).
  destruct (Nat.eqb_spec k newest) as [->|Hother].
  - assert (Hopen : sockets t !! newest = Some OPEN).
    { rewrite Hts. apply list_lookup_insert_eq. eapply lookup_lt_Some; eauto. }
    assert (Hflush : processMessageQueue t =
                     fold_left (fun st m => sendMessage m st) (messageQueue t)
                       (set_messageQueue [] t)).
    { unfold processMessageQueue. rewrite Htc, Hqne. reflexivity. }
    destruct (send_all_open newest (messageQueue t) (set_messageQueue [] t)
                Htc Htw Hopen) as (H1 & H2 & H3 & H4 & H5).
    cbn zeta in H1, H2, H3, H4, H5. rewrite <- Hflush in H1, H2, H3, H4, H5.
    unfold sendMessage. rewrite H3, H4. unfold ws_send. rewrite H5.
    cbn [sockets set_messageQueue]. rewrite Hopen.
    cbn [ws connected messageQueue sent set_sent].
    rewrite H1, H2, H3, H4. cbn [messageQueue sent set_messageQueue].
    rewrite Htq, Htsent. repeat split.
  - assert (Hshut : sockets t !! newest <> Some OPEN).
    { rewrite Hts, list_lookup_insert_ne by exact Hother.
      rewrite Hnewest. discriminate. }
    assert (Hflush : processMessageQueue t = set_messageQueue [] t).
    { unfold processMessageQueue. rewrite Htc, Hqne. cbn [negb orb].
      apply (send_all_not_open newest); assumption. }
    rewrite Hflush.
    assert (Hsend : sendMessage c (set_messageQueue [] t) = set_messageQueue [] t).
    { apply (send_all_not_open newest [c]); assumption. }
    rewrite Hsend. cbn [ws connected messageQueue sent set_messageQueue].
    rewrite Htc, Htw, Htsent. repeat split.
Qed.

Lemma queue_is_sent_only_if_newest_socket_opens_witness :
  connected init = false /\
  urlAccepted init = true /\
  [late_reply; listing_reply] <> [] /\
  sockets two_queued = [CONNECTING; CONNECTING] /\
  messageQueue two_queued = [late_reply; listing_reply] /\
  (exists s2,
     step (SockOpen 1 5 "r0") two_queued = Some s2 /\
     messageQueue s2 = [] /\
     sent s2 =
       [(1%nat, mk_message CONNECT (Some (generateMessageId 5 "r0")) (Some 5));
        (1%nat, listing_reply); (1%nat, late_reply)]) /\
  (exists s2,
     step (SockOpen 0 5 "r0") two_queued = Some s2 /\
     messageQueue s2 = [] /\
     sent s2 = []).
Proof.
  assert (Hne : [late_reply; listing_reply] <> []) by discriminate.
  split; [reflexivity|]. split; [reflexivity|]. split; [exact Hne|].
  split; [reflexivity|]. split; [reflexivity|]. split.
  - destruct (queue_is_sent_only_if_newest_socket_opens
                [late_reply; listing_reply] 1 5 "r0" init eq_refl eq_refl Hne
                eq_refl) as (s2 & Hstep & _ & _ & Hq & Hsent).
    exists s2. split; [exact Hstep|]. split; [exact Hq|]. rewrite Hsent. reflexivity.
  - destruct (queue_is_sent_only_if_newest_socket_opens
                [late_reply; listing_reply] 0 5 "r0" init eq_refl eq_refl Hne
                eq_refl) as (s2 & Hstep & _ & _ & Hq & Hsent).
    exists s2. split; [exact Hstep|]. split; [exact Hq|]. rewrite Hsent. reflexivity.
Defined.

(** ** Disconnecting *)

Lemma disconnect_fixed (d : state) :
  connected d = false -> ws d = None -> pingInterval d = false ->
  reconnectTimer d = None -> disconnect d = d.
Proof.
  destruct d as [u w c q h t a rt p hp so su se de st]. cbn.
  intros -> -> -> ->. reflexivity.
Qed.

(** X7.  [disconnect] leaves the bridge without socket, ping interval
    or reconnect timer, and a second [disconnect] changes nothing more.
    It keeps what is queued and what is pending: no queued message is
    dropped and no handler is removed. *)
Theorem disconnect_is_idempotent_and_keeps_queue (s : state) :
  disconnect (disconnect s) = disconnect s /\
  connected (disconnect s) = false /\
  ws (disconnect s) = None /\
  pingInterval (disconnect s) = false /\
  reconnectTimer (disconnect s) = None /\
  messageQueue (disconnect s) = messageQueue s /\
  messageHandlers (disconnect s) = messageHandlers s.
Proof.
  destruct (disconnect_link s) as (Hc & Hp & Hw & Ht & Hq & _).
  destruct (disconnect_frame s) as [Hh _].
  split; [|repeat split; assumption].
  apply disconnect_fixed; assumption.
Qed.

(** ** Reply and timer *)

Lemma timeout_of_not_pending (h : handler) (i : string) (s : state) :
  messageHandlers s !! i = None -> timeout_of h i s = s.
Proof.
  intros Hn. destruct h as [p|p]; cbn [timeout_of];
    [unfold listTools_timeout|unfold executeTool_timeout];
    destruct (truthy_id (Some i)); try reflexivity; rewrite Hn; reflexivity.
Qed.

Lemma handleMessage_matched_settled (h : handler) (i : string) (m : MCPMessage)
    (s : state) :
  messageHandlers s !! i = Some h ->
  truthy_id (m_id m) = Some i ->
  exists o, settled (handleMessage m s) = (handler_promise h, o) :: settled s.
Proof.
  intros Hh Hid. unfold handleMessage. rewrite Hid.
  set (s1 := match String.eqb (m_type m) LIST_TOOLS, m_tools m with
             | true, Some l => set_tools l s
             | _, _ => s
             end).
  assert (Hs1 : messageHandlers s1 = messageHandlers s /\ settled s1 = settled s).
  { subst s1. destruct (String.eqb (m_type m) LIST_TOOLS), (m_tools m); auto. }
  destruct Hs1 as [Hh1 Hs1].
  cbn [fire messageHandlers set_delivered]. rewrite Hh1, Hh.
  destruct h as [p|p]; cbn.
  - destruct (m_tools m); cbn; rewrite Hs1; eexists; reflexivity.
  - destruct (String.eqb (m_type m) ERROR);
      [|destruct (String.eqb (m_type m) TOOL_RESULT)];
      cbn; rewrite Hs1; eexists; reflexivity.
Qed.

(** A message changes no array: it can only make another array the
    catalog, or (through the handler of a listing) add a new one. *)
Lemma handleMessage_not_pending_heap (i : string) (m : MCPMessage) (s : state) :
  truthy_id (m_id m) = Some i ->
  messageHandlers s !! i = None ->
  heap (handleMessage m s) = heap s.
Proof.
  intros Hid Hnone. unfold handleMessage. rewrite Hid.
  set (s1 := match String.eqb (m_type m) LIST_TOOLS, m_tools m with
             | true, Some l => set_tools l s
             | _, _ => s
             end).
  assert (Hs1 : messageHandlers s1 = messageHandlers s /\ heap s1 = heap s).
  { subst s1. destruct (String.eqb (m_type m) LIST_TOOLS), (m_tools m); auto. }
  destruct Hs1 as [Hh1 Hs1].
  cbn [fire messageHandlers set_delivered]. rewrite Hh1, Hnone. exact Hs1.
Qed.

(** X8.  A pending request is settled once, by whichever comes first:
    a reply with its id settles the promise and removes the entry, and
    the timer that fires afterwards does nothing; when the timer fires
    first, it settles the promise (a tool execution is rejected with
    the timeout error, a tool listing is resolved with a new array that
    is empty), and the reply that arrives afterwards settles nothing and
    leaves that array empty. *)
Theorem reply_and_timer_settle_once
    (h : handler) (i : string) (m : MCPMessage) (s : state) :
  messageHandlers s !! i = Some h ->
  truthy_id (m_id m) = Some i ->
  (exists o, settled (handleMessage m s) = (handler_promise h, o) :: settled s) /\
  timeout_of h i (handleMessage m s) = handleMessage m s /\
  settled (handleMessage m (timeout_of h i s)) =
    (handler_promise h, timeout_outcome h s) :: settled s /\
  match h with
  | ExecuteToolHandler _ =>
      timeout_outcome h s = Rejected "Tool execution timed out"
  | ListToolsHandler _ =>
      exists l, timeout_outcome h s = Resolved (VArray l) /\
                elements l (timeout_of h i s) = [] /\
                elements l (handleMessage m (timeout_of h i s)) = []
  end.
Proof.
  intros Hh Hid. destruct (truthy_id_Some i _ Hid) as [_ Hi].
  split; [eapply handleMessage_matched_settled; eauto|]. split.
  - apply timeout_of_not_pending.
    rewrite handleMessage_handlers, Hid. apply lookup_delete_eq.
  - destruct (timeout_of_pending h h i s Hi Hh) as (Hgone & Hlog & Hout).
    destruct (handleMessage_not_pending i m (timeout_of h i s) Hid Hgone)
      as [_ ->].
    split; [exact Hlog|].
    destruct h as [p|p]; cbn [timeout_outcome] in *.
    + eexists. split; [reflexivity|]. split; [exact Hout|].
      unfold elements in *.
      rewrite (handleMessage_not_pending_heap i m _ Hid Hgone). exact Hout.
    + reflexivity.
Qed.

Lemma reply_and_timer_settle_once_witness :
  messageHandlers pending_bridge !! pending_id = Some (ExecuteToolHandler 0) /\
  truthy_id (m_id late_reply) = Some pending_id /\
  executeTool_timeout pending_id 0 (handleMessage late_reply pending_bridge) =
    handleMessage late_reply pending_bridge /\
  settled (handleMessage late_reply (executeTool_timeout pending_id 0 pending_bridge))
    = [(0%nat, Rejected "Tool execution timed out")] /\
  messageHandlers listing_bridge !! listing_id = Some (ListToolsHandler 1) /\
  truthy_id (m_id listing_reply) = Some listing_id /\
  listTools_timeout listing_id 1 (handleMessage listing_reply listing_bridge) =
    handleMessage listing_reply listing_bridge /\
  settled (handleMessage listing_reply (listTools_timeout listing_id 1 listing_bridge))
    = [(1%nat, Resolved (VArray 1))] /\
  elements 1 (handleMessage listing_reply
                (listTools_timeout listing_id 1 listing_bridge)) = [].
Proof.
  assert (Hh : messageHandlers pending_bridge !! pending_id =
               Some (ExecuteToolHandler 0)) by (vm_compute; reflexivity).
  assert (Hid : truthy_id (m_id late_reply) = Some pending_id) by reflexivity.
  assert (Hh' : messageHandlers listing_bridge !! listing_id =
                Some (ListToolsHandler 1)) by (vm_compute; reflexivity).
  assert (Hid' : truthy_id (m_id listing_reply) = Some listing_id) by reflexivity.
  split; [exact Hh|]. split; [exact Hid|].
  destruct (reply_and_timer_settle_once (ExecuteToolHandler 0) pending_id
              late_reply pending_bridge Hh Hid) as (_ & H2 & H3 & _).
  split; [exact H2|]. split; [cbn [timeout_of] in H3; rewrite H3; reflexivity|].
  split; [exact Hh'|]. split; [exact Hid'|].
  destruct (reply_and_timer_settle_once (ListToolsHandler 1) listing_id
              listing_reply listing_bridge Hh' Hid')
    as (_ & H2' & H3' & l & Hl & _ & Hempty).
  cbn [timeout_of] in H2', H3', Hempty.
  assert (Hl1 : l = 1%nat) by (vm_compute in Hl; congruence). subst l.
  split; [exact H2'|]. split; [rewrite H3'; reflexivity|exact Hempty].
Defined.

(** X9.  What a reply does to a pending tool execution: an [error]
    reply rejects with its error text, or with 'Unknown error' when the
    text is missing or empty; a [tool_result] resolves with its result,
    or with [undefined] when there is none; a reply of any other type
    rejects and names the type. *)
Theorem executeTool_reply_outcome
    (i : string) (p : nat) (m : MCPMessage) (s : state) :
  messageHandlers s !! i = Some (ExecuteToolHandler p) ->
  truthy_id (m_id m) = Some i ->
  (m_type m = ERROR ->
   settled (handleMessage m s) =
     (p, Rejected (match m_error m with
                   | Some e => if String.eqb e "" then "Unknown error" else e
                   | None => "Unknown error"
                   end)%string) :: settled s) /\
  (m_type m = TOOL_RESULT ->
   settled (handleMessage m s) =
     (p, Resolved (match m_result m with
                   | Some j => VJson j
                   | None => VUndefined
                   end)) :: settled s) /\
  (m_type m <> ERROR -> m_type m <> TOOL_RESULT ->
   settled (handleMessage m s) =
     (p, Rejected ("Unexpected response type: " ++ m_type m)%string) :: settled s).
Proof.
  intros Hh Hid.
  assert (H : settled (handleMessage m s) =
              settled (call_handler (ExecuteToolHandler p) m s)).
  { unfold handleMessage. rewrite Hid.
    set (s1 := match String.eqb (m_type m) LIST_TOOLS, m_tools m with
               | true, Some l => set_tools l s
               | _, _ => s
               end).
    assert (Hs1 : messageHandlers s1 = messageHandlers s /\ settled s1 = settled s).
    { subst s1. destruct (String.eqb (m_type m) LIST_TOOLS), (m_tools m); auto. }
    destruct Hs1 as [Hh1 Hs1].
    cbn [fire messageHandlers set_delivered]. rewrite Hh1, Hh. cbn.
    destruct (String.eqb (m_type m) ERROR);
      [|destruct (String.eqb (m_type m) TOOL_RESULT)]; cbn; rewrite Hs1; reflexivity. }
  rewrite H. cbn [call_handler]. split; [|split].
  - intros ->. reflexivity.
  - intros ->. reflexivity.
  - intros He Hr.
    destruct (String.eqb_spec (m_type m) ERROR); [contradiction|].
    destruct (String.eqb_spec (m_type m) TOOL_RESULT); [contradiction|].
    reflexivity.
Qed.

Lemma executeTool_reply_outcome_witness :
  messageHandlers pending_bridge !! pending_id = Some (ExecuteToolHandler 0) /\
  truthy_id (m_id late_reply) = Some pending_id /\
  settled (handleMessage late_reply pending_bridge) =
    [(0%nat, Resolved (VJson (JArr [JStr "a.ts"; JStr "b.ts"])))] /\
  settled (handleMessage (mk_message ERROR (Some pending_id) None) pending_bridge) =
    [(0%nat, Rejected "Unknown error")] /\
  settled (handleMessage (mk_message PONG (Some pending_id) None) pending_bridge) =
    [(0%nat, Rejected "Unexpected response type: pong")].
Proof.
  assert (Hh : messageHandlers pending_bridge !! pending_id =
               Some (ExecuteToolHandler 0)) by (vm_compute; reflexivity).
  split; [exact Hh|]. split; [reflexivity|].
  split; [|split].
  - destruct (executeTool_reply_outcome pending_id 0 late_reply pending_bridge
                Hh eq_refl) as (_ & H & _).
    rewrite (H eq_refl). reflexivity.
  - destruct (executeTool_reply_outcome pending_id 0
                (mk_message ERROR (Some pending_id) None) pending_bridge
                Hh eq_refl) as (H & _ & _).
    rewrite (H eq_refl). reflexivity.
  - destruct (executeTool_reply_outcome pending_id 0
                (mk_message PONG (Some pending_id) None) pending_bridge
                Hh eq_refl) as (_ & _ & H).
    rewrite H by discriminate. reflexivity.
Defined.

(** ** The catalog and the promise of [listTools] *)

Lemma handleMessage_listTools_state (i : string) (p : nat) (m : MCPMessage)
    (s : state) :
  messageHandlers s !! i = Some (ListToolsHandler p) ->
  truthy_id (m_id m) = Some i ->
  let s' := handleMessage m s in
  match m_tools m with
  | Some l =>
      tools s' = l /\ heap s' = heap s /\
      settled s' = (p, Resolved (VArray l)) :: settled s
  | None =>
      tools s' = length (heap s) /\ heap s' = heap s ++ [[]] /\
      settled s' = (p, Resolved (VArray (length (heap s)))) :: settled s
  end.
Proof.
  intros Hh Hid. cbn zeta. unfold handleMessage. rewrite Hid.
  set (s1 := match String.eqb (m_type m) LIST_TOOLS, m_tools m with
             | true, Some l => set_tools l s
             | _, _ => s
             end).
  assert (Hs1 : messageHandlers s1 = messageHandlers s /\ settled s1 = settled s /\
                heap s1 = heap s).
  { subst s1. destruct (String.eqb (m_type m) LIST_TOOLS), (m_tools m); auto. }
  destruct Hs1 as (Hh1 & Hs1 & Hp1).
  cbn [fire messageHandlers set_delivered]. rewrite Hh1, Hh.
  cbn. destruct (m_tools m) as [l|]; cbn; rewrite ?Hs1, ?Hp1; auto.
Qed.

(** X10.  [listTools] hands out the catalog itself, not a copy: a
    reply with a tools array makes that array the catalog and resolves
    the promise with the same array, so a change of the array the caller
    received shows in what [getTools] returns afterwards. *)
Theorem listTools_resolves_with_the_catalog_array
    (i : string) (p l : nat) (m : MCPMessage) (s : state)
    (f : list MCPTool -> list MCPTool) :
  messageHandlers s !! i = Some (ListToolsHandler p) ->
  truthy_id (m_id m) = Some i ->
  m_tools m = Some l ->
  is_Some (heap s !! l) ->
  let s' := handleMessage m s in
  settled s' = (p, Resolved (VArray l)) :: settled s /\
  tools s' = l /\
  let s'' := mutate_array l f s' in
  elements (fst (getTools s'')) (snd (getTools s'')) = f (elements l s).
Proof.
  intros Hh Hid Hm [a Ha]. cbn zeta.
  pose proof (handleMessage_listTools_state i p m s Hh Hid) as H.
  cbn zeta in H. rewrite Hm in H. destruct H as (Ht & Hp & Hs).
  split; [exact Hs|]. split; [exact Ht|].
  rewrite getTools_elements. unfold elements, mutate_array. cbn.
  rewrite Ht, Hp, list_lookup_alter_eq, Ha. reflexivity.
Qed.

Lemma listTools_resolves_with_the_catalog_array_witness :
  let s := set_heap [[]; [a_tool]] listing_bridge in
  let m := {| m_type := LIST_TOOLS; m_id := Some listing_id;
              m_timestamp := None; m_tools := Some 1%nat; m_tool := None;
              m_parameters := None; m_result := None; m_error := None |} in
  messageHandlers s !! listing_id = Some (ListToolsHandler 1) /\
  is_Some (heap s !! 1%nat) /\
  settled (handleMessage m s) = [(1%nat, Resolved (VArray 1))] /\
  elements (fst (getTools (mutate_array 1 (fun _ => []) (handleMessage m s))))
           (snd (getTools (mutate_array 1 (fun _ => []) (handleMessage m s)))) = [].
Proof.
  cbv zeta.
  assert (Hh : messageHandlers (set_heap [[]; [a_tool]] listing_bridge)
                 !! listing_id = Some (ListToolsHandler 1))
    by (vm_compute; reflexivity).
  assert (Ha : is_Some (heap (set_heap [[]; [a_tool]] listing_bridge) !! 1%nat))
    by (eexists; reflexivity).
  split; [exact Hh|]. split; [exact Ha|].
  match goal with |- context [handleMessage ?m ?s] =>
    destruct (listTools_resolves_with_the_catalog_array listing_id 1 1 m s
                (fun _ => []) Hh eq_refl eq_refl Ha) as (H1 & _ & H3) end.
  split; [exact H1|exact H3].
Defined.

(** X11.  A reply to [listTools] that has no tools field empties the
    catalog: the handler puts a new empty array in its place and
    resolves the promise with it. *)
Theorem listTools_reply_without_tools_empties_the_catalog
    (i : string) (p : nat) (m : MCPMessage) (s : state) :
  messageHandlers s !! i = Some (ListToolsHandler p) ->
  truthy_id (m_id m) = Some i ->
  m_tools m = None ->
  let s' := handleMessage m s in
  elements (tools s') s' = [] /\
  settled s' = (p, Resolved (VArray (tools s'))) :: settled s /\
  elements (fst (getTools s')) (snd (getTools s')) = [].
Proof.
  intros Hh Hid Hm. cbn zeta.
  pose proof (handleMessage_listTools_state i p m s Hh Hid) as H.
  cbn zeta in H. rewrite Hm in H. destruct H as (Ht & Hp & Hs).
  assert (He : elements (tools (handleMessage m s)) (handleMessage m s) = []).
  { unfold elements. rewrite Ht, Hp, lookup_app_r by lia.
    rewrite Nat.sub_diag. reflexivity. }
  split; [exact He|]. split; [rewrite Ht; exact Hs|].
  rewrite getTools_elements. exact He.
Qed.

Lemma listTools_reply_without_tools_empties_the_catalog_witness :
  let s := set_tools 1 (set_heap [[]; [a_tool]] listing_bridge) in
  let m := mk_message ERROR (Some listing_id) None in
  messageHandlers s !! listing_id = Some (ListToolsHandler 1) /\
  elements (tools s) s = [a_tool] /\
  elements (tools (handleMessage m s)) (handleMessage m s) = [] /\
  settled (handleMessage m s) = [(1%nat, Resolved (VArray 2))].
Proof.
  cbv zeta.
  assert (Hh : messageHandlers (set_tools 1 (set_heap [[]; [a_tool]] listing_bridge))
                 !! listing_id = Some (ListToolsHandler 1))
    by (vm_compute; reflexivity).
  split; [exact Hh|]. split; [reflexivity|].
  match goal with |- context [handleMessage ?m ?s] =>
    destruct (listTools_reply_without_tools_empties_the_catalog listing_id 1 m s
                Hh eq_refl eq_refl) as (H1 & H2 & _) end.
  split; [exact H1|]. rewrite H2. reflexivity.
Defined.

(** ** Broadcast *)

(** X12.  [MCPBridge.handleMessage] calls every subscriber once with
    the message, in the order of subscription, whether or not a handler
    matches; after [dispose] there are no subscribers left, and a
    message that still arrives is delivered to nobody. *)
Theorem bridge_broadcast_reaches_all_until_dispose (m : MCPMessage) (s : state) :
  delivered (handleMessage m s) =
    rev (map (fun n => (n, m)) (subscribers s)) ++ delivered s /\
  delivered (handleMessage m (dispose s)) = delivered s.
Proof.
  split; [apply bridge_handleMessage_broadcasts|].
  rewrite bridge_handleMessage_broadcasts. cbn [dispose subscribers set_subscribers].
  cbn [map rev app delivered].
  unfold disconnect. cbn. destruct (ws s) as [k|]; [|reflexivity].
  cbn. unfold terminate. cbn. destruct (sockets s !! k) as [[]|]; reflexivity.
Qed.

(** ** Backoff *)

(** X13.  From any attempt counter on, the delays of reconnects
    scheduled in a row never decrease and stay between 1000 and 30000
    ms; from the sixth attempt on every delay is 30000 ms. *)
Theorem reconnect_delays_grow_to_the_cap (n : nat) (s : state) :
  length (reconnect_delays n s) = n /\
  (forall k d, reconnect_delays n s !! k = Some d -> 1000 <= d <= 30000) /\
  (forall j k dj dk, (j <= k)%nat ->
     reconnect_delays n s !! j = Some dj ->
     reconnect_delays n s !! k = Some dk -> dj <= dk) /\
  (forall k d, (5 <= reconnectAttempts s + k)%nat ->
     reconnect_delays n s !! k = Some d -> d = 30000).
Proof.
  rewrite reconnect_delays_closed_form.
  assert (Hlk : forall k d,
    map (fun k0 => Z.min (2 ^ Z.of_nat (reconnectAttempts s + k0) * 1000) 30000)
        (seq 0 n) !! k = Some d ->
    d = Z.min (2 ^ Z.of_nat (reconnectAttempts s + k) * 1000) 30000).
  { intros k d H. rewrite list_lookup_fmap in H.
    destruct (seq 0 n !! k) as [k'|] eqn:Hk; [|discriminate].
    apply lookup_seq in Hk as [-> _]. cbn in H. injection H as <-. reflexivity. }
  split; [rewrite length_map, length_seq; reflexivity|]. split; [|split].
  - intros k d H. apply Hlk in H. subst d.
    assert (1 <= 2 ^ Z.of_nat (reconnectAttempts s + k))
      by (apply (Z.pow_le_mono_r 2 0); lia).
    lia.
  - intros j k dj dk Hjk Hj Hk. apply Hlk in Hj, Hk. subst dj dk.
    assert (2 ^ Z.of_nat (reconnectAttempts s + j) <=
            2 ^ Z.of_nat (reconnectAttempts s + k))
      by (apply Z.pow_le_mono_r; lia).
    lia.
  - intros k d H5 H. apply Hlk in H. subst d.
    assert (2 ^ 5 <= 2 ^ Z.of_nat (reconnectAttempts s + k))
      by (apply Z.pow_le_mono_r; lia).
    change (2 ^ 5) with 32 in *. lia.
Qed.

(** ** After [disconnect] *)

Lemma disconnect_leaves_close_handler_armed_witness :
  ws connected_bridge = Some 0%nat /\
  sockets connected_bridge !! 0%nat = Some OPEN /\
  exists s1 s2,
    step (SockClose 0) (disconnect connected_bridge) = Some s1 /\
    reconnectTimer s1 = Some (Timer 1000 true) /\
    step ReconnectTimer s1 = Some s2 /\
    ws s2 = Some 1%nat /\
    sockets s2 = [CLOSED; CONNECTING].
Proof.
  split; [reflexivity|]. split; [reflexivity|].
  destruct (disconnect_leaves_close_handler_armed connected_bridge 0 OPEN
              eq_refl eq_refl) as (s1 & s2 & H1 & _ & H2 & H3 & H4);
    [discriminate|].
  exists s1, s2. split; [exact H1|]. split; [exact H2|]. split; [exact H3|].
  split; [exact H4|].
  vm_compute in H1. injection H1 as <-.
  vm_compute in H3. injection H3 as <-. reflexivity.
Defined.

End BridgeFacts.

(** * Facts about the child-process bridge *)

Section ProcFacts.

Import Json Proc ProcScenario.

(** ** Text *)

Lemma indexOf_aux_app (c : ascii) (b x : text) (i k : nat) :
  indexOf_aux c b i = Some k -> indexOf_aux c (b ++ x) i = Some k.
Proof.
  revert i. induction b as [|a b IH]; intros i; cbn; [discriminate|].
  destruct (Ascii.eqb a c); [auto|]. apply IH.
Qed.

Lemma indexOf_aux_bounds (c : ascii) (b : text) (i k : nat) :
  indexOf_aux c b i = Some k -> (i <= k < i + length b)%nat.
Proof.
  revert i. induction b as [|a b IH]; intros i; cbn; [discriminate|].
  destruct (Ascii.eqb a c).
  - intros [= <-]. lia.
  - intros H. apply IH in H. lia.
Qed.

Lemma indexOf_bounds (c : ascii) (b : text) (k : nat) :
  indexOf c b 0 = Some k -> (k < length b)%nat.
Proof.
  unfold indexOf. rewrite drop_0. intros H.
  apply indexOf_aux_bounds in H. lia.
Qed.

Lemma indexOf_app (c : ascii) (b x : text) (k : nat) :
  indexOf c b 0 = Some k -> indexOf c (b ++ x) 0 = Some k.
Proof. unfold indexOf. rewrite !drop_0. apply indexOf_aux_app. Qed.

Lemma scan_app (b x : text) (i : nat) (d : Z) (e : nat) :
  scan b i d = Some e -> scan (b ++ x) i d = Some e.
Proof.
  revert i d. induction b as [|a b IH]; intros i d; cbn; [discriminate|].
  destruct (Ascii.eqb a lbrace); [apply IH|].
  destruct (Ascii.eqb a rbrace); [|apply IH].
  destruct (d - 1 =? 0); [auto|apply IH].
Qed.

Lemma scan_bounds (b : text) (i : nat) (d : Z) (e : nat) :
  scan b i d = Some e -> (i <= e < i + length b)%nat.
Proof.
  revert i d. induction b as [|a b IH]; intros i d; cbn; [discriminate|].
  destruct (Ascii.eqb a lbrace); [intros H; apply IH in H; lia|].
  destruct (Ascii.eqb a rbrace); [|intros H; apply IH in H; lia].
  destruct (d - 1 =? 0); [intros [= <-]; lia|intros H; apply IH in H; lia].
Qed.

(** ** [handleMessage] does not look at the buffer *)

Lemma call_listener_buffer (l : listener) (m : json) (b : text) (s : state) :
  call_listener l m (set_messageBuffer b s) =
  set_messageBuffer b (call_listener l m s).
Proof.
  destruct l as [p|n]; cbn; [|reflexivity].
  destruct (type_is m Initialize); reflexivity.
Qed.

Lemma notify_buffer (fuel i : nat) (m : json) (b : text) (s : state) :
  notify fuel i m (set_messageBuffer b s) =
  set_messageBuffer b (notify fuel i m s).
Proof.
  revert i s. induction fuel as [|fuel IH]; intros i s; [reflexivity|].
  cbn [notify].
  change (onMessageListeners (set_messageBuffer b s)) with (onMessageListeners s).
  destruct (onMessageListeners s !! i) as [l|]; [|reflexivity].
  rewrite call_listener_buffer. apply IH.
Qed.

Lemma call_callback_buffer (cb : callback) (m : json) (b : text) (s : state) :
  call_callback cb m (set_messageBuffer b s) =
  set_messageBuffer b (call_callback cb m s).
Proof.
  destruct cb as [p|p|p]; cbn.
  - destruct (type_is m PromptResponse && truthy (field "content" m));
      [reflexivity|].
    destruct (type_is m Error); reflexivity.
  - destruct (type_is m ExecuteToolResponse); [reflexivity|].
    destruct (type_is m Error); reflexivity.
  - destruct (type_is m Initialize && truthy (field "tools" m)); reflexivity.
Qed.

Lemma correlate_buffer (m : json) (b : text) (s : state) :
  correlate m (set_messageBuffer b s) = set_messageBuffer b (correlate m s).
Proof.
  unfold correlate. destruct (message_id m) as [i|]; [|reflexivity].
  change (messageCallbacks (set_messageBuffer b s)) with (messageCallbacks s).
  destruct (messageCallbacks s !! i) as [cb|]; [|reflexivity].
  rewrite call_callback_buffer. reflexivity.
Qed.

Lemma handleMessage_buffer (m : json) (b : text) (s : state) :
  handleMessage m (set_messageBuffer b s) =
  set_messageBuffer b (handleMessage m s).
Proof.
  unfold handleMessage.
  change (set_handled (m :: handled (set_messageBuffer b s)) (set_messageBuffer b s))
    with (set_messageBuffer b (set_handled (m :: handled s) s)).
  change (onMessageListeners (set_messageBuffer b (set_handled (m :: handled s) s)))
    with (onMessageListeners (set_handled (m :: handled s) s)).
  rewrite notify_buffer, correlate_buffer.
  destruct (type_is m Initialize); reflexivity.
Qed.

Lemma set_messageBuffer_same (s : state) :
  set_messageBuffer (messageBuffer s) s = s.
Proof. destruct s; reflexivity. Qed.

Lemma handleMessage_messageBuffer (m : json) (s : state) :
  messageBuffer (handleMessage m s) = messageBuffer s.
Proof.
  rewrite <- (set_messageBuffer_same s) at 1.
  rewrite handleMessage_buffer. reflexivity.
Qed.

(** The same for the count of parse errors. *)
Lemma call_listener_parseErrors (l : listener) (m : json) (s : state) :
  parseErrors (call_listener l m s) = parseErrors s.
Proof.
  destruct l as [p|n]; cbn; [|reflexivity].
  destruct (type_is m Initialize); reflexivity.
Qed.

Lemma notify_parseErrors (fuel i : nat) (m : json) (s : state) :
  parseErrors (notify fuel i m s) = parseErrors s.
Proof.
  revert i s. induction fuel as [|fuel IH]; intros i s; [reflexivity|].
  cbn [notify]. destruct (onMessageListeners s !! i) as [l|]; [|reflexivity].
  rewrite IH. apply call_listener_parseErrors.
Qed.

Lemma call_callback_parseErrors (cb : callback) (m : json) (s : state) :
  parseErrors (call_callback cb m s) = parseErrors s.
Proof.
  destruct cb as [p|p|p]; cbn.
  - destruct (type_is m PromptResponse && truthy (field "content" m));
      [reflexivity|].
    destruct (type_is m Error); reflexivity.
  - destruct (type_is m ExecuteToolResponse); [reflexivity|].
    destruct (type_is m Error); reflexivity.
  - destruct (type_is m Initialize && truthy (field "tools" m)); reflexivity.
Qed.

Lemma handleMessage_parseErrors (m : json) (s : state) :
  parseErrors (handleMessage m s) = parseErrors s.
Proof.
  unfold handleMessage.
  assert (H : forall t, parseErrors (correlate m t) = parseErrors t).
  { intros t. unfold correlate. destruct (message_id m) as [i|]; [|reflexivity].
    destruct (messageCallbacks t !! i) as [cb|]; [|reflexivity].
    cbn. apply call_callback_parseErrors. }
  destruct (type_is m Initialize); cbn; rewrite H, notify_parseErrors; reflexivity.
Qed.

(** ** One round of [processOutput] *)

(** More fuel than the length of the buffer is always enough. *)
Lemma processOutput_rec_fuel (f1 f2 : nat) (s : state) :
  (length (messageBuffer s) < f1)%nat ->
  (length (messageBuffer s) < f2)%nat ->
  processOutput_rec f1 s = processOutput_rec f2 s.
Proof.
  revert f2 s. induction f1 as [|f1 IH]; intros f2 s H1 H2; [lia|].
  destruct f2 as [|f2]; [lia|]. cbn [processOutput_rec].
  destruct (indexOf lbrace (messageBuffer s) 0) as [i|] eqn:Hi; [|reflexivity].
  destruct (scan (skipn i (messageBuffer s)) i 0) as [e|]; [|reflexivity].
  destruct (parse (substring (messageBuffer s) i (e + 1))) as [m|]; [|reflexivity].
  rewrite handleMessage_messageBuffer. cbn [messageBuffer set_messageBuffer].
  destruct (0 <? length (substring_from (messageBuffer s) (e + 1)))%nat;
    [|reflexivity].
  apply indexOf_bounds in Hi.
  apply IH; cbn [messageBuffer set_messageBuffer]; unfold substring_from;
    rewrite length_skipn; lia.
Qed.

Lemma processOutput_no_start (c : text) (s : state) :
  indexOf lbrace (messageBuffer s ++ c) 0 = None ->
  processOutput c s = set_messageBuffer (messageBuffer s ++ c) s.
Proof.
  intros Hi. unfold processOutput. cbn [processOutput_rec messageBuffer set_messageBuffer].
  rewrite Hi. reflexivity.
Qed.

Lemma processOutput_no_end (c : text) (s : state) (i : nat) :
  indexOf lbrace (messageBuffer s ++ c) 0 = Some i ->
  scan (skipn i (messageBuffer s ++ c)) i 0 = None ->
  processOutput c s = set_messageBuffer (messageBuffer s ++ c) s.
Proof.
  intros Hi He. unfold processOutput. cbn [processOutput_rec messageBuffer set_messageBuffer].
  rewrite Hi, He. reflexivity.
Qed.

(** A frame that parses is handled, and the rest of the buffer is
    processed as if it had just arrived on an empty buffer. *)
Lemma processOutput_first_frame (c : text) (s : state) (i e : nat) (m : json) :
  indexOf lbrace (messageBuffer s ++ c) 0 = Some i ->
  scan (skipn i (messageBuffer s ++ c)) i 0 = Some e ->
  parse (substring (messageBuffer s ++ c) i (e + 1)) = Some m ->
  processOutput c s =
  processOutput (skipn (e + 1) (messageBuffer s ++ c))
    (set_messageBuffer [] (handleMessage m s)).
Proof.
  intros Hi He Hm. unfold processOutput at 1.
  cbn [processOutput_rec messageBuffer set_messageBuffer].
  rewrite Hi, He, Hm. rewrite handleMessage_buffer.
  cbn [messageBuffer set_messageBuffer]. unfold substring_from.
  set (rest := skipn (e + 1) (messageBuffer s ++ c)).
  change (set_messageBuffer rest (set_messageBuffer (messageBuffer s ++ c) (handleMessage m s)))
    with (set_messageBuffer rest (handleMessage m s)).
  unfold processOutput. cbn [messageBuffer set_messageBuffer app].
  change (set_messageBuffer rest (set_messageBuffer [] (handleMessage m s)))
    with (set_messageBuffer rest (handleMessage m s)).
  assert (Hlen : (length rest < length (messageBuffer s ++ c))%nat).
  { apply indexOf_bounds in Hi. subst rest. rewrite length_skipn. lia. }
  destruct (0 <? length rest)%nat eqn:Hpos.
  - apply processOutput_rec_fuel; cbn [messageBuffer set_messageBuffer]; lia.
  - apply Nat.ltb_ge in Hpos. assert (rest = []) as ->.
    { destruct rest; [reflexivity|cbn in Hpos; lia]. }
    reflexivity.
Qed.

(** A frame that does not parse is counted, and the round ends. *)
Lemma processOutput_bad_frame (c : text) (s : state) (i e : nat) :
  indexOf lbrace (messageBuffer s ++ c) 0 = Some i ->
  scan (skipn i (messageBuffer s ++ c)) i 0 = Some e ->
  parse (substring (messageBuffer s ++ c) i (e + 1)) = None ->
  parseErrors (processOutput c s) = S (parseErrors s) /\
  handled (processOutput c s) = handled s.
Proof.
  intros Hi He Hm. unfold processOutput.
  cbn [processOutput_rec messageBuffer set_messageBuffer].
  rewrite Hi, He, Hm.
  destruct (indexOf lbrace (messageBuffer s ++ c) (i + 1)); split; reflexivity.
Qed.

(** A complete frame at the head of the buffer is cut in the same way
    when more text follows. *)
Lemma first_frame_app (b x : text) (i e : nat) :
  indexOf lbrace b 0 = Some i ->
  scan (skipn i b) i 0 = Some e ->
  indexOf lbrace (b ++ x) 0 = Some i /\
  scan (skipn i (b ++ x)) i 0 = Some e /\
  substring (b ++ x) i (e + 1) = substring b i (e + 1) /\
  skipn (e + 1) (b ++ x) = skipn (e + 1) b ++ x.
Proof.
  intros Hi He.
  assert (Hib : (i < length b)%nat).
  { eapply indexOf_bounds; eauto. }
  assert (Heb : (i <= e < i + length (skipn i b))%nat) by (eapply scan_bounds; eauto).
  rewrite length_skipn in Heb.
  assert (Hskip : skipn i (b ++ x) = skipn i b ++ x).
  { rewrite skipn_app. replace (i - length b)%nat with 0%nat by lia. reflexivity. }
  split; [|split; [|split]].
  - apply indexOf_app. exact Hi.
  - rewrite Hskip. apply scan_app. exact He.
  - unfold substring. rewrite Hskip. rewrite firstn_app.
    rewrite length_skipn.
    replace (e + 1 - i - (length b - i))%nat with 0%nat by lia.
    cbn. apply app_nil_r.
  - rewrite skipn_app. replace (e + 1 - length b)%nat with 0%nat by lia.
    reflexivity.
Qed.

(** The count of parse errors never goes down. *)
Lemma processOutput_rec_parseErrors (fuel : nat) (s : state) :
  (parseErrors s <= parseErrors (processOutput_rec fuel s))%nat.
Proof.
  revert s. induction fuel as [|fuel IH]; intros s; [reflexivity|].
  cbn [processOutput_rec].
  destruct (indexOf lbrace (messageBuffer s) 0) as [i|]; [|reflexivity].
  destruct (scan (skipn i (messageBuffer s)) i 0) as [e|]; [|reflexivity].
  destruct (parse (substring (messageBuffer s) i (e + 1))) as [m|].
  - match goal with |- context [if ?c then _ else _] => destruct c end.
    + etransitivity; [|apply IH]. cbn. rewrite handleMessage_parseErrors. reflexivity.
    + cbn. rewrite handleMessage_parseErrors. reflexivity.
  - destruct (indexOf lbrace (messageBuffer s) (i + 1)); cbn; lia.
Qed.

Lemma processOutput_parseErrors (c : text) (s : state) :
  (parseErrors s <= parseErrors (processOutput c s))%nat.
Proof.
  unfold processOutput.
  etransitivity; [|apply processOutput_rec_parseErrors]. reflexivity.
Qed.

(** ** Chunking, when every frame parses *)

Lemma processOutput_app_aux (n : nat) :
  forall (s : state) (c1 c2 : text),
    (length (messageBuffer s ++ c1) <= n)%nat ->
    parseErrors (processOutput (c1 ++ c2) s) = parseErrors s ->
    processOutput c2 (processOutput c1 s) = processOutput (c1 ++ c2) s.
Proof.
  induction n as [n IH] using lt_wf_ind. intros s c1 c2 Hn Herr.
  set (b := messageBuffer s ++ c1) in *.
  assert (Hb : messageBuffer s ++ c1 ++ c2 = b ++ c2).
  { subst b. apply app_assoc. }
  assert (Hplain : processOutput c2 (set_messageBuffer b s) =
                   processOutput (c1 ++ c2) s).
  { unfold processOutput. cbn [messageBuffer set_messageBuffer].
    rewrite Hb. reflexivity. }
  destruct (indexOf lbrace b 0) as [i|] eqn:Hi.
  2:{ rewrite (processOutput_no_start c1 s Hi). exact Hplain. }
  destruct (scan (skipn i b) i 0) as [e|] eqn:He.
  2:{ rewrite (processOutput_no_end c1 s i Hi He). exact Hplain. }
  destruct (first_frame_app b c2 i e Hi He) as (Hi2 & He2 & Hsub & Hrest).
  rewrite <- Hb in Hi2, He2, Hsub, Hrest.
  destruct (parse (substring b i (e + 1))) as [m|] eqn:Hm.
  - rewrite (processOutput_first_frame c1 s i e m Hi He Hm).
    assert (Hm2 : parse (substring (messageBuffer s ++ c1 ++ c2) i (e + 1)) = Some m)
      by (rewrite Hsub; exact Hm).
    rewrite (processOutput_first_frame (c1 ++ c2) s i e m Hi2 He2 Hm2) in Herr |- *.
    rewrite Hrest in Herr |- *.
    fold b. set (s0 := set_messageBuffer [] (handleMessage m s)) in *.
    assert (Hlt : (length (skipn (e + 1) b) < length b)%nat).
    { apply indexOf_bounds in Hi. rewrite length_skipn. lia. }
    apply (IH (length (skipn (e + 1) b))); [lia|reflexivity|].
    rewrite Herr. subst s0. cbn. symmetry. apply handleMessage_parseErrors.
  - assert (Hm2 : parse (substring (messageBuffer s ++ c1 ++ c2) i (e + 1)) = None)
      by (rewrite Hsub; exact Hm).
    destruct (processOutput_bad_frame (c1 ++ c2) s i e Hi2 He2 Hm2) as [Hbad _].
    lia.
Qed.

(** Two chunks in a row do what their concatenation does in one, as
    long as the concatenation meets no frame that fails to parse. *)
Lemma processOutput_app (s : state) (c1 c2 : text) :
  parseErrors (processOutput (c1 ++ c2) s) = parseErrors s ->
  processOutput c2 (processOutput c1 s) = processOutput (c1 ++ c2) s.
Proof. apply (processOutput_app_aux (length (messageBuffer s ++ c1))). reflexivity. Qed.

(** Chunking invariance on the streams that the framer cuts right:
    if the stream, fed whole, meets no frame that fails to parse, then
    fed in any chunks it leaves the bridge in the same state, with the
    same messages decoded in the same order. *)
Lemma feed_chunks_as_whole (c : text) (cs : list text) (s : state) :
  parseErrors (processOutput (concat (c :: cs)) s) = parseErrors s ->
  feed (c :: cs) s = processOutput (concat (c :: cs)) s.
Proof.
  revert c s. induction cs as [|c' cs IH]; intros c s Herr.
  - cbn. rewrite app_nil_r. reflexivity.
  - change (feed (c :: c' :: cs) s) with (feed (c' :: cs) (processOutput c s)).
    change (concat (c :: c' :: cs)) with (c ++ concat (c' :: cs)) in *.
    pose proof (processOutput_app s c (concat (c' :: cs)) Herr) as Happ.
    rewrite IH.
    + exact Happ.
    + pose proof (processOutput_parseErrors c s).
      pose proof (processOutput_parseErrors (concat (c' :: cs)) (processOutput c s)).
      rewrite Happ in *. lia.
Qed.

(** ** A promise that nothing holds is never settled *)

Section Frozen.

Variables (i : string) (p : nat) (X : list (outcome json)).



Lemma In_remove_first (l x : listener) (ls : list listener) :
  In x (remove_first l ls) -> In x ls.
Proof.
  induction ls as [|y ls IH]; cbn; [auto|].
  destruct (decide (y = l)); [auto|]. cbn. intros [->|H]; auto.
Qed.
















End Frozen.

(** ** What the listener loop does *)

Lemma call_listener_callbacks (l : listener) (m : json) (s : state) :
  messageCallbacks (call_listener l m s) = messageCallbacks s.
Proof.
  destruct l as [q|n]; cbn; [|reflexivity].
  destruct (type_is m Initialize); reflexivity.
Qed.

Lemma notify_callbacks (fuel k : nat) (m : json) (s : state) :
  messageCallbacks (notify fuel k m s) = messageCallbacks s.
Proof.
  revert k s. induction fuel as [|fuel IH]; intros k s; [reflexivity|].
  cbn [notify]. destruct (onMessageListeners s !! k) as [l|]; [|reflexivity].
  rewrite IH. apply call_listener_callbacks.
Qed.

Lemma remove_first_length (l : listener) (ls : list listener) :
  (length (remove_first l ls) <= length ls)%nat.
Proof.
  induction ls as [|x ls IH]; cbn; [lia|].
  destruct (decide (x = l)); cbn; lia.
Qed.

Lemma call_listener_length (l : listener) (m : json) (s : state) :
  (length (onMessageListeners (call_listener l m s)) <=
   length (onMessageListeners s))%nat.
Proof.
  destruct l as [q|n]; cbn; [|lia].
  destruct (type_is m Initialize); cbn; [apply remove_first_length|lia].
Qed.

(** The fuel of the loop is enough: more changes nothing. *)
Lemma notify_fuel (f1 f2 k : nat) (m : json) (s : state) :
  (length (onMessageListeners s) <= k + f1)%nat ->
  (length (onMessageListeners s) <= k + f2)%nat ->
  notify f1 k m s = notify f2 k m s.
Proof.
  revert f2 k s. induction f1 as [|f1 IH]; intros f2 k s H1 H2.
  - assert (Hk : onMessageListeners s !! k = None)
      by (apply lookup_ge_None; lia).
    destruct f2; cbn [notify]; [reflexivity|]. rewrite Hk. reflexivity.
  - destruct f2 as [|f2]; cbn [notify].
    + assert (Hk : onMessageListeners s !! k = None)
        by (apply lookup_ge_None; lia).
      rewrite Hk. reflexivity.
    + destruct (onMessageListeners s !! k) as [l|]; [|reflexivity].
      pose proof (call_listener_length l m s).
      apply IH; lia.
Qed.

(** The loop leaves alone a promise that no listener and no ready timer
    holds. *)
Lemma notify_other_promise (p : nat) (fuel k : nat) (m : json) (s : state) :
  ~ In (ReadyWaiter p) (onMessageListeners s) ->
  ~ In p (readyTimers s) ->
  ~ In (ReadyWaiter p) (onMessageListeners (notify fuel k m s)) /\
  ~ In p (readyTimers (notify fuel k m s)) /\
  settlements p (notify fuel k m s) = settlements p s.
Proof.
  revert k s. induction fuel as [|fuel IH]; intros k s Hl Ht; [auto|].
  cbn [notify]. destruct (onMessageListeners s !! k) as [l|] eqn:Hk; [|auto].
  assert (Hin : In l (onMessageListeners s)).
  { apply list_elem_of_In. eapply list_elem_of_lookup_2. exact Hk. }
  destruct l as [q|n]; cbn [call_listener].
  - destruct (type_is m Initialize); [|apply IH; assumption].
    assert (Hq : q <> p) by (intros ->; contradiction).
    match goal with |- context [notify fuel (S k) m ?t] =>
      destruct (IH (S k) t) as (H1 & H2 & H3) end.
    + cbn. intros H. apply In_remove_first in H. contradiction.
    + cbn. intros H. apply filter_In in H as [H _]. contradiction.
    + split; [exact H1|]. split; [exact H2|]. rewrite H3.
      unfold settlements. cbn. destruct (Nat.eqb_spec q p); [contradiction|].
      reflexivity.
  - match goal with |- context [notify fuel (S k) m ?t] =>
      destruct (IH (S k) t Hl Ht) as (H1 & H2 & H3) end.
    auto.
Qed.

(** When no listener removes itself (the message is not the ready
    signal, or nobody is waiting for it), the loop calls every
    subscriber, in order. *)
Lemma notify_reaches_all (m : json) (ls : list listener) :
  (forall q, In (ReadyWaiter q) ls -> type_is m Initialize = false) ->
  forall (fuel k : nat) (s : state),
    onMessageListeners s = ls ->
    notify fuel k m s =
    set_delivered
      (rev (map (fun n => (n, m)) (subscribers_of (firstn fuel (skipn k ls))))
       ++ delivered s) s.
Proof.
  intros Hls. induction fuel as [|fuel IH]; intros k s Hs.
  - cbn. destruct s; reflexivity.
  - cbn [notify]. rewrite Hs.
    destruct (ls !! k) as [l|] eqn:Hk.
    + rewrite (drop_S ls l k Hk). cbn [firstn subscribers_of flat_map].
      assert (Hin : In l ls).
      { apply list_elem_of_In. eapply list_elem_of_lookup_2. exact Hk. }
      destruct l as [q|n]; cbn [call_listener].
      * rewrite (Hls q Hin). cbn [app]. apply IH. exact Hs.
      * rewrite IH by exact Hs. cbn [app map rev delivered set_delivered].
        rewrite <- app_assoc. reflexivity.
    + rewrite drop_ge by (apply lookup_ge_None; exact Hk).
      rewrite firstn_nil. cbn. destruct s; reflexivity.
Qed.

Lemma correlate_delivered (m : json) (s : state) :
  delivered (correlate m s) = delivered s.
Proof.
  unfold correlate. destruct (message_id m) as [j|]; [|reflexivity].
  destruct (messageCallbacks s !! j) as [[q|q|q]|]; [| | |reflexivity]; cbn.
  - destruct (type_is m PromptResponse && truthy (field "content" m));
      [reflexivity|].
    destruct (type_is m Error); reflexivity.
  - destruct (type_is m ExecuteToolResponse); [reflexivity|].
    destruct (type_is m Error); reflexivity.
  - destruct (type_is m Initialize && truthy (field "tools" m)); reflexivity.
Qed.

(** X25.  Broadcast in the process bridge: every subscriber receives the
    message, whether or not a callback matches, unless a listener of
    [start] removes itself on this message. *)
Lemma proc_handleMessage_broadcasts (m : json) (s : state) :
  (forall q, In (ReadyWaiter q) (onMessageListeners s) ->
             type_is m Initialize = false) ->
  delivered (handleMessage m s) =
  rev (map (fun n => (n, m)) (subscribers_of (onMessageListeners s)))
  ++ delivered s.
Proof.
  intros Hls. unfold handleMessage.
  assert (Hd : forall t, delivered (if type_is m Initialize
                                    then set_isReady true (correlate m t)
                                    else correlate m t) = delivered t).
  { intros t. destruct (type_is m Initialize); cbn; apply correlate_delivered. }
  rewrite Hd.
  rewrite (notify_reaches_all m (onMessageListeners s) Hls) by reflexivity.
  cbn. rewrite drop_0, firstn_all. reflexivity.
Qed.

(** A message that matches no callback runs none: the callback map is
    as before. *)
Lemma proc_handleMessage_unmatched (m : json) (s : state) :
  match message_id m with
  | Some j => messageCallbacks s !! j = None
  | None => True
  end ->
  messageCallbacks (handleMessage m s) = messageCallbacks s.
Proof.
  intros Hm. unfold handleMessage.
  assert (Hc : messageCallbacks
                 (correlate m (notify (length (onMessageListeners
                                                 (set_handled (m :: handled s) s)))
                                 0 m (set_handled (m :: handled s) s))) =
               messageCallbacks s).
  { unfold correlate. destruct (message_id m) as [j|].
    - rewrite notify_callbacks. cbn [messageCallbacks set_handled].
      rewrite Hm. rewrite notify_callbacks. reflexivity.
    - rewrite notify_callbacks. reflexivity. }
  destruct (type_is m Initialize); exact Hc.
Qed.

(** The callbacks of [executeTool] and [getAvailableTools] settle their
    promise on every reply. *)
Lemma tool_callbacks_always_settle (p : nat) (m : json) (s : state) :
  (exists v, settled (call_callback (ToolCallback p) m s) =
             (p, Resolved v) :: settled s) /\
  (exists v, settled (call_callback (ToolsCallback p) m s) =
             (p, Resolved v) :: settled s).
Proof.
  split; cbn.
  - destruct (type_is m ExecuteToolResponse); [eexists; reflexivity|].
    destruct (type_is m Error); eexists; reflexivity.
  - destruct (type_is m Initialize && truthy (field "tools" m));
      eexists; reflexivity.
Qed.


(** A prompt and its answer, through the framer: the line written to
    the child, and the promise resolved with the content of the reply
    that arrives in two chunks between log lines. *)
Example prompt_round_trip :
  stdin prompt_pending =
    [stringify (JObj [("type", JStr "prompt"); ("id", JStr "a1");
                      ("content", JStr "hello")]%string) ++ [newline]] /\
  settled (feed [T "thinking..." ++ [newline] ++ firstn 20 (stringify plain_response);
                 skipn 20 (stringify plain_response) ++ [newline] ++ T "done"]
             prompt_pending) =
    [(0%nat, Resolved (JStr "fine"))] /\
  parse (stringify plain_response) = Some plain_response.
Proof. repeat split; vm_compute; reflexivity. Qed.

(** ** Correlation *)

(** C1, as the code has it.  A prompt is pending under id [a1].  A
    reply with that id that is a [prompt_response] without content (or
    with empty content), or a reply of another kind, runs the callback,
    which calls neither branch of its [if]; [handleMessage] then removes
    the callback.  The promise has not been settled, and the timer finds
    nothing to do: the state after it is the state before it.  The
    callback of [executeTool] has the final [else] that the callback of
    [sendPrompt] lacks, and settles on the same reply. *)
Theorem sendPrompt_unexpected_reply_leaves_promise_unsettled :
  messageCallbacks prompt_pending !! "a1"%string = Some (PromptCallback 0) /\
  (forall reply,
     In reply [reply_without_content; reply_with_empty_content; reply_of_other_kind] ->
     let s1 := handleMessage reply prompt_pending in
     messageCallbacks s1 !! "a1"%string = None /\
     settlements 0 s1 = [] /\
     request_timeout "a1" 0 s1 = s1) /\
  settlements 0 (handleMessage reply_of_other_kind tool_pending) =
    [Resolved (JStr "done")] /\
  settlements 0 (handleMessage reply_without_content tool_pending) =
    [Resolved JNull].
Proof.
  split; [vm_compute; reflexivity|]. split.
  - intros reply [<-|[<-|[<-|[]]]]; repeat split; vm_compute; reflexivity.
  - split; vm_compute; reflexivity.
Qed.

(** ** Broadcast *)

(** C3, as the code has it.  The listener of [start] is first in the
    list and the panel's listener second.  On the ready signal the first
    listener removes itself from the list while the loop is running, the
    second listener moves to index 0, and the loop, now at index 1,
    ends: the panel's listener is not called, although it is called on
    any other message.  In the same way a listener left behind by a
    [start] that timed out hides the ready signal from the listener of
    the next [start], whose promise the signal then does not resolve. *)
Theorem handleMessage_skips_listener_after_self_removal :
  onMessageListeners waiting_with_panel = [ReadyWaiter 0; Subscriber 1] /\
  delivered (handleMessage ready_signal waiting_with_panel) = [] /\
  onMessageListeners (handleMessage ready_signal waiting_with_panel) =
    [Subscriber 1] /\
  delivered (handleMessage plain_response waiting_with_panel) =
    [(1%nat, plain_response)] /\
  onMessageListeners two_waiters = [ReadyWaiter 0; ReadyWaiter 1] /\
  settlements 1 (handleMessage ready_signal two_waiters) = [] /\
  onMessageListeners (handleMessage ready_signal two_waiters) = [ReadyWaiter 1].
Proof. repeat split. Qed.

(** ** The framer *)

(** C7, as the code has it.  [JSON.parse] inverts [JSON.stringify] on
    the message, but the framer counts the brace inside the content: it
    cuts the frame at index 47, inside the string literal, the cut text
    is not JSON, and the framer drops the buffer without decoding
    anything.  With an opening brace in the content the depth never
    returns to 0: nothing is decoded and the text stays in the buffer. *)
Theorem framer_loses_message_with_brace_in_string :
  parse (stringify response_with_closing_brace) = Some response_with_closing_brace /\
  scan (stringify response_with_closing_brace) 0 0 = Some 47%nat /\
  length (stringify response_with_closing_brace) = 50%nat /\
  parse_raw (substring (stringify response_with_closing_brace) 0 48) = SyntaxError /\
  handled (processOutput (stringify response_with_closing_brace ++ [newline])
             running_mcp) = [] /\
  messageBuffer (processOutput (stringify response_with_closing_brace ++ [newline])
                   running_mcp) = [] /\
  handled (processOutput (stringify response_with_opening_brace ++ [newline])
             running_mcp) = [] /\
  messageBuffer (processOutput (stringify response_with_opening_brace ++ [newline])
                   running_mcp) =
    stringify response_with_opening_brace ++ [newline] /\
  handled (processOutput (stringify plain_response ++ [newline]) running_mcp) =
    [plain_response].
Proof. repeat split; vm_compute; reflexivity. Qed.

(** C8, as the code has it.  The stream of two messages is fed whole:
    the first frame is cut inside its content and fails to parse, the
    buffer is moved to the next opening brace, and [processOutput]
    returns without looking at it: nothing is decoded.  The same text
    in two chunks, cut after the brace of the content: the first chunk
    fails in the same way and empties the buffer, and the second chunk
    decodes the second message.  A log line with braces in front of a
    message does the same: fed whole, the message stays in the buffer;
    fed line by line, it is decoded. *)
Theorem framer_output_depends_on_chunking :
  concat two_messages_cut = two_messages /\
  handled (feed [two_messages] running_mcp) = [] /\
  handled (feed two_messages_cut running_mcp) = [ready_signal] /\
  concat log_then_message_cut = log_then_message /\
  handled (feed [log_then_message] running_mcp) = [] /\
  handled (feed log_then_message_cut running_mcp) = [ready_signal].
Proof. repeat split; vm_compute; reflexivity. Qed.

(** The timers of the process bridge resolve with [null]. *)
Lemma proc_request_timeout_resolves_null (i : string) (p : nat) (cb : callback)
    (s : state) :
  messageCallbacks s !! i = Some cb ->
  messageCallbacks (request_timeout i p s) !! i = None /\
  settled (request_timeout i p s) = (p, Resolved JNull) :: settled s.
Proof.
  intros Hcb. unfold request_timeout. rewrite Hcb. cbn.
  split; [apply lookup_delete_eq|reflexivity].
Qed.

(** * More of the process bridge *)

(** ** After [stop] *)

(** Nothing that handles output reads or writes [this.process]. *)
Lemma call_listener_running (l : listener) (m : json) (r : bool) (s : state) :
  call_listener l m (set_running r s) = set_running r (call_listener l m s).
Proof.
  destruct l as [p|n]; cbn; [|reflexivity].
  destruct (type_is m Initialize); reflexivity.
Qed.

Lemma notify_running (fuel i : nat) (m : json) (r : bool) (s : state) :
  notify fuel i m (set_running r s) = set_running r (notify fuel i m s).
Proof.
  revert i s. induction fuel as [|fuel IH]; intros i s; [reflexivity|].
  cbn [notify].
  change (onMessageListeners (set_running r s)) with (onMessageListeners s).
  destruct (onMessageListeners s !! i) as [l|]; [|reflexivity].
  rewrite call_listener_running. apply IH.
Qed.

Lemma correlate_running (m : json) (r : bool) (s : state) :
  correlate m (set_running r s) = set_running r (correlate m s).
Proof.
  unfold correlate. destruct (message_id m) as [i|]; [|reflexivity].
  change (messageCallbacks (set_running r s)) with (messageCallbacks s).
  destruct (messageCallbacks s !! i) as [[p|p|p]|]; [| | |reflexivity]; cbn.
  - destruct (type_is m PromptResponse && truthy (field "content" m));
      [reflexivity|].
    destruct (type_is m Error); reflexivity.
  - destruct (type_is m ExecuteToolResponse); [reflexivity|].
    destruct (type_is m Error); reflexivity.
  - destruct (type_is m Initialize && truthy (field "tools" m)); reflexivity.
Qed.

Lemma handleMessage_running (m : json) (r : bool) (s : state) :
  handleMessage m (set_running r s) = set_running r (handleMessage m s).
Proof.
  unfold handleMessage.
  change (set_handled (m :: handled (set_running r s)) (set_running r s))
    with (set_running r (set_handled (m :: handled s) s)).
  change (onMessageListeners (set_running r (set_handled (m :: handled s) s)))
    with (onMessageListeners (set_handled (m :: handled s) s)).
  rewrite notify_running, correlate_running.
  destruct (type_is m Initialize); reflexivity.
Qed.

Lemma processOutput_rec_running (fuel : nat) (r : bool) (s : state) :
  processOutput_rec fuel (set_running r s) =
  set_running r (processOutput_rec fuel s).
Proof.
  revert s. induction fuel as [|fuel IH]; intros s; [reflexivity|].
  cbn [processOutput_rec].
  change (messageBuffer (set_running r s)) with (messageBuffer s).
  destruct (indexOf lbrace (messageBuffer s) 0) as [i|]; [|reflexivity].
  destruct (scan (skipn i (messageBuffer s)) i 0) as [e|]; [|reflexivity].
  destruct (parse (substring (messageBuffer s) i (e + 1))) as [m|].
  - rewrite handleMessage_running.
    change (messageBuffer (set_running r (handleMessage m s)))
      with (messageBuffer (handleMessage m s)).
    match goal with |- context [set_messageBuffer ?b (set_running r ?t)] =>
      change (set_messageBuffer b (set_running r t))
        with (set_running r (set_messageBuffer b t)) end.
    match goal with |- context [messageBuffer (set_running r ?t)] =>
      change (messageBuffer (set_running r t)) with (messageBuffer t) end.
    match goal with |- context [if ?c then _ else _] => destruct c end;
      [apply IH|reflexivity].
  - destruct (indexOf lbrace (messageBuffer s) (i + 1)); reflexivity.
Qed.

Lemma on_stdout_running (c : text) (r : bool) (s : state) :
  on_stdout c (set_running r s) = set_running r (on_stdout c s).
Proof.
  unfold on_stdout. change (useMCP (set_running r s)) with (useMCP s).
  destruct (useMCP s).
  - unfold processOutput.
    change (set_messageBuffer (messageBuffer (set_running r s) ++ c) (set_running r s))
      with (set_running r (set_messageBuffer (messageBuffer s ++ c) s)).
    rewrite processOutput_rec_running. reflexivity.
  - destruct (includes (T "Ready to process requests") c); reflexivity.
Qed.

(** [isReady] is written but never read. *)
Lemma call_listener_isReady (l : listener) (m : json) (a b : bool) (s : state) :
  set_isReady a (call_listener l m (set_isReady b s)) =
  set_isReady a (call_listener l m s) /\
  onMessageListeners (call_listener l m (set_isReady b s)) =
  onMessageListeners (call_listener l m s).
Proof.
  destruct l as [p|n]; cbn; [|split; reflexivity].
  destruct (type_is m Initialize); split; reflexivity.
Qed.

Lemma set_isReady_twice (a b : bool) (s : state) :
  set_isReady a (set_isReady b s) = set_isReady a s.
Proof. reflexivity. Qed.

Lemma notify_isReady (fuel i : nat) (m : json) (a : bool) (s t : state) :
  set_isReady a s = set_isReady a t ->
  set_isReady a (notify fuel i m s) = set_isReady a (notify fuel i m t).
Proof.
  revert i s t. induction fuel as [|fuel IH]; intros i s t Hst; [exact Hst|].
  cbn [notify].
  assert (Hl : onMessageListeners s = onMessageListeners t).
  { change (onMessageListeners (set_isReady a s) = onMessageListeners (set_isReady a t)).
    rewrite Hst. reflexivity. }
  rewrite Hl. destruct (onMessageListeners t !! i) as [l|]; [|exact Hst].
  apply IH.
  destruct (call_listener_isReady l m a a s) as [<- _].
  destruct (call_listener_isReady l m a a t) as [<- _].
  rewrite Hst. reflexivity.
Qed.

Lemma correlate_isReady (m : json) (a : bool) (s t : state) :
  set_isReady a s = set_isReady a t ->
  set_isReady a (correlate m s) = set_isReady a (correlate m t).
Proof.
  intros Hst. unfold correlate. destruct (message_id m) as [i|]; [|exact Hst].
  assert (Hc : messageCallbacks s = messageCallbacks t).
  { change (messageCallbacks (set_isReady a s) = messageCallbacks (set_isReady a t)).
    rewrite Hst. reflexivity. }
  rewrite Hc. destruct (messageCallbacks t !! i) as [cb|]; [|exact Hst].
  assert (Hcall : forall x, set_isReady a (call_callback cb m x) =
                            call_callback cb m (set_isReady a x)).
  { intros x. destruct cb as [p|p|p]; cbn.
    - destruct (type_is m PromptResponse && truthy (field "content" m));
        [reflexivity|].
      destruct (type_is m Error); reflexivity.
    - destruct (type_is m ExecuteToolResponse); [reflexivity|].
      destruct (type_is m Error); reflexivity.
    - destruct (type_is m Initialize && truthy (field "tools" m)); reflexivity. }
  match goal with |- set_isReady a (set_messageCallbacks ?d ?x) =
                     set_isReady a (set_messageCallbacks ?d' ?y) =>
    change (set_isReady a (set_messageCallbacks d x))
      with (set_messageCallbacks (delete i (messageCallbacks (set_isReady a x)))
              (set_isReady a x));
    change (set_isReady a (set_messageCallbacks d' y))
      with (set_messageCallbacks (delete i (messageCallbacks (set_isReady a y)))
              (set_isReady a y))
  end.
  rewrite !Hcall, Hst. reflexivity.
Qed.

Lemma handleMessage_isReady (m : json) (a : bool) (s t : state) :
  set_isReady a s = set_isReady a t ->
  set_isReady a (handleMessage m s) = set_isReady a (handleMessage m t).
Proof.
  intros Hst. unfold handleMessage.
  assert (H0 : set_isReady a (set_handled (m :: handled s) s) =
               set_isReady a (set_handled (m :: handled t) t)).
  { change (set_handled (m :: handled (set_isReady a s)) (set_isReady a s) =
            set_handled (m :: handled (set_isReady a t)) (set_isReady a t)).
    rewrite Hst. reflexivity. }
  assert (Hl : onMessageListeners (set_handled (m :: handled s) s) =
               onMessageListeners (set_handled (m :: handled t) t)).
  { change (onMessageListeners (set_isReady a s) = onMessageListeners (set_isReady a t)).
    rewrite Hst. reflexivity. }
  rewrite Hl.
  pose proof (correlate_isReady m a _ _
                (notify_isReady (length (onMessageListeners
                                           (set_handled (m :: handled t) t)))
                   0 m a _ _ H0)) as H.
  destruct (type_is m Initialize); [|exact H].
  rewrite !set_isReady_twice. exact H.
Qed.

Lemma processOutput_rec_isReady (fuel : nat) (a : bool) (s t : state) :
  set_isReady a s = set_isReady a t ->
  set_isReady a (processOutput_rec fuel s) =
  set_isReady a (processOutput_rec fuel t).
Proof.
  revert s t. induction fuel as [|fuel IH]; intros s t Hst; [exact Hst|].
  cbn [processOutput_rec].
  assert (Hb : messageBuffer s = messageBuffer t).
  { change (messageBuffer (set_isReady a s) = messageBuffer (set_isReady a t)).
    rewrite Hst. reflexivity. }
  assert (He : parseErrors s = parseErrors t).
  { change (parseErrors (set_isReady a s) = parseErrors (set_isReady a t)).
    rewrite Hst. reflexivity. }
  rewrite Hb, He.
  destruct (indexOf lbrace (messageBuffer t) 0) as [i|]; [|exact Hst].
  destruct (scan (skipn i (messageBuffer t)) i 0) as [e|]; [|exact Hst].
  destruct (parse (substring (messageBuffer t) i (e + 1))) as [m|].
  - rewrite !handleMessage_messageBuffer, Hb.
    cbn [messageBuffer set_messageBuffer].
    assert (H2 : forall x,
               set_isReady a (set_messageBuffer x (handleMessage m s)) =
               set_isReady a (set_messageBuffer x (handleMessage m t))).
    { intros x.
      change (set_messageBuffer x (set_isReady a (handleMessage m s)) =
              set_messageBuffer x (set_isReady a (handleMessage m t))).
      rewrite (handleMessage_isReady m a s t Hst). reflexivity. }
    match goal with |- context [if ?c then _ else _] => destruct c end;
      [apply IH|]; apply H2.
  - assert (H2 : forall x,
               set_isReady a (set_messageBuffer x (set_parseErrors (S (parseErrors t)) s)) =
               set_isReady a (set_messageBuffer x (set_parseErrors (S (parseErrors t)) t))).
    { intros x.
      change (set_messageBuffer x (set_parseErrors (S (parseErrors t)) (set_isReady a s)) =
              set_messageBuffer x (set_parseErrors (S (parseErrors t)) (set_isReady a t))).
      rewrite Hst. reflexivity. }
    destruct (indexOf lbrace (messageBuffer t) (i + 1)); apply H2.
Qed.

Lemma on_stdout_isReady (c : text) (a : bool) (s t : state) :
  set_isReady a s = set_isReady a t ->
  set_isReady a (on_stdout c s) = set_isReady a (on_stdout c t).
Proof.
  intros Hst. unfold on_stdout.
  assert (Hm : useMCP s = useMCP t).
  { change (useMCP (set_isReady a s) = useMCP (set_isReady a t)).
    rewrite Hst. reflexivity. }
  assert (Hb : messageBuffer s = messageBuffer t).
  { change (messageBuffer (set_isReady a s) = messageBuffer (set_isReady a t)).
    rewrite Hst. reflexivity. }
  rewrite Hm. destruct (useMCP t).
  - unfold processOutput. cbn [messageBuffer set_messageBuffer]. rewrite Hb.
    apply processOutput_rec_isReady.
    change (set_messageBuffer (messageBuffer t ++ c) (set_isReady a s) =
            set_messageBuffer (messageBuffer t ++ c) (set_isReady a t)).
    rewrite Hst. reflexivity.
  - destruct (includes (T "Ready to process requests") c); [|exact Hst].
    change (set_isReady a s = set_isReady a t). exact Hst.
Qed.

Lemma on_stdout_without_child (c : text) (s t : state) :
  without_child s = without_child t ->
  without_child (on_stdout c s) = without_child (on_stdout c t).
Proof.
  intros Hst. unfold without_child in *.
  rewrite <- !on_stdout_running.
  apply on_stdout_isReady. exact Hst.
Qed.

(** X17.  [stop] does not detach the bridge from the output of the
    child it kills: the [data] handler stays installed, and output that
    still arrives after [stop] is handled as it would have been without
    it.  Apart from the two fields that [stop] writes, the bridge ends
    in the same state: the same messages are handled, the same
    listeners called, and the callbacks that were pending are called
    and their promises settled by the replies that arrive. *)
Theorem stop_does_not_detach_the_output (cs : list text) (s : state) :
  let stopped := fold_left (fun st c => on_stdout c st) cs (stop s) in
  let running_on := fold_left (fun st c => on_stdout c st) cs s in
  running stopped = false /\
  without_child stopped = without_child running_on /\
  handled stopped = handled running_on /\
  delivered stopped = delivered running_on /\
  settled stopped = settled running_on /\
  messageCallbacks stopped = messageCallbacks running_on.
Proof.
  cbn zeta.
  assert (Hrun : forall cs t, running (fold_left (fun st c => on_stdout c st) cs t)
                              = running t).
  { clear. induction cs as [|c cs IH]; intros t; [reflexivity|].
    cbn [fold_left]. rewrite IH.
    change (running (on_stdout c t))
      with (running (on_stdout c t)).
    assert (Ht : t = set_running (running t) t) by (destruct t; reflexivity).
    rewrite Ht at 1. rewrite on_stdout_running. reflexivity. }
  assert (Hsame : forall cs t u, without_child t = without_child u ->
            without_child (fold_left (fun st c => on_stdout c st) cs t) =
            without_child (fold_left (fun st c => on_stdout c st) cs u)).
  { clear. induction cs as [|c cs IH]; intros t u Htu; [exact Htu|].
    cbn [fold_left]. apply IH. apply on_stdout_without_child. exact Htu. }
  assert (H0 : without_child (stop s) = without_child s).
  { unfold stop. destruct (running s); reflexivity. }
  pose proof (Hsame cs _ _ H0) as H.
  split.
  { rewrite Hrun. unfold stop. destruct (running s) eqn:Hr; [reflexivity|exact Hr]. }
  split; [exact H|].
  set (x := fold_left (fun st c => on_stdout c st) cs (stop s)) in *.
  set (y := fold_left (fun st c => on_stdout c st) cs s) in *.
  repeat split.
  - change (handled (without_child x) = handled (without_child y)).
    rewrite H. reflexivity.
  - change (delivered (without_child x) = delivered (without_child y)).
    rewrite H. reflexivity.
  - change (settled (without_child x) = settled (without_child y)).
    rewrite H. reflexivity.
  - change (messageCallbacks (without_child x) = messageCallbacks (without_child y)).
    rewrite H. reflexivity.
Qed.

(** ** Subscriptions *)

Lemma remove_first_app_fresh (l : listener) (ls : list listener) :
  ~ In l ls -> remove_first l (ls ++ [l]) = ls.
Proof.
  induction ls as [|x ls IH]; intros Hn; cbn.
  - destruct (decide (l = l)); [reflexivity|contradiction].
  - destruct (decide (x = l)) as [->|Hx]; [exfalso; apply Hn; left; reflexivity|].
    rewrite IH; [reflexivity|]. intros H. apply Hn. right. exact H.
Qed.

Lemma remove_first_absent (l : listener) (ls : list listener) :
  ~ In l ls -> remove_first l ls = ls.
Proof.
  induction ls as [|x ls IH]; intros Hn; cbn; [reflexivity|].
  destruct (decide (x = l)) as [->|Hx]; [exfalso; apply Hn; left; reflexivity|].
  rewrite IH; [reflexivity|]. intros H. apply Hn. right. exact H.
Qed.

(** X18.  Subscribing a new listener and disposing of the
    subscription gives back the bridge as it was; disposing a second
    time changes nothing. *)
Theorem subscribe_then_dispose_restores (l : listener) (s : state) :
  ~ In l (onMessageListeners s) ->
  dispose_listener l (onMessage l s) = s /\
  dispose_listener l (dispose_listener l (onMessage l s)) = s.
Proof.
  intros Hn.
  assert (H1 : dispose_listener l (onMessage l s) = s).
  { unfold dispose_listener, onMessage. cbn.
    rewrite remove_first_app_fresh by exact Hn. destruct s; reflexivity. }
  split; [exact H1|]. rewrite H1.
  unfold dispose_listener. rewrite remove_first_absent by exact Hn.
  destruct s; reflexivity.
Qed.

Lemma subscribe_then_dispose_restores_witness :
  ~ In (Subscriber 2) (onMessageListeners waiting_with_panel) /\
  dispose_listener (Subscriber 2) (onMessage (Subscriber 2) waiting_with_panel) =
    waiting_with_panel.
Proof.
  assert (Hn : ~ In (Subscriber 2) (onMessageListeners waiting_with_panel)).
  { cbn. intros [H|[H|[]]]; discriminate H. }
  split; [exact Hn|].
  apply (subscribe_then_dispose_restores (Subscriber 2) waiting_with_panel Hn).
Defined.

(** ** Reply and timer *)

Lemma call_callback_answers (cb : callback) (m : json) (s : state) :
  answers cb m = true ->
  exists v, call_callback cb m s = resolve (callback_promise cb) v s.
Proof.
  intros Ha. destruct cb as [p|p|p]; cbn in *.
  - unfold unexpected_for_prompt in Ha.
    destruct (type_is m PromptResponse && truthy (field "content" m));
      [eexists; reflexivity|].
    destruct (type_is m Error); [eexists; reflexivity|discriminate].
  - destruct (type_is m ExecuteToolResponse); [eexists; reflexivity|].
    destruct (type_is m Error); eexists; reflexivity.
  - destruct (type_is m Initialize && truthy (field "tools" m));
      eexists; reflexivity.
Qed.

Lemma call_callback_callbacks (cb : callback) (m : json) (s : state) :
  messageCallbacks (call_callback cb m s) = messageCallbacks s.
Proof.
  destruct cb as [p|p|p]; cbn.
  - destruct (type_is m PromptResponse && truthy (field "content" m));
      [reflexivity|].
    destruct (type_is m Error); reflexivity.
  - destruct (type_is m ExecuteToolResponse); [reflexivity|].
    destruct (type_is m Error); reflexivity.
  - destruct (type_is m Initialize && truthy (field "tools" m)); reflexivity.
Qed.

Lemma proc_handleMessage_callbacks (m : json) (s : state) :
  messageCallbacks (handleMessage m s) =
  match message_id m with
  | Some j => delete j (messageCallbacks s)
  | None => messageCallbacks s
  end.
Proof.
  unfold handleMessage.
  set (s1 := notify _ 0 m _).
  assert (H1 : messageCallbacks s1 = messageCallbacks s).
  { subst s1. rewrite notify_callbacks. reflexivity. }
  clearbody s1.
  assert (Hc : messageCallbacks (correlate m s1) =
               match message_id m with
               | Some j => delete j (messageCallbacks s)
               | None => messageCallbacks s
               end).
  { unfold correlate. destruct (message_id m) as [j|]; [|exact H1].
    destruct (messageCallbacks s1 !! j) as [cb|] eqn:Hj.
    - cbn. rewrite call_callback_callbacks, H1. reflexivity.
    - rewrite H1 in Hj |- *. symmetry. apply delete_id. exact Hj. }
  destruct (type_is m Initialize); exact Hc.
Qed.

Lemma settlements_resolve_same (p : nat) (v : json) (s : state) :
  settlements p (resolve p v s) = Resolved v :: settlements p s.
Proof. unfold settlements. cbn. rewrite Nat.eqb_refl. reflexivity. Qed.

(** X19.  In the process bridge a request is settled once by whichever
    comes first, for every reply its callback has a branch for: the
    reply resolves the promise and removes the callback, and the timer
    that fires afterwards does nothing; when the timer fires first it
    resolves the promise with [null], and the reply that arrives
    afterwards adds nothing. *)
Theorem proc_reply_and_timer_settle_once
    (i : string) (cb : callback) (m : json) (s : state) :
  messageCallbacks s !! i = Some cb ->
  message_id m = Some i ->
  answers cb m = true ->
  ~ In (ReadyWaiter (callback_promise cb)) (onMessageListeners s) ->
  ~ In (callback_promise cb) (readyTimers s) ->
  let p := callback_promise cb in
  (exists v, settlements p (handleMessage m s) = Resolved v :: settlements p s) /\
  request_timeout i p (handleMessage m s) = handleMessage m s /\
  settlements p (handleMessage m (request_timeout i p s)) =
    Resolved JNull :: settlements p s.
Proof.
  intros Hcb Hid Ha Hl Ht p. split; [|split].
  - unfold handleMessage.
    set (s0 := set_handled (m :: handled s) s).
    destruct (notify_other_promise p (length (onMessageListeners s0)) 0 m s0 Hl Ht)
      as (_ & _ & Hs1).
    set (s1 := notify (length (onMessageListeners s0)) 0 m s0) in *.
    assert (H1 : messageCallbacks s1 = messageCallbacks s).
    { subst s1. rewrite notify_callbacks. reflexivity. }
    destruct (call_callback_answers cb m s1 Ha) as [v Hv].
    exists v.
    assert (Hc : settlements p (correlate m s1) = Resolved v :: settlements p s).
    { unfold correlate. rewrite Hid, H1, Hcb, Hv.
      change (settlements p (set_messageCallbacks
                (delete i (messageCallbacks (resolve (callback_promise cb) v s1)))
                (resolve (callback_promise cb) v s1)))
        with (settlements p (resolve p v s1)).
      rewrite settlements_resolve_same, Hs1. reflexivity. }
    destruct (type_is m Initialize); exact Hc.
  - unfold request_timeout.
    rewrite proc_handleMessage_callbacks, Hid, lookup_delete_eq. reflexivity.
  - destruct (proc_request_timeout_resolves_null i p cb s Hcb) as [Hgone Hlog].
    set (t := request_timeout i p s) in *.
    assert (Hlt : onMessageListeners t = onMessageListeners s /\
                  readyTimers t = readyTimers s).
    { subst t. unfold request_timeout. rewrite Hcb. split; reflexivity. }
    destruct Hlt as [Hlt Htt].
    unfold handleMessage.
    set (t0 := set_handled (m :: handled t) t).
    assert (Hl' : ~ In (ReadyWaiter p) (onMessageListeners t0))
      by (subst t0; cbn; rewrite Hlt; exact Hl).
    assert (Ht' : ~ In p (readyTimers t0))
      by (subst t0; cbn; rewrite Htt; exact Ht).
    destruct (notify_other_promise p (length (onMessageListeners t0)) 0 m t0 Hl' Ht')
      as (_ & _ & Hs1).
    set (t1 := notify (length (onMessageListeners t0)) 0 m t0) in *.
    assert (H1 : messageCallbacks t1 = messageCallbacks t).
    { subst t1. rewrite notify_callbacks. reflexivity. }
    assert (Hc : settlements p (correlate m t1) = Resolved JNull :: settlements p s).
    { unfold correlate. rewrite Hid, H1, Hgone, Hs1.
      subst t0. unfold settlements. cbn. rewrite Hlog. cbn.
      rewrite Nat.eqb_refl. reflexivity. }
    destruct (type_is m Initialize); exact Hc.
Qed.

Lemma proc_reply_and_timer_settle_once_witness :
  messageCallbacks tool_pending !! "a1"%string = Some (ToolCallback 0) /\
  message_id reply_of_other_kind = Some "a1"%string /\
  settlements 0 (request_timeout "a1" 0 (handleMessage reply_of_other_kind tool_pending))
    = [Resolved (JStr "done")] /\
  settlements 0 (handleMessage reply_of_other_kind (request_timeout "a1" 0 tool_pending))
    = [Resolved JNull].
Proof.
  assert (Hcb : messageCallbacks tool_pending !! "a1"%string = Some (ToolCallback 0))
    by (vm_compute; reflexivity).
  split; [exact Hcb|]. split; [reflexivity|].
  destruct (proc_reply_and_timer_settle_once "a1" (ToolCallback 0)
              reply_of_other_kind tool_pending Hcb eq_refl eq_refl)
    as (_ & H2 & H3); [cbn; tauto|cbn; tauto|].
  cbn [callback_promise] in H2, H3.
  split; [rewrite H2; vm_compute; reflexivity|].
  rewrite H3. reflexivity.
Defined.

(** ** The ready signal *)






(** ** A prompt that stays unanswered *)


(** ** Standard mode *)

Lemma includes_length (p s : text) :
  includes p s = true -> (length p <= length s)%nat.
Proof.
  induction s as [|c s IH]; cbn.
  - destruct (strip_prefix p []) as [r|] eqn:Hp; [|discriminate].
    intros _. apply strip_prefix_length in Hp. cbn in Hp. lia.
  - destruct (strip_prefix p (c :: s)) as [r|] eqn:Hp.
    + intros _. apply strip_prefix_length in Hp. cbn in Hp. lia.
    + intros H. apply IH in H. lia.
Qed.

Lemma strip_prefix_app (p r : text) : strip_prefix p (p ++ r) = Some r.
Proof.
  induction p as [|a p IH]; cbn; [reflexivity|].
  rewrite Ascii.eqb_refl. exact IH.
Qed.

Lemma includes_prefix (p s r : text) :
  strip_prefix p s = Some r -> includes p s = true.
Proof. destruct s; cbn; intros ->; reflexivity. Qed.

Lemma includes_app (p a b : text) : includes p (a ++ p ++ b) = true.
Proof.
  induction a as [|c a IH]; cbn [app].
  - apply (includes_prefix p _ b), strip_prefix_app.
  - cbn [includes]. destruct (strip_prefix p (c :: a ++ p ++ b)); [reflexivity|].
    exact IH.
Qed.

(** X22.  In standard mode the ready marker is looked for in each
    chunk by itself: a chunk that contains it sets [isReady], but
    chunks that are each shorter than the marker never do, whatever
    they spell together. *)
Theorem standard_mode_finds_marker_only_inside_one_chunk
    (a b : text) (cs : list text) (s : state) :
  useMCP s = false ->
  Forall (fun c => (length c < 25)%nat) cs ->
  isReady (on_stdout (a ++ T "Ready to process requests" ++ b) s) = true /\
  isReady (fold_left (fun st c => on_stdout c st) cs s) = isReady s.
Proof.
  intros Hm Hcs. split.
  - unfold on_stdout. rewrite Hm, includes_app. reflexivity.
  - revert s Hm. induction Hcs as [|c cs Hc _ IH]; intros s Hm; [reflexivity|].
    cbn [fold_left].
    assert (Hstep : on_stdout c s = s).
    { unfold on_stdout. rewrite Hm.
      destruct (includes (T "Ready to process requests") c) eqn:Hi; [|reflexivity].
      apply includes_length in Hi. cbn in Hi. lia. }
    rewrite Hstep. apply IH. exact Hm.
Qed.

Lemma standard_mode_finds_marker_only_inside_one_chunk_witness :
  useMCP (init false) = false /\
  Forall (fun c => (length c < 25)%nat) [T "Ready to pro"; T "cess requests"] /\
  T "Ready to pro" ++ T "cess requests" = T "Ready to process requests" /\
  isReady (fold_left (fun st c => on_stdout c st)
             [T "Ready to pro"; T "cess requests"] (init false)) = false /\
  isReady (on_stdout (T "log: " ++ T "Ready to process requests" ++ [newline])
             (init false)) = true.
Proof.
  assert (Hcs : Forall (fun c => (length c < 25)%nat)
                  [T "Ready to pro"; T "cess requests"]).
  { repeat constructor; cbn; lia. }
  split; [reflexivity|]. split; [exact Hcs|]. split; [reflexivity|].
  destruct (standard_mode_finds_marker_only_inside_one_chunk (T "log: ") [newline]
              [T "Ready to pro"; T "cess requests"] (init false) eq_refl Hcs)
    as [H1 H2].
  split; [rewrite H2; reflexivity|exact H1].
Defined.

(** ** What the brace counter frames *)

Lemma indexOf_aux_app_None (c : ascii) (b x : text) (i : nat) :
  indexOf_aux c b i = None ->
  indexOf_aux c (b ++ x) i = indexOf_aux c x (i + length b)%nat.
Proof.
  revert i. induction b as [|a b IH]; intros i; cbn.
  - intros _. rewrite Nat.add_0_r. reflexivity.
  - destruct (Ascii.eqb a c); [discriminate|].
    intros H. rewrite (IH _ H). f_equal. lia.
Qed.

Lemma indexOf_aux_shift (c : ascii) (x : text) (i k : nat) :
  indexOf_aux c x i = Some i -> indexOf_aux c x k = Some k.
Proof.
  destruct x as [|a x]; cbn; [discriminate|].
  destruct (Ascii.eqb a c); [reflexivity|].
  intros H. apply indexOf_aux_bounds in H. lia.
Qed.

Lemma scan_shift (t : text) (i k : nat) (d : Z) :
  scan t (k + i)%nat d = option_map (Nat.add k) (scan t i d).
Proof.
  revert i d. induction t as [|c t IH]; intros i d; cbn; [reflexivity|].
  rewrite <- !Nat.add_succ_r.
  destruct (Ascii.eqb c lbrace); [apply IH|].
  destruct (Ascii.eqb c rbrace); [|apply IH].
  destruct (d - 1 =? 0); [reflexivity|apply IH].
Qed.

Lemma scan_None_shift (t : text) (i j : nat) (d : Z) :
  scan t i d = None -> scan t j d = None.
Proof.
  intros H.
  pose proof (scan_shift t 0 i d) as Hi. pose proof (scan_shift t 0 j d) as Hj.
  rewrite Nat.add_0_r in Hi, Hj. rewrite Hi in H. rewrite Hj.
  destruct (scan t 0 d); [discriminate|reflexivity].
Qed.

Lemma scan_None_deeper (t : text) (i : nat) (d d' : Z) :
  1 <= d <= d' -> scan t i d = None -> scan t i d' = None.
Proof.
  revert i d d'. induction t as [|c t IH]; intros i d d' Hd; cbn; [reflexivity|].
  destruct (Ascii.eqb c lbrace); [apply IH; lia|].
  destruct (Ascii.eqb c rbrace); [|apply IH; lia].
  destruct (Z.eqb_spec (d - 1) 0); [discriminate|].
  destruct (Z.eqb_spec (d' - 1) 0); [lia|]. apply IH. lia.
Qed.

Lemma scan_None_app (b c : text) (i : nat) (d : Z) :
  1 <= d -> scan b i d = None -> scan c 0 1 = None -> scan (b ++ c) i d = None.
Proof.
  revert i d. induction b as [|a b IH]; intros i d Hd Hb Hc; cbn [app].
  - apply (scan_None_shift c 0). apply (scan_None_deeper c 0 1 d); [lia|exact Hc].
  - cbn in *. destruct (Ascii.eqb a lbrace); [apply IH; [lia|assumption..]|].
    destruct (Ascii.eqb a rbrace); [|apply IH; assumption].
    destruct (Z.eqb_spec (d - 1) 0); [discriminate|]. apply IH; [lia|assumption..].
Qed.

Lemma indexOf_head (c : ascii) (b : text) (i : nat) :
  indexOf c b 0 = Some i -> exists r, skipn i b = c :: r.
Proof.
  unfold indexOf. rewrite drop_0.
  assert (H : forall k, indexOf_aux c b k = Some (k + i)%nat -> exists r, skipn i b = c :: r).
  { revert i. induction b as [|a b IH]; intros i k; cbn; [discriminate|].
    destruct (Ascii.eqb_spec a c) as [->|Hne].
    - intros [= Hk]. assert (i = 0)%nat as -> by lia. eexists; reflexivity.
    - intros H. pose proof (indexOf_aux_bounds _ _ _ _ H) as Hb.
      destruct i as [|i]; [lia|]. cbn. apply (IH i (S k)).
      rewrite H. f_equal. lia. }
  apply (H 0%nat).
Qed.

(** X23.  An opening brace that is never closed makes the framer deaf:
    as long as the chunks that follow close only braces they opened
    themselves, nothing is decoded any more, no error is counted, and
    the buffer keeps everything. *)
Theorem unclosed_brace_blocks_the_framer
    (i : nat) (cs : list text) (s : state) :
  indexOf lbrace (messageBuffer s) 0 = Some i ->
  scan (skipn i (messageBuffer s)) i 0 = None ->
  Forall (fun c => scan c 0 1 = None) cs ->
  feed cs s = set_messageBuffer (messageBuffer s ++ concat cs) s.
Proof.
  intros Hi Hs Hcs. revert s Hi Hs.
  induction Hcs as [|c cs Hc _ IH]; intros s Hi Hs.
  - cbn. rewrite app_nil_r. destruct s; reflexivity.
  - change (feed (c :: cs) s) with (feed cs (processOutput c s)).
    assert (Hscan : scan (skipn i (messageBuffer s ++ c)) i 0 = None).
    { pose proof (indexOf_bounds _ _ _ Hi) as Hlt.
      rewrite skipn_app.
      replace (i - length (messageBuffer s))%nat with 0%nat by lia.
      rewrite drop_0.
      destruct (indexOf_head _ _ _ Hi) as [r Hr]. rewrite Hr in *.
      cbn in Hs |- *.
      apply scan_None_app; [lia|exact Hs|exact Hc]. }
    rewrite (processOutput_no_end c s i (indexOf_app _ _ _ _ Hi) Hscan).
    rewrite IH; cbn [messageBuffer set_messageBuffer].
    + cbn [concat]. rewrite app_assoc. destruct s; reflexivity.
    + apply indexOf_app. exact Hi.
    + exact Hscan.
Qed.

Lemma unclosed_brace_blocks_the_framer_witness :
  indexOf lbrace (messageBuffer stuck_on_log) 0 = Some 8%nat /\
  scan (skipn 8 (messageBuffer stuck_on_log)) 8 0 = None /\
  Forall (fun c => scan c 0 1 = None) replies /\
  handled (feed replies stuck_on_log) = [] /\
  isReady (feed replies stuck_on_log) = false /\
  settlements 0 (feed replies stuck_on_log) = [] /\
  handled (feed replies prompt_pending) = [ready_signal; plain_response].
Proof.
  assert (H1 : indexOf lbrace (messageBuffer stuck_on_log) 0 = Some 8%nat)
    by (vm_compute; reflexivity).
  assert (H2 : scan (skipn 8 (messageBuffer stuck_on_log)) 8 0 = None)
    by (vm_compute; reflexivity).
  assert (H3 : Forall (fun c => scan c 0 1 = None) replies)
    by (repeat constructor; vm_compute; reflexivity).
  split; [exact H1|]. split; [exact H2|]. split; [exact H3|].
  rewrite (unclosed_brace_blocks_the_framer 8 replies stuck_on_log H1 H2 H3).
  repeat split; vm_compute; reflexivity.
Defined.

(** ** Broadcast *)

Lemma proc_handleMessage_broadcasts_witness :
  type_is plain_response Initialize = false /\
  onMessageListeners waiting_with_panel = [ReadyWaiter 0; Subscriber 1] /\
  delivered (handleMessage plain_response waiting_with_panel) = [(1%nat, plain_response)].
Proof.
  split; [reflexivity|]. split; [reflexivity|].
  rewrite (proc_handleMessage_broadcasts plain_response waiting_with_panel).
  - reflexivity.
  - intros q _. reflexivity.
Defined.

End ProcFacts.

(** * Facts about the framer by itself *)

Section FramerFacts.

Import Framer.

Context {Message Object : Type}.
Variable JSON_parse : text -> option Message.
Variable handleMessage : Message -> Object -> Object.

Abbreviation processOutput_rec := (processOutput_rec JSON_parse handleMessage).
Abbreviation processOutput := (processOutput JSON_parse handleMessage).
Abbreviation feed := (feed JSON_parse handleMessage).
Abbreviation state := (state Object).

(** More fuel than the length of the buffer is always enough. *)
Lemma framer_fuel (f1 f2 : nat) (s : state) :
  (length (messageBuffer s) < f1)%nat ->
  (length (messageBuffer s) < f2)%nat ->
  processOutput_rec f1 s = processOutput_rec f2 s.
Proof.
  revert f2 s. induction f1 as [|f1 IH]; intros f2 s H1 H2; [lia|].
  destruct f2 as [|f2]; [lia|]. cbn [Framer.processOutput_rec].
  destruct (indexOf lbrace (messageBuffer s) 0) as [i|] eqn:Hi; [|reflexivity].
  destruct (Proc.scan (skipn i (messageBuffer s)) i 0) as [e|]; [|reflexivity].
  destruct (JSON_parse (substring (messageBuffer s) i (e + 1))) as [m|];
    [|reflexivity].
  cbn [messageBuffer].
  destruct (0 <? length (substring_from (messageBuffer s) (e + 1)))%nat;
    [|reflexivity].
  apply indexOf_bounds in Hi.
  apply IH; cbn [messageBuffer]; unfold substring_from;
    rewrite length_skipn; lia.
Qed.

Lemma framer_no_frame (c : text) (s : state) :
  match indexOf lbrace (messageBuffer s ++ c) 0 with
  | None => True
  | Some i => Proc.scan (skipn i (messageBuffer s ++ c)) i 0 = None
  end ->
  processOutput c s = State (messageBuffer s ++ c) (parseErrors s) (object s).
Proof.
  intros H. unfold Framer.processOutput.
  cbn [Framer.processOutput_rec messageBuffer].
  destruct (indexOf lbrace (messageBuffer s ++ c) 0) as [i|]; [|reflexivity].
  rewrite H. reflexivity.
Qed.

(** A frame that parses is handled, and the rest of the buffer is
    processed as if it had just arrived on an empty buffer. *)
Lemma framer_first_frame (c : text) (s : state) (i e : nat) (m : Message) :
  indexOf lbrace (messageBuffer s ++ c) 0 = Some i ->
  Proc.scan (skipn i (messageBuffer s ++ c)) i 0 = Some e ->
  JSON_parse (substring (messageBuffer s ++ c) i (e + 1)) = Some m ->
  processOutput c s =
  processOutput (skipn (e + 1) (messageBuffer s ++ c))
    (State [] (parseErrors s) (handleMessage m (object s))).
Proof.
  intros Hi He Hm. unfold Framer.processOutput at 1.
  cbn [Framer.processOutput_rec messageBuffer parseErrors object].
  rewrite Hi, He, Hm. unfold substring_from.
  set (rest := skipn (e + 1) (messageBuffer s ++ c)).
  unfold Framer.processOutput. cbn [messageBuffer parseErrors object app].
  assert (Hlen : (length rest < length (messageBuffer s ++ c))%nat).
  { apply indexOf_bounds in Hi. subst rest. rewrite length_skipn. lia. }
  destruct (0 <? length rest)%nat eqn:Hpos.
  - apply framer_fuel; cbn [messageBuffer]; lia.
  - apply Nat.ltb_ge in Hpos. assert (rest = []) as ->.
    { destruct rest; [reflexivity|cbn in Hpos; lia]. }
    reflexivity.
Qed.

(** A frame that does not parse is counted, and the round ends. *)
Lemma framer_bad_frame (c : text) (s : state) (i e : nat) :
  indexOf lbrace (messageBuffer s ++ c) 0 = Some i ->
  Proc.scan (skipn i (messageBuffer s ++ c)) i 0 = Some e ->
  JSON_parse (substring (messageBuffer s ++ c) i (e + 1)) = None ->
  parseErrors (processOutput c s) = S (parseErrors s).
Proof.
  intros Hi He Hm. unfold Framer.processOutput.
  cbn [Framer.processOutput_rec messageBuffer parseErrors object].
  rewrite Hi, He, Hm.
  destruct (indexOf lbrace (messageBuffer s ++ c) (i + 1)); reflexivity.
Qed.

(** The count of parse errors never goes down. *)
Lemma framer_rec_parseErrors (fuel : nat) (s : state) :
  (parseErrors s <= parseErrors (processOutput_rec fuel s))%nat.
Proof.
  revert s. induction fuel as [|fuel IH]; intros s; [reflexivity|].
  cbn [Framer.processOutput_rec].
  destruct (indexOf lbrace (messageBuffer s) 0) as [i|]; [|reflexivity].
  destruct (Proc.scan (skipn i (messageBuffer s)) i 0) as [e|]; [|reflexivity].
  destruct (JSON_parse (substring (messageBuffer s) i (e + 1))) as [m|].
  - match goal with |- context [if ?c then _ else _] => destruct c end.
    + etransitivity; [|apply IH]. reflexivity.
    + reflexivity.
  - destruct (indexOf lbrace (messageBuffer s) (i + 1)); cbn; lia.
Qed.

Lemma framer_parseErrors (c : text) (s : state) :
  (parseErrors s <= parseErrors (processOutput c s))%nat.
Proof.
  unfold Framer.processOutput.
  etransitivity; [|apply framer_rec_parseErrors]. reflexivity.
Qed.

Lemma framer_app_aux (n : nat) :
  forall (s : state) (c1 c2 : text),
    (length (messageBuffer s ++ c1) <= n)%nat ->
    parseErrors (processOutput (c1 ++ c2) s) = parseErrors s ->
    processOutput c2 (processOutput c1 s) = processOutput (c1 ++ c2) s.
Proof.
  induction n as [n IH] using lt_wf_ind. intros s c1 c2 Hn Herr.
  set (b := messageBuffer s ++ c1) in *.
  assert (Hb : messageBuffer s ++ c1 ++ c2 = b ++ c2).
  { subst b. apply app_assoc. }
  assert (Hplain : processOutput c2 (State b (parseErrors s) (object s)) =
                   processOutput (c1 ++ c2) s).
  { unfold Framer.processOutput. cbn [messageBuffer parseErrors object].
    rewrite Hb. reflexivity. }
  destruct (indexOf lbrace b 0) as [i|] eqn:Hi.
  2:{ rewrite (framer_no_frame c1 s) by (fold b; rewrite Hi; exact I).
      exact Hplain. }
  destruct (Proc.scan (skipn i b) i 0) as [e|] eqn:He.
  2:{ rewrite (framer_no_frame c1 s) by (fold b; rewrite Hi; exact He).
      exact Hplain. }
  destruct (first_frame_app b c2 i e Hi He) as (Hi2 & He2 & Hsub & Hrest).
  rewrite <- Hb in Hi2, He2, Hsub, Hrest.
  destruct (JSON_parse (substring b i (e + 1))) as [m|] eqn:Hm.
  - rewrite (framer_first_frame c1 s i e m Hi He Hm).
    assert (Hm2 : JSON_parse (substring (messageBuffer s ++ c1 ++ c2) i (e + 1))
                  = Some m) by (rewrite Hsub; exact Hm).
    rewrite (framer_first_frame (c1 ++ c2) s i e m Hi2 He2 Hm2) in Herr |- *.
    rewrite Hrest in Herr |- *.
    fold b. set (s0 := State [] (parseErrors s) (handleMessage m (object s))) in *.
    assert (Hlt : (length (skipn (e + 1) b) < length b)%nat).
    { apply indexOf_bounds in Hi. rewrite length_skipn. lia. }
    apply (IH (length (skipn (e + 1) b))); [lia|reflexivity|].
    rewrite Herr. reflexivity.
  - assert (Hm2 : JSON_parse (substring (messageBuffer s ++ c1 ++ c2) i (e + 1))
                  = None) by (rewrite Hsub; exact Hm).
    pose proof (framer_bad_frame (c1 ++ c2) s i e Hi2 He2 Hm2) as Hbad.
    lia.
Qed.

(** X15.  Splitting the string does not matter where the framer meets
    no parse error.  Whatever [JSON.parse] accepts and returns and
    whatever [handleMessage] does with a message: if [processOutput],
    called once on the concatenation of some strings, ends with the
    error count it started with, then calling it on the strings one
    after the other ends in the same state: the same buffer, and the
    same messages handled in the same order. *)
Theorem framer_chunks_as_whole (c : text) (cs : list text) (s : state) :
  parseErrors (processOutput (concat (c :: cs)) s) = parseErrors s ->
  feed (c :: cs) s = processOutput (concat (c :: cs)) s.
Proof.
  revert c s. induction cs as [|c' cs IH]; intros c s Herr.
  - cbn. rewrite app_nil_r. reflexivity.
  - change (feed (c :: c' :: cs) s) with (feed (c' :: cs) (processOutput c s)).
    change (concat (c :: c' :: cs)) with (c ++ concat (c' :: cs)) in *.
    pose proof (framer_app_aux _ s c (concat (c' :: cs)) (Nat.le_refl _) Herr)
      as Happ.
    rewrite IH.
    + exact Happ.
    + pose proof (framer_parseErrors c s).
      pose proof (framer_parseErrors (concat (c' :: cs)) (processOutput c s)).
      rewrite Happ in *. lia.
Qed.

(** X24.  The frame the counter is made for.  Whatever [JSON.parse]
    accepts: when nothing before it in the buffer opens a brace, a text
    that starts with a brace, whose braces close at its last character
    and for which [JSON.parse] returns a message, is cut out exactly;
    what came before it is discarded unread, the message is handled,
    and the rest of the string is processed from an empty buffer. *)
Theorem framer_decodes_complete_frame
    (pre f rest : text) (m : Message) (s : state) :
  indexOf lbrace (messageBuffer s ++ pre) 0 = None ->
  indexOf lbrace f 0 = Some 0%nat ->
  Proc.scan f 0 0 = Some (length f - 1)%nat ->
  JSON_parse f = Some m ->
  processOutput (pre ++ f ++ rest) s =
  processOutput rest (State [] (parseErrors s) (handleMessage m (object s))).
Proof.
  intros Hpre Hf Hscan Hparse.
  set (b := messageBuffer s ++ pre).
  assert (Hbuf : messageBuffer s ++ pre ++ f ++ rest = b ++ f ++ rest)
    by (subst b; rewrite <- app_assoc; reflexivity).
  pose proof (scan_bounds _ _ _ _ Hscan) as Hlen.
  assert (Hi : indexOf lbrace (b ++ f ++ rest) 0 = Some (length b)).
  { unfold indexOf in *. rewrite drop_0 in *.
    rewrite (indexOf_aux_app_None _ _ _ _ Hpre). cbn [Nat.add].
    apply (indexOf_aux_shift _ _ 0%nat). apply indexOf_aux_app. exact Hf. }
  assert (Hdrop : skipn (length b) (b ++ f ++ rest) = f ++ rest).
  { rewrite skipn_app, skipn_all, Nat.sub_diag, drop_0. reflexivity. }
  assert (He : Proc.scan (skipn (length b) (b ++ f ++ rest)) (length b) 0 =
               Some (length b + (length f - 1))%nat).
  { rewrite Hdrop.
    pose proof (scan_shift (f ++ rest) 0 (length b) 0) as Hsh.
    rewrite Nat.add_0_r in Hsh. rewrite Hsh.
    rewrite (scan_app _ _ _ _ _ Hscan). reflexivity. }
  rewrite <- Hbuf in Hi, He.
  rewrite (framer_first_frame (pre ++ f ++ rest) s (length b)
             (length b + (length f - 1)) m Hi He).
  - rewrite Hbuf. f_equal.
    replace (length b + (length f - 1) + 1)%nat with (length b + length f)%nat by lia.
    rewrite app_assoc, skipn_app, skipn_all2 by (rewrite length_app; lia).
    rewrite length_app.
    replace (length b + length f - (length b + length f))%nat with 0%nat by lia.
    reflexivity.
  - rewrite Hbuf. unfold substring.
    rewrite Hdrop.
    replace (length b + (length f - 1) + 1 - length b)%nat with (length f) by lia.
    rewrite firstn_app, firstn_all, Nat.sub_diag. cbn. rewrite app_nil_r.
    exact Hparse.
Qed.

End FramerFacts.

(** * The framer of [OpenManusProcess] is the framer by itself *)

Section ProcessFramer.

Import Json Proc ProcScenario.

Lemma call_listener_errors (l : listener) (m : json) (n : nat) (s : state) :
  call_listener l m (set_parseErrors n s) = set_parseErrors n (call_listener l m s).
Proof.
  destruct l as [p|k]; cbn; [|reflexivity].
  destruct (type_is m Initialize); reflexivity.
Qed.

Lemma notify_errors (fuel i : nat) (m : json) (n : nat) (s : state) :
  notify fuel i m (set_parseErrors n s) = set_parseErrors n (notify fuel i m s).
Proof.
  revert i s. induction fuel as [|fuel IH]; intros i s; [reflexivity|].
  cbn [notify].
  change (onMessageListeners (set_parseErrors n s)) with (onMessageListeners s).
  destruct (onMessageListeners s !! i) as [l|]; [|reflexivity].
  rewrite call_listener_errors. apply IH.
Qed.

Lemma correlate_errors (m : json) (n : nat) (s : state) :
  correlate m (set_parseErrors n s) = set_parseErrors n (correlate m s).
Proof.
  unfold correlate. destruct (message_id m) as [i|]; [|reflexivity].
  change (messageCallbacks (set_parseErrors n s)) with (messageCallbacks s).
  destruct (messageCallbacks s !! i) as [[p|p|p]|]; [| | |reflexivity]; cbn.
  - destruct (type_is m PromptResponse && truthy (field "content" m));
      [reflexivity|].
    destruct (type_is m Error); reflexivity.
  - destruct (type_is m ExecuteToolResponse); [reflexivity|].
    destruct (type_is m Error); reflexivity.
  - destruct (type_is m Initialize && truthy (field "tools" m)); reflexivity.
Qed.

Lemma handleMessage_errors (m : json) (n : nat) (s : state) :
  handleMessage m (set_parseErrors n s) = set_parseErrors n (handleMessage m s).
Proof.
  unfold handleMessage.
  change (set_handled (m :: handled (set_parseErrors n s)) (set_parseErrors n s))
    with (set_parseErrors n (set_handled (m :: handled s) s)).
  change (onMessageListeners (set_parseErrors n (set_handled (m :: handled s) s)))
    with (onMessageListeners (set_handled (m :: handled s) s)).
  rewrite notify_errors, correlate_errors.
  destruct (type_is m Initialize); reflexivity.
Qed.

Lemma process_framer_rec (fuel : nat) (x : Framer.state state) :
  processOutput_rec fuel (Framer.to_process x) =
  Framer.to_process (Framer.processOutput_rec parse handleMessage fuel x).
Proof.
  revert x. induction fuel as [|fuel IH]; intros [b n o]; [reflexivity|].
  unfold Framer.to_process at 1.
  cbn [processOutput_rec Framer.processOutput_rec
       Framer.messageBuffer Framer.parseErrors Framer.object].
  change (messageBuffer (set_messageBuffer b (set_parseErrors n o))) with b.
  change (parseErrors (set_messageBuffer b (set_parseErrors n o))) with n.
  destruct (indexOf lbrace b 0) as [i|]; [|reflexivity].
  destruct (scan (skipn i b) i 0) as [e|]; [|reflexivity].
  destruct (parse (substring b i (e + 1))) as [m|].
  - rewrite handleMessage_buffer, handleMessage_errors.
    change (messageBuffer (set_messageBuffer b (set_parseErrors n (handleMessage m o))))
      with b.
    change (messageBuffer (set_messageBuffer (substring_from b (e + 1))
                             (set_messageBuffer b (set_parseErrors n (handleMessage m o)))))
      with (substring_from b (e + 1)).
    match goal with |- context [if ?c then _ else _] => destruct c end.
    + rewrite <- (IH (Framer.State (substring_from b (e + 1)) n (handleMessage m o))).
      reflexivity.
    + destruct (handleMessage m o); reflexivity.
  - destruct (indexOf lbrace b (i + 1)); reflexivity.
Qed.

(** [Proc.processOutput] is [Framer.processOutput] at [Json.parse] and
    [Proc.handleMessage]. *)
Lemma process_framer (c : text) (s : state) :
  processOutput c s =
  Framer.to_process
    (Framer.processOutput parse handleMessage c (Framer.of_process s)).
Proof.
  unfold processOutput, Framer.processOutput.
  rewrite <- process_framer_rec.
  destruct s; reflexivity.
Qed.

Lemma framer_chunks_as_whole_witness :
  let s := Framer.of_process running_mcp in
  Framer.parseErrors
    (Framer.processOutput parse handleMessage (concat clean_stream) s) =
    Framer.parseErrors s /\
  (2 <= length clean_stream)%nat /\
  Framer.feed parse handleMessage clean_stream s =
    Framer.processOutput parse handleMessage (concat clean_stream) s /\
  handled (Framer.object (Framer.feed parse handleMessage clean_stream s)) =
    [ready_signal; plain_response] /\
  Framer.messageBuffer (Framer.feed parse handleMessage clean_stream s) = [newline].
Proof.
  cbv zeta.
  assert (H : Framer.parseErrors
                (Framer.processOutput parse handleMessage (concat clean_stream)
                   (Framer.of_process running_mcp)) =
              Framer.parseErrors (Framer.of_process running_mcp))
    by (vm_compute; reflexivity).
  split; [exact H|]. split; [cbn; lia|].
  pose proof (framer_chunks_as_whole parse handleMessage _ _
                (Framer.of_process running_mcp) H) as E.
  split; [exact E|]. split; vm_compute; reflexivity.
Defined.

Lemma framer_decodes_complete_frame_witness :
  let s := Framer.of_process tool_pending in
  let pre := T "INFO tool done" ++ [newline] in
  indexOf lbrace (Framer.messageBuffer s ++ pre) 0 = None /\
  indexOf lbrace (stringify nested_response) 0 = Some 0%nat /\
  scan (stringify nested_response) 0 0 =
    Some (length (stringify nested_response) - 1)%nat /\
  parse (stringify nested_response) = Some nested_response /\
  settlements 0
    (Framer.object
       (Framer.processOutput parse handleMessage
          (pre ++ stringify nested_response ++ [newline]) s)) =
  [Resolved (JObj [("files", JArr [JStr "a.ts"; JStr "b.ts"])]%string)].
Proof.
  cbv zeta.
  assert (H1 : indexOf lbrace
                 (Framer.messageBuffer (Framer.of_process tool_pending) ++
                  T "INFO tool done" ++ [newline]) 0 = None)
    by (vm_compute; reflexivity).
  assert (H2 : indexOf lbrace (stringify nested_response) 0 = Some 0%nat)
    by (vm_compute; reflexivity).
  assert (H3 : scan (stringify nested_response) 0 0 =
               Some (length (stringify nested_response) - 1)%nat)
    by (vm_compute; reflexivity).
  assert (H4 : parse (stringify nested_response) = Some nested_response)
    by (vm_compute; reflexivity).
  split; [exact H1|]. split; [exact H2|]. split; [exact H3|]. split; [exact H4|].
  rewrite (framer_decodes_complete_frame parse handleMessage
             (T "INFO tool done" ++ [newline])
             (stringify nested_response) [newline] nested_response
             (Framer.of_process tool_pending) H1 H2 H3 H4).
  vm_compute. reflexivity.
Defined.

End ProcessFramer.
